(** * openclaw-agent-did: the command layer of the agent-did plugin

    A shallow embedding of the plugin's TypeScript sources:

    - [src/utils/keystore-manager.ts]  (module [KeystoreManager]),
    - [src/utils/error-handler.ts]     ([normalizeError], [formatError]),
    - [src/utils/output-formatter.ts]  ([outputJson]),
    - [src/commands/create.ts], [src/commands/auth.ts], [src/commands/vc.ts]
      (the [action] handlers of the commands).

    The handlers are asynchronous but strictly sequential (every promise is
    awaited at once), so a handler is a state transformer over a [World]
    that ends in one of three ways: it returns, it throws, or it calls
    [process.exit].  The agent-did library and the Node.js built-ins are not
    part of the plugin; they enter as the record [Library] and as a few host
    functions, and every call into the library is recorded in the world. *)

From Stdlib Require Import String Ascii List ZArith Bool Lia Arith.
From Stdlib Require Import DecimalString.
Import ListNotations.
Local Open Scope list_scope.
Local Open Scope string_scope.
Set Warnings "-register-all".

(* ===================================================================== *)
(** ** JavaScript values *)
(* ===================================================================== *)

(** Numbers: the commands only handle integer seconds, and the one
    non-integer they can produce is [NaN] (from [parseInt]). *)
Inductive Num : Type :=
| NaN
| Int (z : Z).

Inductive Val : Type :=
| VUndef
| VNull
| VBool (b : bool)
| VNum (n : Num)
| VStr (s : string)
| VArr (items : list Val)
| VObj (fields : list (string * Val)).

Definition num_add (a b : Num) : Num :=
  match a, b with
  | Int x, Int y => Int (x + y)
  | _, _ => NaN
  end.

Definition str_truthy (s : string) : bool :=
  match s with EmptyString => false | _ => true end.

(** [if (v)], [!v], [a || b]. *)
Definition truthy (v : Val) : bool :=
  match v with
  | VUndef | VNull => false
  | VBool b => b
  | VNum NaN => false
  | VNum (Int z) => negb (Z.eqb z 0)
  | VStr s => str_truthy s
  | VArr _ | VObj _ => true
  end.

Definition js_or (a b : Val) : Val := if truthy a then a else b.

Fixpoint assoc {A : Type} (k : string) (l : list (string * A)) : option A :=
  match l with
  | [] => None
  | (k', v) :: r => if String.eqb k k' then Some v else assoc k r
  end.

(** [v.k] on a value that is known not to be null or undefined. *)
Definition field (k : string) (v : Val) : Val :=
  match v with
  | VObj fs => match assoc k fs with Some x => x | None => VUndef end
  | _ => VUndef
  end.

Definition opt_val (o : option string) : Val :=
  match o with Some s => VStr s | None => VUndef end.

(** A value whose properties can be read: reading a property of
    [undefined] or [null] throws a TypeError. *)
Definition readable (v : Val) : bool :=
  match v with VUndef | VNull => false | _ => true end.

(* ===================================================================== *)
(** ** Strings *)
(* ===================================================================== *)

Definition nl : string := String (ascii_of_nat 10) EmptyString.
Definition dquote : string := String (ascii_of_nat 34) EmptyString.

(** [hay.includes(needle)] *)
Fixpoint includes (needle hay : string) : bool :=
  if prefix needle hay then true
  else match hay with
       | EmptyString => false
       | String _ t => includes needle t
       end.

(** White space as [String.prototype.trim] sees it, on the ASCII range. *)
Definition is_space (c : ascii) : bool :=
  let n := nat_of_ascii c in
  (Nat.eqb n 32) || ((Nat.leb 9 n) && (Nat.leb n 13)).

Fixpoint trimStart (s : string) : string :=
  match s with
  | EmptyString => EmptyString
  | String c t => if is_space c then trimStart t else s
  end.

(** The string without its trailing white space. *)
Fixpoint trimEnd (s : string) : string :=
  match s with
  | EmptyString => EmptyString
  | String c t =>
      match trimEnd t with
      | EmptyString => if is_space c then EmptyString else String c EmptyString
      | t' => String c t'
      end
  end.

Definition trim (s : string) : string := trimEnd (trimStart s).

(** [s.split(sep)] for a one-character separator: the pieces between the
    separators, so always at least one piece. *)
Fixpoint split (sep : ascii) (s : string) : list string :=
  match s with
  | EmptyString => [EmptyString]
  | String c t =>
      if Ascii.eqb c sep then EmptyString :: split sep t
      else match split sep t with
           | [] => [String c EmptyString]
           | p :: ps => String c p :: ps
           end
  end.

Fixpoint join (sep : string) (l : list string) : string :=
  match l with
  | [] => EmptyString
  | [x] => x
  | x :: r => x ++ sep ++ join sep r
  end.

Fixpoint spaces (n : nat) : string :=
  match n with O => EmptyString | S k => String " " (spaces k) end.

Definition padEnd (n : nat) (s : string) : string :=
  s ++ spaces (n - String.length s).

Definition string_of_Z (z : Z) : string := NilZero.string_of_int (Z.to_int z).

Definition is_digit (c : ascii) : bool :=
  let n := nat_of_ascii c in (Nat.leb 48 n) && (Nat.leb n 57).

Fixpoint digits_value (acc : Z) (s : string) : Z :=
  match s with
  | String c t =>
      if is_digit c then digits_value (10 * acc + Z.of_nat (nat_of_ascii c - 48)) t
      else acc
  | EmptyString => acc
  end.

Definition starts_with_digit (s : string) : bool :=
  match s with String c _ => is_digit c | EmptyString => false end.

(** [parseInt(s, 10)]: leading white space, an optional sign, then the
    longest run of decimal digits; [NaN] when there is no digit. *)
Definition parseInt10 (s : string) : Num :=
  let s1 := trimStart s in
  let '(neg, s2) :=
    match s1 with
    | String "-" t => (true, t)
    | String "+" t => (false, t)
    | _ => (false, s1)
    end in
  if starts_with_digit s2
  then Int (if neg then - digits_value 0 s2 else digits_value 0 s2)
  else NaN.

(** Strings are sequences of bytes, and numbers are exact integers.  On a
    text of ASCII characters the white space of [trim] and of
    [parseInt10] is all the white space JavaScript knows, and an integer of
    magnitude at most 2^53 is a JavaScript number as it stands: on these
    [parseInt10] is [parseInt(s, 10)], and [trim] is
    [String.prototype.trim]. *)
Fixpoint ascii_only (s : string) : bool :=
  match s with
  | EmptyString => true
  | String c t => Nat.ltb (nat_of_ascii c) 128 && ascii_only t
  end.

Definition safe_integer (n : Num) : bool :=
  match n with
  | NaN => true
  | Int z => (Z.abs z <=? 2 ^ 53)%Z
  end.

Definition exact_parseInt (s : string) : bool :=
  ascii_only s && safe_integer (parseInt10 s).

(* ===================================================================== *)
(** ** output-formatter.ts: [outputJson] *)
(* ===================================================================== *)

Definition hex_digit (n : nat) : ascii :=
  ascii_of_nat (if Nat.ltb n 10 then 48 + n else 87 + n).

Definition escape_char (c : ascii) : string :=
  let n := nat_of_ascii c in
  if Nat.eqb n 34 then String "\" dquote
  else if Nat.eqb n 92 then "\\"
  else if Nat.eqb n 8 then "\b"
  else if Nat.eqb n 9 then "\t"
  else if Nat.eqb n 10 then "\n"
  else if Nat.eqb n 12 then "\f"
  else if Nat.eqb n 13 then "\r"
  else if Nat.ltb n 32
       then "\u00" ++ String (hex_digit (n / 16)) (String (hex_digit (n mod 16)) EmptyString)
       else String c EmptyString.

Fixpoint escape (s : string) : string :=
  match s with
  | EmptyString => EmptyString
  | String c t => escape_char c ++ escape t
  end.

Definition json_string (s : string) : string := dquote ++ escape s ++ dquote.

Definition bracket (pretty : bool) (op cl : string) (ind : nat) (parts : list string)
  : string :=
  match parts with
  | [] => op ++ cl
  | _ =>
      if pretty
      then op ++ nl
           ++ join ("," ++ nl) (map (fun p => spaces (ind + 2) ++ p) parts)
           ++ nl ++ spaces ind ++ cl
      else op ++ join "," parts ++ cl
  end.

(** [JSON.stringify(v, null, 2)] ([pretty], at indentation [ind]) and
    [JSON.stringify(v)]; [None] is the [undefined] that [JSON.stringify]
    returns for [undefined]. *)
Fixpoint stringify (pretty : bool) (ind : nat) (v : Val) {struct v} : option string :=
  match v with
  | VUndef => None
  | VNull => Some "null"
  | VBool b => Some (if b then "true" else "false")
  | VNum NaN => Some "null"
  | VNum (Int z) => Some (string_of_Z z)
  | VStr s => Some (json_string s)
  | VArr items =>
      let fix go (l : list Val) : list string :=
        match l with
        | [] => []
        | x :: r =>
            match stringify pretty (ind + 2) x with
            | Some s => s :: go r
            | None => "null" :: go r
            end
        end in
      Some (bracket pretty "[" "]" ind (go items))
  | VObj fields =>
      let fix go (l : list (string * Val)) : list string :=
        match l with
        | [] => []
        | (k, x) :: r =>
            match stringify pretty (ind + 2) x with
            | Some s => (json_string k ++ (if pretty then ": " else ":") ++ s) :: go r
            | None => go r
            end
        end in
      Some (bracket pretty "{" "}" ind (go fields))
  end.

Definition or_undefined (o : option string) : string :=
  match o with
  | Some s => s
  | None => "undefined"
  end.

(** [outputJson(data)]; its result is only ever handed to [console.log],
    which prints [undefined] as the word. *)
Definition outputJson (data : Val) : string := or_undefined (stringify true 0 data).

(** [JSON.stringify(value)] inside a template literal. *)
Definition JSON_stringify (value : Val) : string := or_undefined (stringify false 0 value).

(** [String(v)], which is also how a template literal renders [v]. *)
Fixpoint js_String (v : Val) {struct v} : string :=
  match v with
  | VUndef => "undefined"
  | VNull => "null"
  | VBool b => if b then "true" else "false"
  | VNum NaN => "NaN"
  | VNum (Int z) => string_of_Z z
  | VStr s => s
  | VArr items =>
      let fix go (l : list Val) : list string :=
        match l with
        | [] => []
        | x :: r =>
            match x with
            | VUndef | VNull => EmptyString :: go r
            | _ => js_String x :: go r
            end
        end in
      join "," (go items)
  | VObj _ => "[object Object]"
  end.

(** [items.join(sep)] *)
Definition array_join (sep : string) (items : list Val) : string :=
  join sep
    (map (fun x => match x with VUndef | VNull => EmptyString | _ => js_String x end)
       items).

(* ===================================================================== *)
(** ** error-handler.ts *)
(* ===================================================================== *)

Record AgentDidError : Type := mkAgentDidError {
  message : string;
  code : option string;
  details : option Val
}.

(** What a [catch (error)] clause can receive. *)
Inductive Thrown : Type :=
| ThrownAgentDidError (e : AgentDidError)
| ThrownError (msg : string)
| ThrownOther (v : Val).

Definition normalizeError (error : Thrown) : AgentDidError :=
  match error with
  | ThrownAgentDidError e => e
  | ThrownError msg =>
      if includes "Passphrase required" msg then
        mkAgentDidError
          "Passphrase required. Set AGENT_DID_PASSPHRASE environment variable or use --no-encryption flag."
          (Some "MISSING_PASSPHRASE") None
      else if includes "Invalid passphrase" msg then
        mkAgentDidError
          "Invalid passphrase. Check your AGENT_DID_PASSPHRASE environment variable."
          (Some "INVALID_PASSPHRASE") None
      else if includes "not found" msg || includes "does not exist" msg then
        mkAgentDidError msg (Some "NOT_FOUND") None
      else if includes "already exists" msg then
        mkAgentDidError msg (Some "ALREADY_EXISTS") None
      else if includes "permission denied" msg then
        mkAgentDidError msg (Some "PERMISSION_DENIED") None
      else mkAgentDidError msg None None
  | ThrownOther v =>
      mkAgentDidError "An unexpected error occurred" (Some "UNKNOWN")
        (Some (VObj [("originalError", VStr (js_String v))]))
  end.

Definition formatError (error : AgentDidError) : string :=
  let output := "❌ Error: " ++ message error in
  let output :=
    match code error with
    | Some c => if str_truthy c then output ++ nl ++ "   Code: " ++ c else output
    | None => output
    end in
  match details error with
  | Some d => output ++ nl ++ "   Details: " ++ outputJson d
  | None => output
  end.

(* ===================================================================== *)
(** ** The world of a handler *)
(* ===================================================================== *)

(** A [Keystore] object of the agent-did library: the arguments of its
    constructor, and [ks_id], the identity of the object ([===] on objects
    compares identities, and every [new] yields a new one). *)
Record Keystore : Type := mkKeystore {
  ks_id : nat;
  ks_path : string;
  ks_passphrase : option string;
  ks_skipValidation : bool
}.

(** The calls a handler makes into the agent-did library. *)
Inductive Call : Type :=
| CallNewKeystore (path : string) (passphrase : option string) (skip : bool)
| CallInit (ks : Keystore)
| CallExists (ks : Keystore)
| CallGetIdentity (ks : Keystore) (did : string)
| CallGetKeyPair (ks : Keystore) (did : string)
| CallStoreIdentity (ks : Keystore) (metadata keyPair : Val)
| CallListCredentials (ks : Keystore)
| CallDeleteCredential (ks : Keystore) (id : string)
| CallGenerateKeyPair
| CallPublicKeyToDidKey (publicKey : Val)
| CallCreateCapabilityCredential (issuer subject : string)
    (scopes : list string) (opts : Val)
| CallSignCredential (credential privateKey publicKey : Val)
| CallVerifyCredential (jwt : string) (opts : Val)
| CallSignAuthChallenge (did : string) (privateKey publicKey : Val)
    (challenge : string) (opts : Val)
| CallVerifyAuthChallenge (did payload signature : string) (opts : Val).

(** [console.log] writes an [Out] line, [console.error] an [Err] line. *)
Inductive Line : Type :=
| Out (s : string)
| Err (s : string).

(** The result of a library call. *)
Inductive Res (A : Type) : Type :=
| Ok (a : A)
| Fail (e : Thrown).
Arguments Ok {A} a.
Arguments Fail {A} e.

(** How a piece of handler code ends. *)
Inductive Outcome (A : Type) : Type :=
| Return (a : A)
| Throw (e : Thrown)
| Exit (exitCode : Z).
Arguments Return {A} a.
Arguments Throw {A} e.
Arguments Exit {A} exitCode.

(** The agent-did library and the Node.js functions the plugin calls.
    [Ext] is whatever the library keeps outside the plugin: the keystore
    directories on disk, its random source, the clock. *)
Record Library (Ext : Type) : Type := mkLibrary {
  Keystore_new : string -> option string -> bool -> Ext -> Res unit * Ext;
  Keystore_init : Keystore -> Ext -> Res unit * Ext;
  Keystore_exists : Keystore -> Ext -> Res bool * Ext;
  Keystore_getIdentity : Keystore -> string -> Ext -> Res Val * Ext;
  Keystore_getKeyPair : Keystore -> string -> Ext -> Res Val * Ext;
  Keystore_storeIdentity : Keystore -> Val -> Val -> Ext -> Res unit * Ext;
  Keystore_listCredentials : Keystore -> Ext -> Res (list Val) * Ext;
  Keystore_deleteCredential : Keystore -> string -> Ext -> Res bool * Ext;
  generateKeyPair : Ext -> Res Val * Ext;
  publicKeyToDidKey : Val -> Ext -> Res string * Ext;
  createCapabilityCredential :
    string -> string -> list string -> Val -> Ext -> Res Val * Ext;
  signCredential : Val -> Val -> Val -> Ext -> Res string * Ext;
  verifyCredential : string -> Val -> Ext -> Res Val * Ext;
  verifyAuthChallenge :
    string -> string -> string -> Val -> Ext -> Res Val * Ext;
  (* the signing primitive under signAuthChallenge: payload and keys to
     the result object *)
  encodeAndSign : Val -> Val -> Val -> Ext -> Res Val * Ext;
  (* base64url-decode and JSON-parse one segment of a token *)
  decodeSegment : string -> option Val;
  (* Node.js *)
  path_resolve : string -> string;
  path_join : string -> string -> string;
  os_homedir : string;
  JSON_parse : string -> Res Val;
  now_seconds : Ext -> Z;
  now_toISOString : Ext -> string;
  seconds_toISOString : Val -> Res string;
  toLocaleString : string -> string;
  (* [new Date(v).toLocaleString()] for a value that is not a string *)
  value_toLocaleString : Val -> string;
  (* the error that [fs.writeFileSync] raises at this path, if it does
     (ENOENT, EACCES, EISDIR, ...) *)
  writeFile_error : string -> Ext -> option Thrown
}.

Arguments mkLibrary {Ext}.
Arguments Keystore_new {Ext}.
Arguments Keystore_init {Ext}.
Arguments Keystore_exists {Ext}.
Arguments Keystore_getIdentity {Ext}.
Arguments Keystore_getKeyPair {Ext}.
Arguments Keystore_storeIdentity {Ext}.
Arguments Keystore_listCredentials {Ext}.
Arguments Keystore_deleteCredential {Ext}.
Arguments generateKeyPair {Ext}.
Arguments publicKeyToDidKey {Ext}.
Arguments createCapabilityCredential {Ext}.
Arguments signCredential {Ext}.
Arguments verifyCredential {Ext}.
Arguments verifyAuthChallenge {Ext}.
Arguments encodeAndSign {Ext}.
Arguments decodeSegment {Ext}.
Arguments path_resolve {Ext}.
Arguments path_join {Ext}.
Arguments os_homedir {Ext}.
Arguments JSON_parse {Ext}.
Arguments now_seconds {Ext}.
Arguments now_toISOString {Ext}.
Arguments seconds_toISOString {Ext}.
Arguments toLocaleString {Ext}.
Arguments value_toLocaleString {Ext}.
Arguments writeFile_error {Ext}.

Record World (Ext : Type) : Type := mkWorld {
  env_AGENT_DID_PASSPHRASE : option string;
  env_AGENT_DID_HOME : option string;
  (* the files that the plugin itself reads and writes through [fs]; the
     keystore directory, which the library reads and writes, is part of
     [ext] *)
  files : list (string * string);
  (* the static fields of KeystoreManager *)
  mgr_instance : option Keystore;
  mgr_currentPath : option string;
  mgr_currentEncryption : option bool;
  (* the identity the next [new Keystore] gets *)
  next_id : nat;
  ext : Ext;
  calls : list Call;
  console : list Line
}.
Arguments mkWorld {Ext}.
Arguments env_AGENT_DID_PASSPHRASE {Ext}.
Arguments env_AGENT_DID_HOME {Ext}.
Arguments files {Ext}.
Arguments mgr_instance {Ext}.
Arguments mgr_currentPath {Ext}.
Arguments mgr_currentEncryption {Ext}.
Arguments next_id {Ext}.
Arguments ext {Ext}.
Arguments calls {Ext}.
Arguments console {Ext}.

(** Handler code: a transformer of the world with an outcome. *)
Definition M (Ext : Type) (A : Type) : Type := World Ext -> Outcome A * World Ext.

Section Plugin.

Context {Ext : Type}.
Variable lib : Library Ext.

Local Abbreviation World := (World Ext).
Local Abbreviation M := (M Ext).

Definition ret {A : Type} (a : A) : M A := fun w => (Return a, w).

Definition throw {A : Type} (e : Thrown) : M A := fun w => (Throw e, w).

(** [throw new Error(msg)] *)
Definition throw_Error {A : Type} (msg : string) : M A := throw (ThrownError msg).

(** [process.exit(code)] *)
Definition process_exit {A : Type} (exitCode : Z) : M A := fun w => (Exit exitCode, w).

Definition bind {A B : Type} (c : M A) (k : A -> M B) : M B :=
  fun w =>
    match c w with
    | (Return a, w') => k a w'
    | (Throw e, w') => (Throw e, w')
    | (Exit n, w') => (Exit n, w')
    end.

(** [try { c } catch (error) { handler error }] *)
Definition try_catch {A : Type} (c : M A) (handler : Thrown -> M A) : M A :=
  fun w =>
    match c w with
    | (Throw e, w') => handler e w'
    | r => r
    end.

Definition get_world : M World := fun w => (Return w, w).

Local Notation "x <- c ;; k" := (bind c (fun x => k))
  (at level 61, c at next level, right associativity).
Local Notation "c ;;; k" := (bind c (fun _ => k))
  (at level 61, right associativity).

Definition add_line (l : Line) (w : World) : World :=
  mkWorld (env_AGENT_DID_PASSPHRASE w) (env_AGENT_DID_HOME w) (files w)
    (mgr_instance w) (mgr_currentPath w) (mgr_currentEncryption w)
    (next_id w) (ext w) (calls w) (console w ++ [l]).

Definition console_log (s : string) : M unit := fun w => (Return tt, add_line (Out s) w).
Definition console_error (s : string) : M unit := fun w => (Return tt, add_line (Err s) w).

Definition record_call (c : Call) (e : Ext) (w : World) : World :=
  mkWorld (env_AGENT_DID_PASSPHRASE w) (env_AGENT_DID_HOME w) (files w)
    (mgr_instance w) (mgr_currentPath w) (mgr_currentEncryption w)
    (next_id w) e (calls w ++ [c]) (console w).

(** A call into the library: it is recorded, it may change what the
    library keeps, and a failure arrives as an exception. *)
Definition call {A : Type} (c : Call) (f : Ext -> Res A * Ext) : M A :=
  fun w =>
    match f (ext w) with
    | (Ok a, e) => (Return a, record_call c e w)
    | (Fail err, e) => (Throw err, record_call c e w)
    end.

(** A host function that may throw but keeps no state. *)
Definition lift_res {A : Type} (r : Res A) : M A :=
  match r with
  | Ok a => ret a
  | Fail e => throw e
  end.

(** [fs.existsSync], [fs.readFileSync(p, 'utf8')], [fs.writeFileSync]. *)
Definition fs_existsSync (p : string) : M bool :=
  fun w => (Return (match assoc p (files w) with Some _ => true | None => false end), w).

Definition fs_readFileSync (p : string) : M string :=
  fun w =>
    match assoc p (files w) with
    | Some content => (Return content, w)
    | None => (Throw (ThrownError ("ENOENT: no such file or directory, open '" ++ p ++ "'")), w)
    end.

Definition fs_writeFileSync (p content : string) : M unit :=
  fun w =>
    match writeFile_error lib p (ext w) with
    | Some err => (Throw err, w)
    | None =>
        (Return tt,
         mkWorld (env_AGENT_DID_PASSPHRASE w) (env_AGENT_DID_HOME w) ((p, content) :: files w)
           (mgr_instance w) (mgr_currentPath w) (mgr_currentEncryption w)
           (next_id w) (ext w) (calls w) (console w))
    end.

(** The tail every handler shares:
    [catch (error) { console.error(formatError(normalizeError(error))); process.exit(1); }] *)
Definition report_and_exit {A : Type} (error : Thrown) : M A :=
  console_error (formatError (normalizeError error)) ;;;
  process_exit 1.

Definition action (body : M unit) : M unit := try_catch body report_and_exit.

(** The exit code of the process after a handler ran: that of
    [process.exit], else 0; an exception that escapes the handler is an
    unhandled rejection, which ends the process with code 1. *)
Definition exit_code (o : Outcome unit) : Z :=
  match o with
  | Return _ => 0
  | Exit n => n
  | Throw _ => 1
  end.

(* ===================================================================== *)
(** ** keystore-manager.ts *)
(* ===================================================================== *)

(** [new Keystore(path, passphrase, skip)] *)
Definition new_Keystore (path : string) (passphrase : option string) (skip : bool)
  : M Keystore :=
  call (CallNewKeystore path passphrase skip) (Keystore_new lib path passphrase skip) ;;;
  (fun w =>
     (Return (mkKeystore (next_id w) path passphrase skip),
      mkWorld (env_AGENT_DID_PASSPHRASE w) (env_AGENT_DID_HOME w) (files w)
        (mgr_instance w) (mgr_currentPath w) (mgr_currentEncryption w)
        (S (next_id w)) (ext w) (calls w) (console w))).

Definition getStorePath (w : World) (customPath : option string) : string :=
  let fallback :=
    match env_AGENT_DID_HOME w with
    | Some h => if str_truthy h then h else path_join lib (os_homedir lib) ".agent-did"
    | None => path_join lib (os_homedir lib) ".agent-did"
    end in
  match customPath with
  | Some p => if str_truthy p then path_resolve lib p else fallback
  | None => fallback
  end.

Definition missing_passphrase : string :=
  "Passphrase required but not available. " ++
  "Set AGENT_DID_PASSPHRASE environment variable or use --no-encryption flag.".

Definition getPassphrase (noEncryption : bool) : M (option string) :=
  if noEncryption then ret None
  else
    w <- get_world ;;
    match env_AGENT_DID_PASSPHRASE w with
    | Some envPassphrase =>
        if String.eqb envPassphrase "" then ret None
        else ret (Some envPassphrase)
    | None => throw_Error missing_passphrase
    end.

Definition warn_unencrypted (noEncryption : bool) (passphrase : option string) : M unit :=
  match noEncryption, passphrase with
  | true, None =>
      console_log (nl ++ "⚠️  WARNING: Keys will be stored UNENCRYPTED on disk!") ;;;
      console_log ("This is NOT recommended for production use." ++ nl)
  | _, _ => ret tt
  end.

(** [this.instance && this.currentPath === resolvedPath &&
     this.currentEncryption === !noEncryption] *)
Definition cached (w : World) (resolvedPath : string) (noEncryption : bool)
  : option Keystore :=
  match mgr_instance w, mgr_currentPath w, mgr_currentEncryption w with
  | Some inst, Some p, Some e =>
      if String.eqb p resolvedPath && Bool.eqb e (negb noEncryption)
      then Some inst else None
  | _, _, _ => None
  end.

Definition set_cache (k : Keystore) (p : string) (e : bool) : M unit :=
  fun w =>
    (Return tt,
     mkWorld (env_AGENT_DID_PASSPHRASE w) (env_AGENT_DID_HOME w) (files w)
       (Some k) (Some p) (Some e)
       (next_id w) (ext w) (calls w) (console w)).

Definition getKeystore (customPath : option string) (noEncryption : bool) : M Keystore :=
  w <- get_world ;;
  let resolvedPath := getStorePath w customPath in
  match cached w resolvedPath noEncryption with
  | Some inst => ret inst
  | None =>
      passphrase <- getPassphrase noEncryption ;;
      warn_unencrypted noEncryption passphrase ;;;
      k <- new_Keystore resolvedPath passphrase true ;;
      set_cache k resolvedPath (negb noEncryption) ;;;
      ret k
  end.

Definition getNewKeystore (customPath : option string) (noEncryption : bool) : M Keystore :=
  w <- get_world ;;
  let resolvedPath := getStorePath w customPath in
  passphrase <- getPassphrase noEncryption ;;
  warn_unencrypted noEncryption passphrase ;;;
  new_Keystore resolvedPath passphrase false.

Definition clearCache : M unit :=
  fun w =>
    (Return tt,
     mkWorld (env_AGENT_DID_PASSPHRASE w) (env_AGENT_DID_HOME w) (files w)
       None None None
       (next_id w) (ext w) (calls w) (console w)).

(* ===================================================================== *)
(** ** output-formatter.ts: [outputTable], [formatOutput], [formatDate] *)
(* ===================================================================== *)

Definition outputTable (data : list (string * Val)) : string :=
  let maxKeyLength := fold_right Nat.max 0 (map (fun kv => String.length (fst kv)) data) in
  join nl (map (fun kv => padEnd maxKeyLength (fst kv) ++ " : " ++ js_String (snd kv)) data).

Definition formatOutput (data : Val) (asJson : bool) : string :=
  if asJson then outputJson data
  else match data with
       | VObj fs => outputTable fs
       | _ => outputJson data
       end.

(** [new Date(dateStr).toLocaleString()] does not throw, so the [catch]
    branch of [formatDate] is dead. *)
Definition formatDate (dateStr : string) : string := toLocaleString lib dateStr.

(** [formatDate(v)] for a value of any type: the parameter is declared a
    string, and the value is handed to [new Date] as it is. *)
Definition formatDate_value (v : Val) : string :=
  match v with
  | VStr dateStr => formatDate dateStr
  | _ => value_toLocaleString lib v
  end.

(** [v === s] for a string literal [s]. *)
Definition is_string (s : string) (v : Val) : bool :=
  match v with
  | VStr s' => String.eqb s' s
  | _ => false
  end.

(** [v.k] where [v] may be null or undefined: a TypeError then. *)
Definition prop (k : string) (v : Val) : M Val :=
  match v with
  | VUndef => throw_Error ("Cannot read properties of undefined (reading '" ++ k ++ "')")
  | VNull => throw_Error ("Cannot read properties of null (reading '" ++ k ++ "')")
  | _ => ret (field k v)
  end.

(** [`${did}#${did.split(':')[2]}`] *)
Definition kid_of (did : string) : string :=
  did ++ "#" ++ nth 2 (split ":" did) "undefined".

(* ===================================================================== *)
(** ** commands/create.ts *)
(* ===================================================================== *)

Record CreateAgentOptions : Type := mkCreateAgentOptions {
  ca_name : string;
  ca_owner : string;
  ca_store : option string;
  ca_encryption : bool;
  ca_json : bool
}.

Definition owner_not_found (owner : string) : string :=
  "Owner identity not found: " ++ owner.

Definition owner_type_mismatch (owner : string) : string :=
  "Specified DID is not an owner: " ++ owner.

Definition createAgentCommand (options : CreateAgentOptions) : M unit :=
  action (
    keystore <- getNewKeystore (ca_store options) (negb (ca_encryption options)) ;;
    call (CallInit keystore) (Keystore_init lib keystore) ;;;
    ownerIdentity <- call (CallGetIdentity keystore (ca_owner options))
                       (Keystore_getIdentity lib keystore (ca_owner options)) ;;
    if negb (truthy ownerIdentity) then
      throw_Error (owner_not_found (ca_owner options))
    else if negb (is_string "owner" (field "type" ownerIdentity)) then
      throw_Error (owner_type_mismatch (ca_owner options))
    else
      keyPair <- call CallGenerateKeyPair (generateKeyPair lib) ;;
      publicKey <- prop "publicKey" keyPair ;;
      did <- call (CallPublicKeyToDidKey publicKey) (publicKeyToDidKey lib publicKey) ;;
      w <- get_world ;;
      let createdAt := now_toISOString lib (ext w) in
      let metadata :=
        VObj [("did", VStr did); ("type", VStr "agent"); ("name", VStr (ca_name options));
              ("createdAt", VStr createdAt); ("ownerDid", VStr (ca_owner options))] in
      call (CallStoreIdentity keystore metadata keyPair)
        (Keystore_storeIdentity lib keystore metadata keyPair) ;;;
      let output :=
        VObj [("did", VStr did); ("kid", VStr (kid_of did)); ("name", VStr (ca_name options));
              ("type", VStr "agent"); ("ownerDid", VStr (ca_owner options));
              ("createdAt", VStr createdAt)] in
      console_log (formatOutput output (ca_json options)) ;;;
      if negb (ca_json options) then
        console_log (nl ++ "✓ Agent identity created successfully") ;;;
        if ca_encryption options
        then console_log "IMPORTANT: Store your passphrase securely. It cannot be recovered."
        else ret tt
      else ret tt).

(* ===================================================================== *)
(** ** commands/auth.ts *)
(* ===================================================================== *)

Record SignOptions : Type := mkSignOptions {
  sign_did : string;
  sign_challenge : string;
  sign_audience : option string;
  sign_domain : option string;
  sign_expiresIn : string;
  sign_store : option string;
  sign_encryption : bool;
  sign_json : bool
}.

(** [.option('--expires-in <seconds>', ..., '120')]: the value of
    [options.expiresIn] when the command line gives the option or not. *)
Definition expiresIn_option (given : option string) : string :=
  match given with
  | Some n => n
  | None => "120"
  end.

Definition optional_field (k : string) (v : Val) : list (string * Val) :=
  match v with
  | VUndef => []
  | _ => [(k, v)]
  end.

(** Modelled from the spec: the payload of [signAuthChallenge], a function
    of the agent-did library whose code is not part of the plugin.  The
    spec: it builds the canonical payload
    [{nonce, aud?, domain?, iat=now, exp=iat+expiresIn, did}], with
    [expiresIn = 120] when the caller gives none. *)
Definition authPayload (now : Z) (did nonce : string) (opts : Val) : Val :=
  let expiresIn :=
    match field "expiresIn" opts with
    | VUndef => Int 120
    | VNum n => n
    | _ => NaN
    end in
  VObj ([("nonce", VStr nonce)]
        ++ optional_field "aud" (field "audience" opts)
        ++ optional_field "domain" (field "domain" opts)
        ++ [("iat", VNum (Int now));
            ("exp", VNum (num_add (Int now) expiresIn));
            ("did", VStr did)])%list.

(** Modelled from the spec: [signAuthChallenge] of the agent-did library.
    The spec: it builds the canonical payload, serializes it, signs it and
    returns the encoded payload with the signature; serializing and signing
    are the library's [encodeAndSign]. *)
Definition signAuthChallenge (did : string) (privateKey publicKey : Val)
    (challenge : string) (opts : Val) : M Val :=
  w <- get_world ;;
  call (CallSignAuthChallenge did privateKey publicKey challenge opts)
    (encodeAndSign lib (authPayload (now_seconds lib (ext w)) did challenge opts)
       privateKey publicKey).

Definition sign_opts (options : SignOptions) : Val :=
  VObj [("audience", opt_val (sign_audience options));
        ("domain", opt_val (sign_domain options));
        ("expiresIn", VNum (parseInt10 (sign_expiresIn options)))].

Definition signCommand (options : SignOptions) : M unit :=
  action (
    keystore <- getKeystore (sign_store options) (negb (sign_encryption options)) ;;
    call (CallInit keystore) (Keystore_init lib keystore) ;;;
    identity <- call (CallGetIdentity keystore (sign_did options))
                  (Keystore_getIdentity lib keystore (sign_did options)) ;;
    if negb (truthy identity) then
      throw_Error ("Identity not found: " ++ sign_did options)
    else
      keyPair <- call (CallGetKeyPair keystore (sign_did options))
                   (Keystore_getKeyPair lib keystore (sign_did options)) ;;
      if negb (truthy keyPair) then
        throw_Error ("Private key not found for: " ++ sign_did options)
      else
        result <- signAuthChallenge (sign_did options)
                    (field "privateKey" keyPair) (field "publicKey" keyPair)
                    (sign_challenge options) (sign_opts options) ;;
        if sign_json options then console_log (outputJson result)
        else
          console_log (nl ++ "✓ Challenge signed successfully") ;;;
          console_log (nl ++ "=== Signature Result ===" ++ nl) ;;;
          did <- prop "did" result ;;
          console_log ("DID:         " ++ js_String did) ;;;
          console_log ("Key ID:      " ++ js_String (field "kid" result)) ;;;
          console_log ("Algorithm:   " ++ js_String (field "alg" result)) ;;;
          console_log ("Created:     " ++ js_String (field "createdAt" result)) ;;;
          console_log ("Expires:     " ++ js_String (field "expiresAt" result)) ;;;
          console_log (nl ++ "=== Payload (base64url) ===") ;;;
          console_log (js_String (field "payloadEncoded" result)) ;;;
          console_log (nl ++ "=== Signature (base64url) ===") ;;;
          console_log (js_String (field "signature" result)) ;;;
          console_log (nl ++ "=== Full Response (for server) ===" ++ nl) ;;;
          console_log (outputJson result)).

Record AuthVerifyOptions : Type := mkAuthVerifyOptions {
  av_did : string;
  av_payload : string;
  av_signature : string;
  av_nonce : option string;
  av_audience : option string;
  av_domain : option string;
  av_json : bool
}.

Definition authVerify_opts (options : AuthVerifyOptions) : Val :=
  VObj [("expectedNonce", opt_val (av_nonce options));
        ("expectedAudience", opt_val (av_audience options));
        ("expectedDomain", opt_val (av_domain options))].

(** [verifyCommand] of auth.ts; index.ts imports it as
    [authVerifyCommand]. *)
Definition authVerifyCommand (options : AuthVerifyOptions) : M unit :=
  action (
    result <- call (CallVerifyAuthChallenge (av_did options) (av_payload options)
                      (av_signature options) (authVerify_opts options))
                (verifyAuthChallenge lib (av_did options) (av_payload options)
                   (av_signature options) (authVerify_opts options)) ;;
    if av_json options then
      console_log (outputJson result) ;;;
      valid <- prop "valid" result ;;
      if negb (truthy valid) then process_exit 1 else ret tt
    else
    valid <- prop "valid" result ;;
    if truthy valid then
      console_log (nl ++ "✓ Signature is valid") ;;;
      let payload := field "payload" result in
      if truthy payload then
        console_log (nl ++ "DID:      " ++ js_String (field "did" payload)) ;;;
        console_log ("Nonce:    " ++ js_String (field "nonce" payload)) ;;;
        (if truthy (field "aud" payload)
         then console_log ("Audience: " ++ js_String (field "aud" payload))
         else ret tt) ;;;
        (if truthy (field "domain" payload)
         then console_log ("Domain:   " ++ js_String (field "domain" payload))
         else ret tt) ;;;
        issued <- lift_res (seconds_toISOString lib (field "iat" payload)) ;;
        console_log ("Issued:   " ++ issued) ;;;
        expires <- lift_res (seconds_toISOString lib (field "exp" payload)) ;;
        console_log ("Expires:  " ++ expires)
      else ret tt
    else
      console_error (nl ++ "✗ Signature is invalid") ;;;
      (if truthy (field "reason" result)
       then console_error ("Reason: " ++ js_String (field "reason" result))
       else ret tt) ;;;
      process_exit 1).

(* ===================================================================== *)
(** ** commands/vc.ts *)
(* ===================================================================== *)

(** [v.join(sep)] *)
Definition join_method (sep : string) (v : Val) : M string :=
  match v with
  | VArr items => ret (array_join sep items)
  | VUndef => throw_Error "Cannot read properties of undefined (reading 'join')"
  | VNull => throw_Error "Cannot read properties of null (reading 'join')"
  | _ => throw_Error "vc.type.join is not a function"
  end.

Fixpoint indexed (i : nat) (l : list Val) : list (string * Val) :=
  match l with
  | [] => []
  | x :: r => (string_of_Z (Z.of_nat i), x) :: indexed (S i) r
  end.

Fixpoint chars (s : string) : list Val :=
  match s with
  | EmptyString => []
  | String c t => VStr (String c EmptyString) :: chars t
  end.

(** [Object.entries(v)] *)
Definition Object_entries (v : Val) : M (list (string * Val)) :=
  match v with
  | VUndef | VNull => throw_Error "Cannot convert undefined or null to object"
  | VObj fs => ret fs
  | VArr items => ret (indexed 0 items)
  | VStr s => ret (indexed 0 (chars s))
  | _ => ret []
  end.

Fixpoint for_each {A : Type} (f : A -> M unit) (l : list A) : M unit :=
  match l with
  | [] => ret tt
  | x :: r => f x ;;; for_each f r
  end.

Definition when (b : bool) (c : M unit) : M unit := if b then c else ret tt.

(** Modelled from the spec: [decodeCredential] of the agent-did library,
    whose code is not part of the plugin.  The spec:
    [decode(token) -> {header, payload} | absent], structural decode only,
    of a three-part token (header / claims payload / signature) whose
    parts are each base64url-encoded; [decodeSegment] decodes one part. *)
Definition decodeCredential (jwt : Val) : Val :=
  match jwt with
  | VStr token =>
      match split "." token with
      | [h; p; _] =>
          match decodeSegment lib h, decodeSegment lib p with
          | Some header, Some payload => VObj [("header", header); ("payload", payload)]
          | _, _ => VNull
          end
      | _ => VNull
      end
  | _ => VNull
  end.

Record IssueCapabilityOptions : Type := mkIssueCapabilityOptions {
  ic_issuer : string;
  ic_subject : string;
  ic_scopes : string;
  ic_audience : option string;
  ic_expires : option string;
  ic_out : option string;
  ic_store : option string;
  ic_encryption : bool;
  ic_json : bool
}.

(** [options.scopes.split(',').map((s) => s.trim())] *)
Definition parse_scopes (scopes : string) : list string := map trim (split "," scopes).

Definition capability_opts (options : IssueCapabilityOptions) : Val :=
  VObj [("audience", opt_val (ic_audience options));
        ("expires", opt_val (ic_expires options))].

Definition opt_truthy (o : option string) : option string :=
  match o with
  | Some s => if str_truthy s then Some s else None
  | None => None
  end.

(** Modelled from the spec: the check of the scopes in
    [createCapabilityCredential], a function of the agent-did library whose
    code is not part of the plugin.  The spec: [scopes] is required and
    must be non-empty after parsing; empty or malformed scope lists fail
    with [InvalidScopes].  A list is taken to be empty after parsing when
    it holds no scope but the empty string; what the library answers for
    any other list is the library's own.  The spec gives the failure its
    name only, and the name stands here for its message. *)
Definition InvalidScopes : Thrown := ThrownError "InvalidScopes".

Definition scopes_empty (scopes : list string) : bool :=
  forallb (fun scope => String.eqb scope "") scopes.

Definition createCapabilityCredential_checked (issuer subject : string)
    (scopes : list string) (opts : Val) (e : Ext) : Res Val * Ext :=
  if scopes_empty scopes then (Fail InvalidScopes, e)
  else createCapabilityCredential lib issuer subject scopes opts e.

Definition issueCapabilityCommand (options : IssueCapabilityOptions) : M unit :=
  action (
    keystore <- getKeystore (ic_store options) (negb (ic_encryption options)) ;;
    call (CallInit keystore) (Keystore_init lib keystore) ;;;
    issuerIdentity <- call (CallGetIdentity keystore (ic_issuer options))
                        (Keystore_getIdentity lib keystore (ic_issuer options)) ;;
    if negb (truthy issuerIdentity) then
      throw_Error ("Issuer identity not found: " ++ ic_issuer options)
    else if negb (is_string "owner" (field "type" issuerIdentity)) then
      throw_Error ("Issuer must be an owner: " ++ ic_issuer options)
    else
      let scopes := parse_scopes (ic_scopes options) in
      credential <- call (CallCreateCapabilityCredential (ic_issuer options)
                            (ic_subject options) scopes (capability_opts options))
                      (createCapabilityCredential_checked (ic_issuer options)
                         (ic_subject options) scopes (capability_opts options)) ;;
      keyPair <- call (CallGetKeyPair keystore (ic_issuer options))
                   (Keystore_getKeyPair lib keystore (ic_issuer options)) ;;
      if negb (truthy keyPair) then
        throw_Error ("Private key not found for: " ++ ic_issuer options)
      else
        jwt <- call (CallSignCredential credential (field "privateKey" keyPair)
                       (field "publicKey" keyPair))
                 (signCredential lib credential (field "privateKey" keyPair)
                    (field "publicKey" keyPair)) ;;
        match opt_truthy (ic_out options) with
        | Some out =>
            let outputPath := path_resolve lib out in
            fs_writeFileSync outputPath jwt ;;;
            if negb (ic_json options) then
              console_log ("✓ Capability credential issued and saved to: " ++ outputPath)
            else
              console_log (outputJson (VObj [("success", VBool true);
                                             ("file", VStr outputPath)]))
        | None =>
            if ic_json options then console_log (outputJson (VObj [("jwt", VStr jwt)]))
            else console_log jwt
        end).

Record VcVerifyOptions : Type := mkVcVerifyOptions {
  vv_file : string;
  vv_issuer : option string;
  vv_subject : option string;
  vv_json : bool
}.

Definition vcVerify_opts (options : VcVerifyOptions) : Val :=
  VObj [("allowedIssuers",
         match opt_truthy (vv_issuer options) with
         | Some i => VArr [VStr i]
         | None => VUndef
         end);
        ("expectedSubject", opt_val (vv_subject options))].

(** [verifyCommand] of vc.ts; index.ts imports it as [vcVerifyCommand]. *)
Definition vcVerifyCommand (options : VcVerifyOptions) : M unit :=
  action (
    let filePath := path_resolve lib (vv_file options) in
    found <- fs_existsSync filePath ;;
    if negb found then throw_Error ("File not found: " ++ filePath)
    else
      content <- fs_readFileSync filePath ;;
      let jwt := trim content in
      result <- call (CallVerifyCredential jwt (vcVerify_opts options))
                  (verifyCredential lib jwt (vcVerify_opts options)) ;;
      if vv_json options then console_log (outputJson result)
      else
      valid <- prop "valid" result ;;
      if truthy valid then
        console_log ("✓ Credential is valid" ++ nl) ;;;
        let payload := field "payload" result in
        if truthy payload then
          let iss := field "iss" payload in
          let sub := field "sub" payload in
          let iat := field "iat" payload in
          let exp := field "exp" payload in
          let vc := field "vc" payload in
          console_log "JWT Claims:" ;;;
          console_log ("  Issuer    : " ++ js_String iss) ;;;
          console_log ("  Subject   : " ++ js_String sub) ;;;
          issued <- lift_res (seconds_toISOString lib iat) ;;
          console_log ("  Issued At : " ++ issued) ;;;
          (if truthy exp then
             expires <- lift_res (seconds_toISOString lib exp) ;;
             console_log ("  Expires   : " ++ expires)
           else ret tt) ;;;
          console_log (nl ++ "Credential:") ;;;
          vc_type <- prop "type" vc ;;
          types <- join_method ", " vc_type ;;
          console_log ("  Type      : " ++ types) ;;;
          console_log ("  Valid From: " ++ js_String (field "validFrom" vc)) ;;;
          when (truthy (field "validUntil" vc))
            (console_log ("  Valid Until: " ++ js_String (field "validUntil" vc))) ;;;
          console_log (nl ++ "Credential Subject:") ;;;
          entries <- Object_entries (field "credentialSubject" vc) ;;
          for_each
            (fun kv =>
               when (negb (String.eqb (fst kv) "id"))
                 (console_log ("  " ++ padEnd 10 (fst kv) ++ ": " ++ JSON_stringify (snd kv))))
            entries
        else ret tt
      else
        console_error ("✗ Credential is invalid: "
                       ++ js_String (js_or (field "reason" result) (VStr "Unknown reason"))) ;;;
        process_exit 1).

(** Helper: extract JWT from stored credential data. *)
Definition extractJwt (data : Val) : Val :=
  if negb (truthy data) then VNull
  else match data with
       | VStr _ => data
       | VObj _ | VArr _ => js_or (field "credential" data) (js_or (field "jwt" data) VNull)
       | _ => VNull
       end.

Definition is_array (v : Val) : bool :=
  match v with VArr _ => true | _ => false end.

(** Helper: summarize credential from JWT.  The result object has the
    fields [issuer], [subject], [type], [issuedAt], [expiresAt]. *)
Definition summarizeCredential (jwt : Val) : M Val :=
  let decoded := decodeCredential jwt in
  let payload := match decoded with VUndef | VNull => VUndef | _ => field "payload" decoded end in
  if negb (truthy payload) then ret (VObj [])
  else
    let vc := field "vc" payload in
    let vc_type := match vc with VUndef | VNull => VUndef | _ => field "type" vc end in
    type <- (if is_array vc_type
             then (t <- join_method ", " vc_type ;; ret (VStr t))
             else ret VUndef) ;;
    issuedAt <- (if truthy (field "iat" payload)
                 then (d <- lift_res (seconds_toISOString lib (field "iat" payload)) ;;
                       ret (VStr d))
                 else ret VUndef) ;;
    expiresAt <- (if truthy (field "exp" payload)
                  then (d <- lift_res (seconds_toISOString lib (field "exp" payload)) ;;
                        ret (VStr d))
                  else ret VUndef) ;;
    ret (VObj [("issuer", field "iss" payload); ("subject", field "sub" payload);
               ("type", type); ("issuedAt", issuedAt); ("expiresAt", expiresAt)]).

Record VcListOptions : Type := mkVcListOptions {
  vl_store : option string;
  vl_encryption : bool;
  vl_json : bool
}.

Definition print_stored (item : Val) : M unit :=
  data <- prop "data" item ;;
  let jwt := extractJwt data in
  summary <- (if truthy jwt then summarizeCredential jwt else ret (VObj [])) ;;
  console_log ("ID: " ++ js_String (field "id" item)) ;;;
  when (truthy (field "issuer" summary))
    (console_log ("  Issuer:  " ++ js_String (field "issuer" summary))) ;;;
  when (truthy (field "subject" summary))
    (console_log ("  Subject: " ++ js_String (field "subject" summary))) ;;;
  when (truthy (field "type" summary))
    (console_log ("  Type:    " ++ js_String (field "type" summary))) ;;;
  when (truthy (field "issuedAt" summary))
    (console_log ("  Issued:  " ++ formatDate (js_String (field "issuedAt" summary)))) ;;;
  when (truthy (field "expiresAt" summary))
    (console_log ("  Expires: " ++ formatDate (js_String (field "expiresAt" summary)))) ;;;
  console_log "".

(** [listCommand] of vc.ts; index.ts imports it as [vcListCommand]. *)
Definition vcListCommand (options : VcListOptions) : M unit :=
  action (
    keystore <- getKeystore (vl_store options) (negb (vl_encryption options)) ;;
    exists_ <- call (CallExists keystore) (Keystore_exists lib keystore) ;;
    if negb exists_ then
      if vl_json options then console_log (outputJson (VArr []))
      else console_log "No credentials found. Keystore does not exist."
    else
      stored <- call (CallListCredentials keystore) (Keystore_listCredentials lib keystore) ;;
      match stored with
      | [] =>
          if vl_json options then console_log (outputJson (VArr []))
          else console_log "No credentials found."
      | _ =>
          if vl_json options then console_log (outputJson (VArr stored))
          else
            console_log (nl ++ "Found " ++ string_of_Z (Z.of_nat (List.length stored))
                         ++ " credential"
                         ++ (if Nat.eqb (List.length stored) 1 then "" else "s")
                         ++ ":" ++ nl) ;;;
            for_each print_stored stored
      end).

Record VcDeleteOptions : Type := mkVcDeleteOptions {
  vd_id : string;
  vd_store : option string;
  vd_encryption : bool;
  vd_yes : bool;
  vd_json : bool
}.

Definition confirmation_required : string := "Deletion requires --yes flag to confirm".

(** [deleteCommand] of vc.ts; index.ts imports it as [vcDeleteCommand]. *)
Definition vcDeleteCommand (options : VcDeleteOptions) : M unit :=
  action (
    if negb (vd_yes options) then throw_Error confirmation_required
    else
      keystore <- getKeystore (vd_store options) (negb (vd_encryption options)) ;;
      deleted <- call (CallDeleteCredential keystore (vd_id options))
                   (Keystore_deleteCredential lib keystore (vd_id options)) ;;
      if vd_json options then
        console_log (outputJson (VObj [("deleted", VBool deleted);
                                       ("id", VStr (vd_id options))]))
      else if deleted then console_log ("✓ Credential deleted: " ++ vd_id options)
      else
        console_error ("✗ Credential not found: " ++ vd_id options) ;;;
        process_exit 1).

Record VcInspectOptions : Type := mkVcInspectOptions {
  vi_file : string;
  vi_json : bool
}.

(** [inspectCommand] of vc.ts; index.ts imports it as [vcInspectCommand]. *)
Definition vcInspectCommand (options : VcInspectOptions) : M unit :=
  action (
    let filePath := path_resolve lib (vi_file options) in
    found <- fs_existsSync filePath ;;
    if negb found then throw_Error ("File not found: " ++ filePath)
    else
      fileContent <- fs_readFileSync filePath ;;
      jwt <- try_catch
               (parsed <- lift_res (JSON_parse lib fileContent) ;;
                credential <- prop "credential" parsed ;;
                ret (js_or credential (js_or (field "jwt" parsed) (VStr (trim fileContent)))))
               (fun _ => ret (VStr (trim fileContent))) ;;
      let decoded := decodeCredential jwt in
      if negb (truthy decoded) then throw_Error "Invalid JWT format"
      else if vi_json options then console_log (outputJson decoded)
      else
        console_log (nl ++ "=== Header ===" ++ nl) ;;;
        console_log (outputJson (js_or (field "header" decoded) (VObj []))) ;;;
        console_log (nl ++ "=== Payload ===" ++ nl) ;;;
        console_log (outputJson (js_or (field "payload" decoded) (VObj [])))).

End Plugin.

(* ===================================================================== *)
(** ** The remaining handlers *)
(* ===================================================================== *)

(** The three functions of the agent-did library that only the handlers
    below use.  Their calls are not among the [Call]s: a handler's use of
    them shows in what the library keeps and in how the handler ends. *)
Record MoreLibrary (Ext : Type) : Type := mkMoreLibrary {
  Keystore_listIdentities : Keystore -> Ext -> Res (list Val) * Ext;
  Keystore_deleteIdentity : Keystore -> string -> Ext -> Res unit * Ext;
  createOwnershipCredential : string -> string -> Val -> Ext -> Res Val * Ext
}.
Arguments mkMoreLibrary {Ext}.
Arguments Keystore_listIdentities {Ext}.
Arguments Keystore_deleteIdentity {Ext}.
Arguments createOwnershipCredential {Ext}.

(** [s.slice(0, e)]: a negative [e] counts from the end. *)
Definition slice0 (s : string) (e : Z) : string :=
  let len := Z.of_nat (String.length s) in
  let stop := if (e <? 0)%Z then Z.max (len + e) 0 else Z.min e len in
  substring 0 (Z.to_nat stop) s.

(** output-formatter.ts: format a DID for display (truncate if too long). *)
Definition formatDid (did : string) (maxLength : Z) : string :=
  if (Z.of_nat (String.length did) <=? maxLength)%Z then did
  else slice0 did (maxLength - 3) ++ "...".

(** The default of [formatDid]'s second parameter. *)
Definition formatDid_maxLength : Z := 60.

Definition upper_char (c : ascii) : ascii :=
  let n := nat_of_ascii c in
  if (Nat.leb 97 n) && (Nat.leb n 122) then ascii_of_nat (n - 32) else c.

(** [s.toUpperCase()], on the ASCII range. *)
Fixpoint toUpperCase (s : string) : string :=
  match s with
  | EmptyString => EmptyString
  | String c t => String (upper_char c) (toUpperCase t)
  end.

(** [s.repeat(n)] *)
Fixpoint repeat_string (s : string) (n : nat) : string :=
  match n with
  | O => EmptyString
  | S k => s ++ repeat_string s k
  end.

(** The lines of [outputTable], before they are joined. *)
Definition table_lines (data : list (string * Val)) : list string :=
  let maxKeyLength := fold_right Nat.max 0 (map (fun kv => String.length (fst kv)) data) in
  map (fun kv => padEnd maxKeyLength (fst kv) ++ " : " ++ js_String (snd kv)) data.

Section MoreHandlers.

Context {Ext : Type}.
Variable lib : Library Ext.
Variable more : MoreLibrary Ext.

Local Abbreviation World := (World Ext).
Local Abbreviation M := (M Ext).

Local Notation "x <- c ;; k" := (bind c (fun x => k))
  (at level 61, c at next level, right associativity).
Local Notation "c ;;; k" := (bind c (fun _ => k))
  (at level 61, right associativity).

(** A call of one of the functions of [MoreLibrary]. *)
Definition invoke {A : Type} (f : Ext -> Res A * Ext) : M A :=
  fun w =>
    let update e :=
      mkWorld (env_AGENT_DID_PASSPHRASE w) (env_AGENT_DID_HOME w) (files w)
        (mgr_instance w) (mgr_currentPath w) (mgr_currentEncryption w)
        (next_id w) e (calls w) (console w) in
    match f (ext w) with
    | (Ok a, e) => (Return a, update e)
    | (Fail err, e) => (Throw err, update e)
    end.

(** A field that the library's types declare a string, used as one
    ([.length], [.split], [.toUpperCase]).  Undefined and null throw at
    the read, a number, a boolean or a plain object at the call of the
    method they lack.  An array has [length] and [slice] of its own and
    is taken not to occur where a string is declared. *)
Definition as_string (read method : string) (v : Val) : M string :=
  match v with
  | VStr s => ret s
  | VUndef => throw_Error ("Cannot read properties of undefined (reading '" ++ read ++ "')")
  | VNull => throw_Error ("Cannot read properties of null (reading '" ++ read ++ "')")
  | _ => throw_Error (method ++ " is not a function")
  end.

(** *** commands/create.ts: create owner *)

Record CreateOwnerOptions : Type := mkCreateOwnerOptions {
  co_name : string;
  co_store : option string;
  co_encryption : bool;
  co_json : bool
}.

Definition createOwnerCommand (options : CreateOwnerOptions) : M unit :=
  action (
    keystore <- getNewKeystore lib (co_store options) (negb (co_encryption options)) ;;
    call (CallInit keystore) (Keystore_init lib keystore) ;;;
    keyPair <- call CallGenerateKeyPair (generateKeyPair lib) ;;
    publicKey <- prop "publicKey" keyPair ;;
    did <- call (CallPublicKeyToDidKey publicKey) (publicKeyToDidKey lib publicKey) ;;
    w <- get_world ;;
    let createdAt := now_toISOString lib (ext w) in
    let metadata :=
      VObj [("did", VStr did); ("type", VStr "owner"); ("name", VStr (co_name options));
            ("createdAt", VStr createdAt)] in
    call (CallStoreIdentity keystore metadata keyPair)
      (Keystore_storeIdentity lib keystore metadata keyPair) ;;;
    let output :=
      VObj [("did", VStr did); ("kid", VStr (kid_of did)); ("name", VStr (co_name options));
            ("type", VStr "owner"); ("createdAt", VStr createdAt)] in
    console_log (formatOutput output (co_json options)) ;;;
    if negb (co_json options) then
      console_log (nl ++ "✓ Owner identity created successfully") ;;;
      if co_encryption options
      then console_log "IMPORTANT: Store your passphrase securely. It cannot be recovered."
      else ret tt
    else ret tt).

(** *** commands/identity.ts *)

Record IdentityListOptions : Type := mkIdentityListOptions {
  il_store : option string;
  il_encryption : bool;
  il_json : bool
}.

Definition print_identity (identity : Val) : M unit :=
  identity_type <- prop "type" identity ;;
  type <- as_string "toUpperCase" "identity.type.toUpperCase" identity_type ;;
  console_log (padEnd 7 (toUpperCase type) ++ " " ++ js_String (field "name" identity)) ;;;
  did <- as_string "length" "did.slice" (field "did" identity) ;;
  console_log ("         DID: " ++ formatDid did formatDid_maxLength) ;;;
  console_log ("         Created: " ++ formatDate_value lib (field "createdAt" identity)) ;;;
  (if truthy (field "ownerDid" identity) then
     ownerDid <- as_string "length" "did.slice" (field "ownerDid" identity) ;;
     console_log ("         Owner: " ++ formatDid ownerDid formatDid_maxLength)
   else ret tt) ;;;
  console_log "".

(** [listCommand] of identity.ts; index.ts imports it as
    [identityListCommand]. *)
Definition identityListCommand (options : IdentityListOptions) : M unit :=
  action (
    keystore <- getKeystore lib (il_store options) (negb (il_encryption options)) ;;
    call (CallInit keystore) (Keystore_init lib keystore) ;;;
    identities <- invoke (Keystore_listIdentities more keystore) ;;
    if il_json options then console_log (outputJson (VArr identities))
    else
      match identities with
      | [] => console_log "No identities found."
      | _ =>
          console_log (nl ++ "Found " ++ string_of_Z (Z.of_nat (List.length identities))
                       ++ " identit"
                       ++ (if Nat.eqb (List.length identities) 1 then "y" else "ies")
                       ++ ":" ++ nl) ;;;
          for_each print_identity identities
      end).

Record IdentityInspectOptions : Type := mkIdentityInspectOptions {
  ii_did : string;
  ii_store : option string;
  ii_encryption : bool;
  ii_json : bool
}.

Definition identity_not_found (did : string) : string := "Identity not found: " ++ did.

Definition rule : string := repeat_string "─" 60.

(** [inspectCommand] of identity.ts; index.ts imports it as
    [identityInspectCommand]. *)
Definition identityInspectCommand (options : IdentityInspectOptions) : M unit :=
  action (
    keystore <- getKeystore lib (ii_store options) (negb (ii_encryption options)) ;;
    call (CallInit keystore) (Keystore_init lib keystore) ;;;
    identity <- call (CallGetIdentity keystore (ii_did options))
                  (Keystore_getIdentity lib keystore (ii_did options)) ;;
    if negb (truthy identity) then throw_Error (identity_not_found (ii_did options))
    else
      did <- as_string "split" "identity.did.split" (field "did" identity) ;;
      let output :=
        VObj ([("did", VStr did); ("kid", VStr (kid_of did));
               ("name", field "name" identity); ("type", field "type" identity);
               ("createdAt", field "createdAt" identity)]
              ++ (if truthy (field "ownerDid" identity)
                  then [("ownerDid", field "ownerDid" identity)]
                  else []))%list in
      if ii_json options then console_log (outputJson output)
      else
        console_log (nl ++ "Identity Details:") ;;;
        console_log rule ;;;
        console_log ("Name       : " ++ js_String (field "name" output)) ;;;
        console_log ("Type       : " ++ js_String (field "type" output)) ;;;
        console_log ("DID        : " ++ js_String (field "did" output)) ;;;
        console_log ("Key ID     : " ++ js_String (field "kid" output)) ;;;
        console_log ("Created    : " ++ formatDate_value lib (field "createdAt" output)) ;;;
        (if truthy (field "ownerDid" output)
         then console_log ("Owner DID  : " ++ js_String (field "ownerDid" output))
         else ret tt) ;;;
        console_log (rule ++ nl)).

Record IdentityDeleteOptions : Type := mkIdentityDeleteOptions {
  id_did : string;
  id_store : option string;
  id_encryption : bool;
  id_json : bool
}.

(** [deleteCommand] of identity.ts; index.ts imports it as
    [identityDeleteCommand]. *)
Definition identityDeleteCommand (options : IdentityDeleteOptions) : M unit :=
  action (
    keystore <- getKeystore lib (id_store options) (negb (id_encryption options)) ;;
    call (CallInit keystore) (Keystore_init lib keystore) ;;;
    identity <- call (CallGetIdentity keystore (id_did options))
                  (Keystore_getIdentity lib keystore (id_did options)) ;;
    if negb (truthy identity) then throw_Error (identity_not_found (id_did options))
    else
      invoke (Keystore_deleteIdentity more keystore (id_did options)) ;;;
      if id_json options then
        console_log (outputJson (VObj [("success", VBool true);
                                       ("did", VStr (id_did options))]))
      else
        console_log ("✓ Identity deleted: " ++ js_String (field "name" identity)
                     ++ " (" ++ formatDid (id_did options) formatDid_maxLength ++ ")")).

(** *** commands/vc.ts: issue ownership *)

Record IssueOwnershipOptions : Type := mkIssueOwnershipOptions {
  io_issuer : string;
  io_subject : string;
  io_out : option string;
  io_store : option string;
  io_encryption : bool;
  io_json : bool
}.

(** [v?.k] *)
Definition optional_chain (k : string) (v : Val) : Val :=
  match v with
  | VUndef | VNull => VUndef
  | _ => field k v
  end.

Definition issueOwnershipCommand (options : IssueOwnershipOptions) : M unit :=
  action (
    keystore <- getKeystore lib (io_store options) (negb (io_encryption options)) ;;
    call (CallInit keystore) (Keystore_init lib keystore) ;;;
    issuerIdentity <- call (CallGetIdentity keystore (io_issuer options))
                        (Keystore_getIdentity lib keystore (io_issuer options)) ;;
    if negb (truthy issuerIdentity) then
      throw_Error ("Issuer identity not found: " ++ io_issuer options)
    else if negb (is_string "owner" (field "type" issuerIdentity)) then
      throw_Error ("Issuer must be an owner: " ++ io_issuer options)
    else
      subjectIdentity <- call (CallGetIdentity keystore (io_subject options))
                           (Keystore_getIdentity lib keystore (io_subject options)) ;;
      let hints :=
        VObj [("name", optional_chain "name" subjectIdentity);
              ("createdAt", optional_chain "createdAt" subjectIdentity)] in
      credential <- invoke (createOwnershipCredential more (io_issuer options)
                              (io_subject options) hints) ;;
      keyPair <- call (CallGetKeyPair keystore (io_issuer options))
                   (Keystore_getKeyPair lib keystore (io_issuer options)) ;;
      if negb (truthy keyPair) then
        throw_Error ("Private key not found for: " ++ io_issuer options)
      else
        jwt <- call (CallSignCredential credential (field "privateKey" keyPair)
                       (field "publicKey" keyPair))
                 (signCredential lib credential (field "privateKey" keyPair)
                    (field "publicKey" keyPair)) ;;
        match opt_truthy (io_out options) with
        | Some out =>
            let outputPath := path_resolve lib out in
            fs_writeFileSync lib outputPath jwt ;;;
            if negb (io_json options) then
              console_log ("✓ Ownership credential issued and saved to: " ++ outputPath)
            else
              console_log (outputJson (VObj [("success", VBool true);
                                             ("file", VStr outputPath)]))
        | None =>
            if io_json options then console_log (outputJson (VObj [("jwt", VStr jwt)]))
            else console_log jwt
        end).

End MoreHandlers.

(* ===================================================================== *)
(** ** Vocabulary of the properties *)
(* ===================================================================== *)

(** Object identities are handed out in order, so the identity of a
    keystore that exists is below the next one. *)
Definition fresh_ids {Ext : Type} (w : World Ext) : Prop :=
  forall k, mgr_instance w = Some k -> ks_id k < next_id w.

(** The world after printing some lines. *)
Definition add_lines {Ext : Type} (ls : list Line) (w : World Ext) : World Ext :=
  fold_left (fun acc l => add_line l acc) ls w.

(** Whether the character occurs in the string, and how often. *)
Fixpoint has_char (c : ascii) (s : string) : bool :=
  match s with
  | EmptyString => false
  | String x t => Ascii.eqb x c || has_char c t
  end.

Fixpoint count_char (c : ascii) (s : string) : nat :=
  match s with
  | EmptyString => 0
  | String x t => (if Ascii.eqb x c then 1 else 0) + count_char c t
  end.

(** Handler code that takes every world to one related to it by [R], and
    that leaves the process, if at all, with code 1. *)
Definition ends_well {Ext A : Type} (R : World Ext -> World Ext -> Prop) (c : M Ext A)
  : Prop :=
  forall w o w', c w = (o, w') ->
    R w w' /\ match o with Exit n => n = 1%Z | _ => True end.

(** A relation between the world before and the world after that the
    steps of a handler keep: printing a line, a library call that is
    [allowed], a call of [MoreLibrary], a new object identity, an update
    of the keystore cache. *)
Record closed {Ext : Type} (R : World Ext -> World Ext -> Prop) (allowed : Call -> Prop)
  : Prop := mkClosed {
  cl_refl : forall w, R w w;
  cl_trans : forall a b c, R a b -> R b c -> R a c;
  cl_line : forall l w, R w (add_line l w);
  cl_call : forall c e w, allowed c -> R w (record_call c e w);
  cl_ext : forall e w,
    R w (mkWorld (env_AGENT_DID_PASSPHRASE w) (env_AGENT_DID_HOME w) (files w)
           (mgr_instance w) (mgr_currentPath w) (mgr_currentEncryption w)
           (next_id w) e (calls w) (console w));
  cl_new : forall w,
    R w (mkWorld (env_AGENT_DID_PASSPHRASE w) (env_AGENT_DID_HOME w) (files w)
           (mgr_instance w) (mgr_currentPath w) (mgr_currentEncryption w)
           (S (next_id w)) (ext w) (calls w) (console w));
  cl_cache : forall k p e w,
    R w (mkWorld (env_AGENT_DID_PASSPHRASE w) (env_AGENT_DID_HOME w) (files w)
           (Some k) (Some p) (Some e)
           (next_id w) (ext w) (calls w) (console w))
}.

(** The same, for writing a file. *)
Definition write_ok {Ext : Type} (R : World Ext -> World Ext -> Prop) : Prop :=
  forall p content w,
    R w (mkWorld (env_AGENT_DID_PASSPHRASE w) (env_AGENT_DID_HOME w) ((p, content) :: files w)
           (mgr_instance w) (mgr_currentPath w) (mgr_currentEncryption w)
           (next_id w) (ext w) (calls w) (console w)).

(** A handler ends by returning (exit code 0) or by [process.exit(1)]. *)
Definition exit_0_or_1 {Ext : Type} (r : Outcome unit * World Ext) : Prop :=
  fst r = Return tt \/ fst r = Exit 1%Z.

(** The library calls made since are all of the kind [P]. *)
Definition calls_among {Ext : Type} (P : Call -> Prop) (w w' : World Ext) : Prop :=
  exists new, calls w' = (calls w ++ new)%list /\ Forall P new.

(** The calls that change what a keystore holds, and the two
    verification functions. *)
Definition changes_keystore (c : Call) : bool :=
  match c with
  | CallStoreIdentity _ _ _ | CallDeleteCredential _ _ => true
  | _ => false
  end.

Definition is_verification (c : Call) : bool :=
  match c with
  | CallVerifyCredential _ _ | CallVerifyAuthChallenge _ _ _ _ => true
  | _ => false
  end.

(** The library calls of [create owner] for the name given: its keystore is
    constructed with validation, and an identity it stores is an owner of
    that name, with no owner of its own. *)
Definition owner_calls (name : string) (c : Call) : Prop :=
  match c with
  | CallNewKeystore _ _ skip => skip = false
  | CallInit _ | CallGenerateKeyPair | CallPublicKeyToDidKey _ => True
  | CallStoreIdentity _ metadata _ =>
      field "type" metadata = VStr "owner" /\ field "name" metadata = VStr name
      /\ field "ownerDid" metadata = VUndef
  | _ => False
  end.

(** The library calls of [create agent] for the name and the owner given:
    the only identity it looks up is the owner, and an identity it stores
    is an agent of that name and that owner. *)
Definition agent_calls (name owner : string) (c : Call) : Prop :=
  match c with
  | CallNewKeystore _ _ skip => skip = false
  | CallInit _ | CallGenerateKeyPair | CallPublicKeyToDidKey _ => True
  | CallGetIdentity _ did => did = owner
  | CallStoreIdentity _ metadata _ =>
      field "type" metadata = VStr "agent" /\ field "name" metadata = VStr name
      /\ field "ownerDid" metadata = VStr owner
  | _ => False
  end.

(** What [vc list] prints for a stored record that holds no token. *)
Definition stored_lines (item : Val) : list Line :=
  [Out ("ID: " ++ js_String (field "id" item)); Out ""].

(** An identity record as the library's types declare it: its type, its
    name and its DID are strings, and so is its owner DID when it has one.
    The type and the DIDs are ASCII texts, on which [toUpperCase], [padEnd]
    and the lengths of [formatDid] are those of JavaScript. *)
Definition is_str (v : Val) : bool :=
  match v with VStr _ => true | _ => false end.

Definition is_ascii_str (v : Val) : bool :=
  match v with VStr s => ascii_only s | _ => false end.

Definition well_formed_identity (who : Val) : bool :=
  is_ascii_str (field "type" who) && is_str (field "name" who)
  && is_ascii_str (field "did" who)
  && (negb (truthy (field "ownerDid" who)) || is_ascii_str (field "ownerDid" who)).

(** What [identity list] prints for such a record. *)
Definition identity_lines {Ext : Type} (lib : Library Ext) (who : Val) : list Line :=
  ([Out (padEnd 7 (toUpperCase (js_String (field "type" who)))
         ++ " " ++ js_String (field "name" who));
    Out ("         DID: " ++ formatDid (js_String (field "did" who)) 60);
    Out ("         Created: " ++ formatDate_value lib (field "createdAt" who))]
   ++ (if truthy (field "ownerDid" who)
       then [Out ("         Owner: " ++ formatDid (js_String (field "ownerDid" who)) 60)]
       else [])
   ++ [Out ""])%list.

(** Two worlds that differ at most in what was printed. *)
Definition same_but_console {Ext : Type} (a b : World Ext) : Prop :=
  env_AGENT_DID_PASSPHRASE a = env_AGENT_DID_PASSPHRASE b
  /\ env_AGENT_DID_HOME a = env_AGENT_DID_HOME b
  /\ files a = files b
  /\ mgr_instance a = mgr_instance b
  /\ mgr_currentPath a = mgr_currentPath b
  /\ mgr_currentEncryption a = mgr_currentEncryption b
  /\ next_id a = next_id b
  /\ ext a = ext b
  /\ calls a = calls b.

(* ===================================================================== *)
(** ** A small library instance, to run the handlers on *)
(* ===================================================================== *)

(** The keystore of the instance: the stored identities by DID. *)
Definition DemoExt : Type := list (string * Val).

Definition demo_keys : Val :=
  VObj [("publicKey", VStr "z6MkDemo"); ("privateKey", VStr "secret")].

Definition demo_getIdentity (did : string) (e : DemoExt) : Val :=
  match assoc did e with
  | Some v => v
  | None => VNull
  end.

(** A verifier that accepts the one token [good]. *)
Definition demo_verify (token : string) : Val :=
  if String.eqb token "good"
  then VObj [("valid", VBool true)]
  else VObj [("valid", VBool false); ("reason", VStr "InvalidSignature")].

Definition demo_lib : Library DemoExt :=
  mkLibrary
    (fun _ _ _ e => (Ok tt, e))
    (fun _ e => (Ok tt, e))
    (fun _ e => (Ok (match e with [] => false | _ => true end), e))
    (fun _ did e => (Ok (demo_getIdentity did e), e))
    (fun _ did e =>
       (Ok (match assoc did e with Some _ => demo_keys | None => VNull end), e))
    (fun _ metadata _ e => (Ok tt, (js_String (field "did" metadata), metadata) :: e))
    (fun _ e => (Ok [], e))
    (fun _ _ e => (Ok false, e))
    (fun e => (Ok demo_keys, e))
    (fun publicKey e => (Ok ("did:key:" ++ js_String publicKey), e))
    (fun issuer subject scopes _ e =>
       if scopes_empty scopes then (Fail InvalidScopes, e)
       else (Ok (VObj [("issuer", VStr issuer); ("subject", VStr subject);
                       ("scopes", VArr (map VStr scopes))]), e))
    (fun credential _ _ e => (Ok ("header." ++ JSON_stringify credential ++ ".sig"), e))
    (fun jwt _ e => (Ok (demo_verify jwt), e))
    (fun _ payload _ _ e => (Ok (demo_verify payload), e))
    (fun payload _ _ e =>
       (Ok (VObj [("payloadEncoded", VStr (JSON_stringify payload));
                  ("signature", VStr "sig")]), e))
    (fun segment => Some (VStr segment))
    (fun p => p)
    (fun a b => a ++ "/" ++ b)
    "/home/user"
    (fun _ => Fail (ThrownError "Unexpected token"))
    (fun _ => 1000%Z)
    (fun _ => "2026-01-01T00:00:00.000Z")
    (fun v => Ok (js_String v))
    (fun s => s)
    (fun _ => "Invalid Date")
    (fun _ _ => None).

(** The rest of the instance: listing gives the stored identities, and
    deleting removes the first record under the DID. *)
Fixpoint demo_remove (did : string) (e : DemoExt) : DemoExt :=
  match e with
  | [] => []
  | (k, v) :: r => if String.eqb did k then r else (k, v) :: demo_remove did r
  end.

Definition demo_more : MoreLibrary DemoExt :=
  mkMoreLibrary
    (fun _ e => (Ok (map snd e), e))
    (fun _ did e => (Ok tt, demo_remove did e))
    (fun issuer subject hints e =>
       (Ok (VObj [("issuer", VStr issuer); ("subject", VStr subject); ("hints", hints)]), e)).

Definition demo_owner : Val :=
  VObj [("did", VStr "did:key:alice"); ("type", VStr "owner"); ("name", VStr "Alice")].

Definition demo_agent : Val :=
  VObj [("did", VStr "did:key:bot"); ("type", VStr "agent"); ("name", VStr "Bot");
        ("ownerDid", VStr "did:key:alice")].

(** A process that has just started: nothing cached, nothing printed. *)
Definition demo_world (passphrase : option string) (files : list (string * string))
    (store : DemoExt) : World DemoExt :=
  mkWorld passphrase None files None None None 0 store [] [].

Definition demo_store : DemoExt :=
  [("did:key:alice", demo_owner); ("did:key:bot", demo_agent)].

(** Opening the keystore at [/s] with the empty passphrase, and with
    [--no-encryption]. *)
Definition demo_by_env : Outcome Keystore * World DemoExt :=
  getKeystore demo_lib (Some "/s") false (demo_world (Some "") [] demo_store).

Definition demo_by_flag : Outcome Keystore * World DemoExt :=
  getKeystore demo_lib (Some "/s") true (demo_world (Some "") [] demo_store).

(** With no passphrase set: a call with [--no-encryption], then a call for
    the same path without it. *)
Definition demo_first : Outcome Keystore * World DemoExt :=
  getKeystore demo_lib (Some "/s") true (demo_world None [] demo_store).

Definition demo_second : Outcome Keystore * World DemoExt :=
  getKeystore demo_lib (Some "/s") false (snd demo_first).

(** With a passphrase set: the same call twice, then another path. *)
Definition demo_open : Outcome Keystore * World DemoExt :=
  getKeystore demo_lib (Some "/s") false (demo_world (Some "correct horse") [] demo_store).

Definition demo_reopen : Outcome Keystore * World DemoExt :=
  getKeystore demo_lib (Some "/s") false (snd demo_open).

Definition demo_open_other : Outcome Keystore * World DemoExt :=
  getKeystore demo_lib (Some "/t") false (snd demo_reopen).

(** On a machine with no keystore and no passphrase set:
    [vc list --json]. *)
Definition demo_list_unconfigured : Outcome unit * World DemoExt :=
  vcListCommand demo_lib (mkVcListOptions None true true) (demo_world None [] []).

(** With no passphrase set: [create agent] naming an owner DID the store
    does not know, and one that belongs to an agent. *)
Definition demo_create_unconfigured (owner : string) : Outcome unit * World DemoExt :=
  createAgentCommand demo_lib (mkCreateAgentOptions "Helper" owner None true false)
    (demo_world None [] demo_store).

Definition passphrase_report : string :=
  "❌ Error: Passphrase required. Set AGENT_DID_PASSPHRASE environment variable or use --no-encryption flag."
  ++ nl ++ "   Code: MISSING_PASSPHRASE".

(** [vc issue capability] by the owner, for the agent, with a blank
    [--scopes] argument: with [--no-encryption], and on a machine with no
    passphrase set and an empty [--scopes]. *)
Definition demo_blank_scopes : Outcome unit * World DemoExt :=
  issueCapabilityCommand demo_lib
    (mkIssueCapabilityOptions "did:key:alice" "did:key:bot" "  ,  " None None None None
       false false)
    (demo_world None [] demo_store).

Definition demo_blank_scopes_unconfigured : Outcome unit * World DemoExt :=
  issueCapabilityCommand demo_lib
    (mkIssueCapabilityOptions "did:key:alice" "did:key:bot" "" None None None None true false)
    (demo_world None [] demo_store).

(** [auth sign --json] for the agent, with [--expires-in] or without. *)
Definition demo_sign_options (given : option string) : SignOptions :=
  mkSignOptions "did:key:bot" "abc123" (Some "https://api.example.com") None
    (expiresIn_option given) None false true.

(** A process started with [--no-encryption], on the store of the two
    identities and on an empty one. *)
Definition demo_plain : World DemoExt := demo_world None [] demo_store.

Definition demo_empty : World DemoExt := demo_world None [] [].

(** The keystore that the handlers open on the small instance, and the
    world after it was opened. *)
Definition demo_keystore : Keystore := mkKeystore 0 "/home/user/.agent-did" None true.

Definition demo_opened : World DemoExt := snd (getKeystore demo_lib None true demo_plain).

(** The same for the [create] commands, which construct their keystore
    with validation. *)
Definition demo_created : Keystore := mkKeystore 0 "/home/user/.agent-did" None false.

(** The token that the instance signs for the capability [read]. *)
Definition demo_jwt : string :=
  "header."
  ++ JSON_stringify
       (VObj [("issuer", VStr "did:key:alice"); ("subject", VStr "did:key:bot");
              ("scopes", VArr [VStr "read"])])
  ++ ".sig".

(** A store of identities that carry their creation time. *)
Definition demo_dated_owner : Val :=
  VObj [("did", VStr "did:key:alice"); ("type", VStr "owner"); ("name", VStr "Alice");
        ("createdAt", VStr "2026-01-01T00:00:00.000Z")].

Definition demo_dated_agent : Val :=
  VObj [("did", VStr "did:key:bot"); ("type", VStr "agent"); ("name", VStr "Bot");
        ("createdAt", VStr "2026-02-01T00:00:00.000Z"); ("ownerDid", VStr "did:key:alice")].

Definition demo_dated_store : DemoExt :=
  [("did:key:alice", demo_dated_owner); ("did:key:bot", demo_dated_agent)].

Definition demo_dated : World DemoExt := demo_world None [] demo_dated_store.

(** The instance, with a keystore that holds the credentials given. *)
Definition demo_lib_stored (credentials : list Val) : Library DemoExt :=
  mkLibrary
    (Keystore_new demo_lib) (Keystore_init demo_lib) (Keystore_exists demo_lib)
    (Keystore_getIdentity demo_lib) (Keystore_getKeyPair demo_lib)
    (Keystore_storeIdentity demo_lib)
    (fun _ e => (Ok credentials, e))
    (Keystore_deleteCredential demo_lib)
    (generateKeyPair demo_lib) (publicKeyToDidKey demo_lib)
    (createCapabilityCredential demo_lib) (signCredential demo_lib)
    (verifyCredential demo_lib) (verifyAuthChallenge demo_lib) (encodeAndSign demo_lib)
    (decodeSegment demo_lib) (path_resolve demo_lib) (path_join demo_lib)
    (os_homedir demo_lib) (JSON_parse demo_lib) (now_seconds demo_lib)
    (now_toISOString demo_lib) (seconds_toISOString demo_lib) (toLocaleString demo_lib)
    (value_toLocaleString demo_lib) (writeFile_error demo_lib).

(** Two stored records without a token. *)
Definition demo_records : list Val :=
  [VObj [("id", VStr "cred-1"); ("data", VNull)];
   VObj [("id", VStr "cred-2"); ("data", VObj [("note", VStr "pending")])]].

(** A new keystore object for [/s], asked for while [/s] is cached; and
    [getKeystore] for [/s] after the cache was cleared. *)
Definition demo_new : Outcome Keystore * World DemoExt :=
  getNewKeystore demo_lib (Some "/s") false (snd demo_open).

Definition demo_cleared : Outcome Keystore * World DemoExt :=
  getKeystore demo_lib (Some "/s") false (snd (clearCache (snd demo_open))).

(** [vc issue capability --out /c.jwt] by the owner, and
    [vc verify --file /c.jwt --json] after it. *)
Definition demo_issue_options : IssueCapabilityOptions :=
  mkIssueCapabilityOptions "did:key:alice" "did:key:bot" "read" None None (Some "/c.jwt")
    None false false.

Definition demo_issued : Outcome unit * World DemoExt :=
  issueCapabilityCommand demo_lib demo_issue_options demo_plain.

Definition demo_verified : Outcome unit * World DemoExt :=
  vcVerifyCommand demo_lib (mkVcVerifyOptions "/c.jwt" None None true) (snd demo_issued).

(* ===================================================================== *)
(** ** Properties *)
(* ===================================================================== *)

Example outputJson_empty_array : outputJson (VArr []) = "[]".
Proof. reflexivity. Qed.

Example parseInt10_examples :
  parseInt10 "120" = Int 120 /\ parseInt10 "  -42abc" = Int (-42) /\ parseInt10 "abc" = NaN.
Proof. repeat split; reflexivity. Qed.

Example normalize_missing_passphrase :
  normalizeError (ThrownError missing_passphrase)
  = mkAgentDidError
      "Passphrase required. Set AGENT_DID_PASSPHRASE environment variable or use --no-encryption flag."
      (Some "MISSING_PASSPHRASE") None.
Proof. reflexivity. Qed.

(** One step of a run: use what is known about a call, then compute on. *)
Ltac step H := rewrite H; cbv beta iota zeta delta [negb].

(** Unfold the plumbing of the handler monad, not the handlers' helpers. *)
Ltac run :=
  cbv beta iota zeta delta
    [bind ret throw throw_Error try_catch action report_and_exit console_log
     console_error process_exit call lift_res get_world fs_existsSync
     fs_readFileSync fs_writeFileSync when].

(** The lines a computed world adds on top of the world it started from. *)
Ltac lines_of t :=
  lazymatch t with
  | add_line ?l ?t' => let r := lines_of t' in constr:((r ++ [l])%list)
  | _ => constr:(@nil Line)
  end.

(** Compute on after a case distinction. *)
Ltac norm := cbv beta iota zeta delta [negb]; cbn [ext record_call].

(** Close a goal about the library calls a computed run has added: the
    run's record is the initial one, as [Hc] extends it, plus the calls
    recorded since, none of which is a signing call with other options. *)
Ltac calls_done w Hc :=
  eexists; split;
  [cbn [snd calls add_line record_call]; rewrite Hc;
   repeat rewrite <- app_assoc; cbn [app];
   first [reflexivity | rewrite <- (app_nil_r (calls w)) at 1; reflexivity]
  |cbn; intros d p q ch o H; repeat destruct H as [H|H];
   try discriminate H; try contradiction;
   injection H; intros; subst; reflexivity].

Ltac frame :=
  lazymatch goal with
  | |- exists o ls, (?o1, ?W) = _ /\ _ =>
      let ls := lines_of W in exists o1, ls; split; reflexivity
  end.

Section Properties.

Context {Ext : Type}.
Variable lib : Library Ext.

Local Abbreviation World := (World Ext).

(** *** Reading a property *)

Lemma prop_readable (k : string) (v : Val) (w : World) :
  readable v = true -> prop k v w = (Return (field k v), w).
Proof. destruct v; intros H; try discriminate H; reflexivity. Qed.

Lemma prop_unreadable (k : string) (v : Val) (w : World) :
  readable v = false -> exists msg, prop k v w = (Throw (ThrownError msg), w).
Proof. destruct v; intros H; try discriminate H; eexists; reflexivity. Qed.

Lemma truthy_readable (v : Val) : truthy v = true -> readable v = true.
Proof. destruct v; intros H; try discriminate H; reflexivity. Qed.

Lemma field_unreadable (k : string) (v : Val) : readable v = false -> field k v = VUndef.
Proof. destruct v; intros H; try discriminate H; reflexivity. Qed.

(** *** The passphrase *)

Lemma getPassphrase_noEncryption (w : World) :
  getPassphrase true w = (Return None, w).
Proof. reflexivity. Qed.

Lemma getPassphrase_unset (w : World) :
  env_AGENT_DID_PASSPHRASE w = None ->
  getPassphrase false w = (Throw (ThrownError missing_passphrase), w).
Proof.
  intros Henv. unfold getPassphrase, bind, get_world. simpl.
  rewrite Henv. reflexivity.
Qed.

Lemma getPassphrase_empty (w : World) :
  env_AGENT_DID_PASSPHRASE w = Some "" ->
  getPassphrase false w = (Return None, w).
Proof.
  intros Henv. unfold getPassphrase, bind, get_world. simpl.
  rewrite Henv. reflexivity.
Qed.

(** [getPassphrase] only reads the world. *)
Lemma getPassphrase_pure (noEncryption : bool) (w : World) o w' :
  getPassphrase noEncryption w = (o, w') -> w' = w.
Proof.
  destruct noEncryption; unfold getPassphrase, bind, get_world; simpl.
  - intros H. inversion H. reflexivity.
  - destruct (env_AGENT_DID_PASSPHRASE w) as [p|].
    + destruct (String.eqb p ""); intros H; inversion H; reflexivity.
    + intros H. inversion H. reflexivity.
Qed.

Lemma getKeystore_hit (w : World) customPath noEncryption k :
  cached w (getStorePath lib w customPath) noEncryption = Some k ->
  getKeystore lib customPath noEncryption w = (Return k, w).
Proof.
  intros Hc. cbv beta iota zeta delta [getKeystore bind get_world].
  rewrite Hc. reflexivity.
Qed.

(** On a miss [getKeystore] asks for the passphrase first. *)
Lemma getKeystore_miss_throw (w : World) customPath noEncryption e :
  cached w (getStorePath lib w customPath) noEncryption = None ->
  getPassphrase noEncryption w = (Throw e, w) ->
  getKeystore lib customPath noEncryption w = (Throw e, w).
Proof.
  intros Hc Hp. cbv beta iota zeta delta [getKeystore bind get_world].
  rewrite Hc, Hp. reflexivity.
Qed.

(** C1. When encryption is not disabled and AGENT_DID_PASSPHRASE is unset,
    [getPassphrase] throws the missing-passphrase error and never returns
    a null passphrase; so does [getNewKeystore], and so does [getKeystore]
    whenever it has to open a keystore, that is, unless the call is
    answered from the cache with the keystore opened earlier.  None of the
    three constructs a keystore: the world, with its record of library
    calls, its object counter and its cache, is left as it was.  The error
    is reported with the code MISSING_PASSPHRASE. *)
Theorem missing_passphrase_is_fatal (w : World) (customPath : option string) :
  env_AGENT_DID_PASSPHRASE w = None ->
  getPassphrase false w = (Throw (ThrownError missing_passphrase), w)
  /\ getNewKeystore lib customPath false w = (Throw (ThrownError missing_passphrase), w)
  /\ getKeystore lib customPath false w
     = match cached w (getStorePath lib w customPath) false with
       | Some k => (Return k, w)
       | None => (Throw (ThrownError missing_passphrase), w)
       end
  /\ code (normalizeError (ThrownError missing_passphrase)) = Some "MISSING_PASSPHRASE".
Proof.
  intros Henv.
  pose proof (getPassphrase_unset w Henv) as Hp.
  split; [exact Hp|].
  split.
  { cbv beta iota zeta delta [getNewKeystore bind get_world]. rewrite Hp. reflexivity. }
  split; [|reflexivity].
  destruct (cached w (getStorePath lib w customPath) false) as [k0|] eqn:Hc.
  - apply getKeystore_hit. exact Hc.
  - apply getKeystore_miss_throw; assumption.
Qed.

(** *** vc delete *)

(** C9. Without [--yes] the handler of [vc delete] throws the confirmation
    error as its first step: the process exits with code 1 after printing
    that error, and the world is otherwise untouched: the keystore cache
    and the object counter are as before (no keystore was obtained or
    constructed), and the library was not called at all, so no credential
    was deleted. *)
Theorem vcDelete_without_yes (options : VcDeleteOptions) (w : World) :
  vd_yes options = false ->
  vcDeleteCommand lib options w
  = (Exit 1, add_line (Err "❌ Error: Deletion requires --yes flag to confirm") w)
  /\ same_but_console w (snd (vcDeleteCommand lib options w)).
Proof.
  intros Hyes.
  assert (Hrun : vcDeleteCommand lib options w
                 = (Exit 1, add_line (Err "❌ Error: Deletion requires --yes flag to confirm") w)).
  { unfold vcDeleteCommand, action, try_catch. rewrite Hyes. reflexivity. }
  split; [exact Hrun|].
  rewrite Hrun. unfold same_but_console. simpl. auto 10.
Qed.

(** *** vc list *)

(** C10, as the code has it.  [vc list] asks its keystore handle whether
    the keystore exists, so it needs the handle first.  When [getKeystore]
    has returned the handle and the keystore does not exist there, the
    handler prints the empty list (the JSON text of the empty array under
    [--json], else a sentence saying so) and returns: the exit code is 0,
    and nothing is listed or read.  When [getKeystore] throws, the handler
    prints that error and the exit code is 1, before any existence test. *)
Theorem vcList_keystore_missing (options : VcListOptions) (w : World) :
  (forall (w1 : World) (keystore : Keystore) (e2 : Ext),
     getKeystore lib (vl_store options) (negb (vl_encryption options)) w
       = (Return keystore, w1) ->
     Keystore_exists lib keystore (ext w1) = (Ok false, e2) ->
     vcListCommand lib options w
     = (Return tt,
        add_line (Out (if vl_json options then "[]"
                       else "No credentials found. Keystore does not exist."))
          (record_call (CallExists keystore) e2 w1))
     /\ exit_code (fst (vcListCommand lib options w)) = 0%Z)
  /\ (forall (w1 : World) (err : Thrown),
        getKeystore lib (vl_store options) (negb (vl_encryption options)) w
          = (Throw err, w1) ->
        vcListCommand lib options w
        = (Exit 1, add_line (Err (formatError (normalizeError err))) w1)).
Proof.
  split.
  - intros w1 keystore e2 Hks Hex.
    assert (Hrun : vcListCommand lib options w
      = (Return tt,
         add_line (Out (if vl_json options then "[]"
                        else "No credentials found. Keystore does not exist."))
           (record_call (CallExists keystore) e2 w1))).
    { cbv beta iota zeta delta [vcListCommand action try_catch bind].
      rewrite Hks. cbv beta iota zeta delta [call]. rewrite Hex.
      destruct (vl_json options); reflexivity. }
    split; [exact Hrun|]. rewrite Hrun. reflexivity.
  - intros w1 err Hks.
    cbv beta iota zeta delta [vcListCommand action try_catch bind].
    rewrite Hks. reflexivity.
Qed.

(** *** create agent *)

Lemma getNewKeystore_returns (w w1 : World) customPath noEncryption keystore :
  getNewKeystore lib customPath noEncryption w = (Return keystore, w1) ->
  exists passphrase,
    keystore = mkKeystore (next_id w) (getStorePath lib w customPath) passphrase false
    /\ calls w1 = (calls w
                   ++ [CallNewKeystore (getStorePath lib w customPath) passphrase false])%list.
Proof.
  cbv beta iota zeta delta [getNewKeystore bind get_world].
  destruct (getPassphrase noEncryption w) as [[pass|e|n] w0] eqn:Hp;
    try (intros H; discriminate H).
  pose proof (getPassphrase_pure _ _ _ _ Hp) as ->.
  assert (Hwarn : exists ls, warn_unencrypted noEncryption pass w
                             = (Return tt, add_lines ls w)).
  { destruct noEncryption, pass; try (exists []; reflexivity).
    eexists [_; _]. reflexivity. }
  destruct Hwarn as [ls Hwarn]. rewrite Hwarn.
  assert (Hl : forall l (v : World), ext (add_lines l v) = ext v
                 /\ calls (add_lines l v) = calls v
                 /\ next_id (add_lines l v) = next_id v).
  { induction l as [|x l IH]; intros v; simpl; [auto|].
    destruct (IH (add_line x v)) as (-> & -> & ->). auto. }
  destruct (Hl ls w) as (Hext & Hcalls & Hid).
  cbv beta iota zeta delta [new_Keystore bind call].
  rewrite Hext.
  destruct (Keystore_new lib (getStorePath lib w customPath) pass false (ext w))
    as [[[]|err] e1]; intros H; [|discriminate H].
  injection H as Hk Hw. exists pass. subst keystore w1. simpl.
  rewrite Hcalls, Hid. auto.
Qed.

(** C2, as the code has it.  The owner is looked up in the keystore the
    handler has opened and initialised, so opening comes first.  Once
    [create agent] has its keystore open, the owner lookup decides: when
    the [--owner] DID resolves to no identity the handler
    throws the owner-not-found error, and when it resolves to an identity
    whose type is not [owner] it throws the not-an-owner error.  In both
    cases the error is printed, the process exits with code 1, and the
    calls made into the library are the constructor, [init] and
    [getIdentity] only: [storeIdentity] is not called and what the
    library keeps is as the lookup left it.  When the keystore cannot be
    opened, the handler prints that error and exits with code 1 at once,
    having stored nothing either. *)
Theorem createAgent_owner_checked (options : CreateAgentOptions) (w : World) :
  (forall (w1 : World) (keystore : Keystore) (e2 e3 : Ext) (ownerIdentity : Val),
     getNewKeystore lib (ca_store options) (negb (ca_encryption options)) w
       = (Return keystore, w1) ->
     Keystore_init lib keystore (ext w1) = (Ok tt, e2) ->
     Keystore_getIdentity lib keystore (ca_owner options) e2 = (Ok ownerIdentity, e3) ->
     truthy ownerIdentity = false \/ is_string "owner" (field "type" ownerIdentity) = false ->
     let error :=
       ThrownError (if truthy ownerIdentity
                    then owner_type_mismatch (ca_owner options)
                    else owner_not_found (ca_owner options)) in
     let w' := snd (createAgentCommand lib options w) in
     createAgentCommand lib options w
     = (Exit 1,
        add_line (Err (formatError (normalizeError error)))
          (record_call (CallGetIdentity keystore (ca_owner options)) e3
             (record_call (CallInit keystore) e2 w1)))
     /\ (exists passphrase,
           calls w' = (calls w
                       ++ [CallNewKeystore (ks_path keystore) passphrase false;
                           CallInit keystore;
                           CallGetIdentity keystore (ca_owner options)])%list)
     /\ ext w' = e3)
  /\ (forall (w1 : World) (err : Thrown),
        getNewKeystore lib (ca_store options) (negb (ca_encryption options)) w
          = (Throw err, w1) ->
        createAgentCommand lib options w
        = (Exit 1, add_line (Err (formatError (normalizeError err))) w1)).
Proof.
  split.
  - intros w1 keystore e2 e3 ownerIdentity Hks Hinit Hget Hbad error w'.
    assert (Hrun : createAgentCommand lib options w
      = (Exit 1,
         add_line (Err (formatError (normalizeError error)))
           (record_call (CallGetIdentity keystore (ca_owner options)) e3
              (record_call (CallInit keystore) e2 w1)))).
    { subst error.
      cbv beta iota zeta delta [createAgentCommand action try_catch bind].
      rewrite Hks. cbv beta iota zeta delta [call]. rewrite Hinit.
      cbv beta iota zeta. cbn [ext record_call].
      rewrite Hget. cbv beta iota zeta.
      destruct (truthy ownerIdentity) eqn:Ht; simpl.
      - destruct Hbad as [Hbad|Hbad]; [discriminate Hbad|].
        rewrite Hbad. reflexivity.
      - reflexivity. }
    split; [exact Hrun|].
    subst w'. rewrite Hrun. simpl.
    destruct (getNewKeystore_returns _ _ _ _ _ Hks) as (pass & Hk & Hcalls).
    split; [|reflexivity].
    exists pass. rewrite Hcalls, Hk. simpl. repeat rewrite <- app_assoc. reflexivity.
  - intros w1 err Hks.
    cbv beta iota zeta delta [createAgentCommand action try_catch bind].
    rewrite Hks. reflexivity.
Qed.

(** *** vc verify and auth verify *)

(** C6, where the code departs from it. [vc verify --json] on a readable
    file whose credential the library judges invalid prints the result and
    returns: the exit code is 0, not 1. *)
Theorem vcVerify_json_invalid_exits_0 (options : VcVerifyOptions) (w : World)
    (content : string) (result : Val) (e1 : Ext) :
  vv_json options = true ->
  assoc (path_resolve lib (vv_file options)) (files w) = Some content ->
  verifyCredential lib (trim content) (vcVerify_opts options) (ext w) = (Ok result, e1) ->
  truthy (field "valid" result) = false ->
  vcVerifyCommand lib options w
  = (Return tt,
     add_line (Out (outputJson result))
       (record_call (CallVerifyCredential (trim content) (vcVerify_opts options)) e1 w))
  /\ exit_code (fst (vcVerifyCommand lib options w)) = 0%Z.
Proof.
  intros Hjson Hfile Hver Hinvalid.
  assert (Hrun : vcVerifyCommand lib options w
    = (Return tt,
       add_line (Out (outputJson result))
         (record_call (CallVerifyCredential (trim content) (vcVerify_opts options)) e1 w))).
  { cbv beta iota zeta delta
      [vcVerifyCommand action try_catch bind fs_existsSync fs_readFileSync call].
    step Hfile. step Hfile. step Hver. rewrite Hjson. reflexivity. }
  split; [exact Hrun|]. rewrite Hrun. reflexivity.
Qed.

(** The sibling paths do exit with code 1 on an invalid outcome:
    [vc verify] without [--json] ... *)
Lemma vcVerify_plain_invalid_exits_1 (options : VcVerifyOptions) (w : World)
    (content : string) (result : Val) (e1 : Ext) :
  vv_json options = false ->
  assoc (path_resolve lib (vv_file options)) (files w) = Some content ->
  verifyCredential lib (trim content) (vcVerify_opts options) (ext w) = (Ok result, e1) ->
  truthy (field "valid" result) = false ->
  fst (vcVerifyCommand lib options w) = Exit 1
  /\ (readable result = true ->
      vcVerifyCommand lib options w
      = (Exit 1,
         add_line (Err ("✗ Credential is invalid: "
                        ++ js_String (js_or (field "reason" result) (VStr "Unknown reason"))))
           (record_call (CallVerifyCredential (trim content) (vcVerify_opts options)) e1 w))).
Proof.
  intros Hjson Hfile Hver Hinvalid.
  cbv beta iota zeta delta
    [vcVerifyCommand action try_catch bind fs_existsSync fs_readFileSync call].
  step Hfile. step Hfile. step Hver. rewrite Hjson. cbv beta iota.
  destruct (readable result) eqn:Hr.
  - rewrite (prop_readable _ _ _ Hr). cbv beta iota. rewrite Hinvalid.
    split; [reflexivity|intros _; reflexivity].
  - destruct (prop_unreadable "valid" result
                (record_call (CallVerifyCredential (trim content) (vcVerify_opts options)) e1 w)
                Hr) as [msg ->].
    split; [reflexivity|intros H; discriminate H].
Qed.

(** ... and [auth verify], with [--json] and without. *)
Lemma authVerify_invalid_exits_1 (options : AuthVerifyOptions) (w : World)
    (result : Val) (e1 : Ext) :
  verifyAuthChallenge lib (av_did options) (av_payload options) (av_signature options)
    (authVerify_opts options) (ext w) = (Ok result, e1) ->
  truthy (field "valid" result) = false ->
  fst (authVerifyCommand lib options w) = Exit 1.
Proof.
  intros Hver Hinvalid.
  cbv beta iota zeta delta
    [authVerifyCommand action try_catch bind call console_log console_error].
  rewrite Hver. cbv beta iota.
  destruct (readable result) eqn:Hr.
  - destruct (av_json options); cbv beta iota;
      rewrite (prop_readable _ _ _ Hr); cbv beta iota; rewrite Hinvalid; simpl.
    + reflexivity.
    + destruct (truthy (field "reason" result)); reflexivity.
  - destruct (av_json options); cbv beta iota;
      match goal with
      | |- context [prop "valid" result ?v] =>
          destruct (prop_unreadable "valid" result v Hr) as [msg ->]
      end; reflexivity.
Qed.

(** A valid outcome under [--json] returns, in both commands. *)
Lemma authVerify_json_valid_exits_0 (options : AuthVerifyOptions) (w : World)
    (result : Val) (e1 : Ext) :
  av_json options = true ->
  verifyAuthChallenge lib (av_did options) (av_payload options) (av_signature options)
    (authVerify_opts options) (ext w) = (Ok result, e1) ->
  truthy (field "valid" result) = true ->
  fst (authVerifyCommand lib options w) = Return tt.
Proof.
  intros Hjson Hver Hvalid.
  assert (Hr : readable result = true).
  { destruct result; try discriminate Hvalid; reflexivity. }
  cbv beta iota zeta delta [authVerifyCommand action try_catch bind call console_log].
  rewrite Hver, Hjson. cbv beta iota. rewrite (prop_readable _ _ _ Hr).
  cbv beta iota. rewrite Hvalid. reflexivity.
Qed.

(** *** The cache of [getKeystore] *)

Lemma cached_Some (w : World) (p : string) (noEncryption : bool) (k : Keystore) :
  cached w p noEncryption = Some k <->
  mgr_instance w = Some k /\ mgr_currentPath w = Some p
  /\ mgr_currentEncryption w = Some (negb noEncryption).
Proof.
  unfold cached. split.
  - destruct (mgr_instance w) as [inst|]; [|discriminate].
    destruct (mgr_currentPath w) as [p0|]; [|discriminate].
    destruct (mgr_currentEncryption w) as [e0|]; [|discriminate].
    destruct (String.eqb p0 p) eqn:Hp; [|discriminate].
    destruct (Bool.eqb e0 (negb noEncryption)) eqn:He; [|discriminate].
    simpl. intros H. injection H as ->.
    apply String.eqb_eq in Hp. apply Bool.eqb_prop in He. subst. auto.
  - intros (-> & -> & ->).
    rewrite String.eqb_refl, Bool.eqb_reflx. reflexivity.
Qed.

(** What a miss does, outcome by outcome. *)
Lemma getKeystore_miss (w : World) customPath noEncryption o w1 :
  cached w (getStorePath lib w customPath) noEncryption = None ->
  getKeystore lib customPath noEncryption w = (o, w1) ->
  match o with
  | Return k =>
      k = mkKeystore (next_id w) (getStorePath lib w customPath) (ks_passphrase k) true
      /\ getPassphrase noEncryption w = (Return (ks_passphrase k), w)
      /\ next_id w1 = S (next_id w)
      /\ mgr_instance w1 = Some k
      /\ mgr_currentPath w1 = Some (getStorePath lib w customPath)
      /\ mgr_currentEncryption w1 = Some (negb noEncryption)
  | Throw _ =>
      mgr_instance w1 = mgr_instance w
      /\ mgr_currentPath w1 = mgr_currentPath w
      /\ mgr_currentEncryption w1 = mgr_currentEncryption w
      /\ next_id w1 = next_id w
  | Exit _ => False
  end.
Proof.
  intros Hc.
  cbv beta iota zeta delta [getKeystore bind get_world]. rewrite Hc.
  destruct (getPassphrase noEncryption w) as [[pass|err|n] w0] eqn:Hp;
    pose proof (getPassphrase_pure _ _ _ _ Hp) as ->.
  - cbv beta iota zeta delta [new_Keystore bind call].
    destruct noEncryption, pass as [pass|]; simpl;
      destruct (Keystore_new lib (getStorePath lib w customPath) _ true (ext w))
        as [[[]|err] e1];
      intros H; injection H as <- <-; simpl; auto 10.
  - intros H; injection H as <- <-. auto.
  - exfalso. destruct noEncryption; cbv beta iota zeta delta [getPassphrase bind get_world] in Hp.
    + discriminate Hp.
    + destruct (env_AGENT_DID_PASSPHRASE w) as [p0|]; [destruct (String.eqb p0 "")|];
        discriminate Hp.
Qed.

(** When the passphrase resolves and the constructor accepts, a miss does
    return the keystore it constructs. *)
Lemma getKeystore_miss_returns (w : World) customPath noEncryption pass e :
  cached w (getStorePath lib w customPath) noEncryption = None ->
  getPassphrase noEncryption w = (Return pass, w) ->
  Keystore_new lib (getStorePath lib w customPath) pass true (ext w) = (Ok tt, e) ->
  fst (getKeystore lib customPath noEncryption w)
  = Return (mkKeystore (next_id w) (getStorePath lib w customPath) pass true).
Proof.
  intros Hc Hp Hnew.
  cbv beta iota zeta delta [getKeystore bind get_world]. rewrite Hc, Hp.
  cbv beta iota zeta delta [new_Keystore bind call].
  destruct noEncryption, pass as [pass|]; simpl; rewrite Hnew; reflexivity.
Qed.

(** [getKeystore] keeps identities in order. *)
Lemma getKeystore_fresh_ids (w w1 : World) customPath noEncryption o :
  fresh_ids w ->
  getKeystore lib customPath noEncryption w = (o, w1) ->
  fresh_ids w1.
Proof.
  intros Hfresh Hrun.
  destruct (cached w (getStorePath lib w customPath) noEncryption) as [k0|] eqn:Hc.
  - rewrite (getKeystore_hit _ _ _ _ Hc) in Hrun. injection Hrun as _ <-. exact Hfresh.
  - pose proof (getKeystore_miss _ _ _ _ _ Hc Hrun) as Hm.
    destruct o as [k|err|n]; [| |contradiction].
    + destruct Hm as (Hk & _ & Hid & Hinst & _).
      intros k' Hk'. rewrite Hinst in Hk'. injection Hk' as <-.
      rewrite Hid, Hk. simpl. lia.
    + destruct Hm as (Hinst & _ & _ & Hid).
      intros k' Hk'. rewrite Hid. apply Hfresh. rewrite <- Hinst. exact Hk'.
Qed.

(** So does [getNewKeystore], which leaves the cache alone, and so does
    [clearCache]; a process starts with an empty cache. *)
Lemma getNewKeystore_fresh_ids (w w1 : World) customPath noEncryption o :
  fresh_ids w ->
  getNewKeystore lib customPath noEncryption w = (o, w1) ->
  fresh_ids w1.
Proof.
  intros Hfresh.
  cbv beta iota zeta delta [getNewKeystore bind get_world].
  destruct (getPassphrase noEncryption w) as [[pass|err|n] w0] eqn:Hp;
    pose proof (getPassphrase_pure _ _ _ _ Hp) as ->;
    try (intros H; injection H as _ <-; exact Hfresh).
  cbv beta iota zeta delta [new_Keystore bind call].
  destruct noEncryption, pass as [pass|]; simpl;
    destruct (Keystore_new lib (getStorePath lib w customPath) _ false (ext w))
      as [[[]|err] e1];
    intros H; injection H as _ <-; intros k Hk; simpl in *;
    try (apply Hfresh in Hk; lia); apply Hfresh; exact Hk.
Qed.

Lemma clearCache_fresh_ids (w : World) : fresh_ids (snd (clearCache w)).
Proof. intros k Hk. discriminate Hk. Qed.

(** C5, as the code has it.  [getKeystore] has one cache slot, keyed by
    the resolved path and by the encryption mode [!noEncryption].  A call
    that matches the key returns the cached instance and changes nothing;
    hence, once a call has returned an instance, the next call with the
    same resolved path and mode returns that very instance.  A call that
    does not match the key never returns the cached instance: it either
    throws (the passphrase is missing, or the constructor refuses) and
    then leaves the cache as it was, or it returns a keystore constructed
    by this call, under a new identity, and the cache then holds that
    keystore under the new key.  It does construct whenever the
    passphrase resolves and the constructor accepts; with encryption
    requested and no passphrase set it throws. *)
Theorem getKeystore_cache (w : World) (customPath : option string) (noEncryption : bool) :
  let path := getStorePath lib w customPath in
  (forall k, cached w path noEncryption = Some k ->
     getKeystore lib customPath noEncryption w = (Return k, w))
  /\ (forall k w1, getKeystore lib customPath noEncryption w = (Return k, w1) ->
       forall customPath', getStorePath lib w1 customPath' = path ->
         getKeystore lib customPath' noEncryption w1 = (Return k, w1))
  /\ (cached w path noEncryption = None ->
      forall o w1, getKeystore lib customPath noEncryption w = (o, w1) ->
        match o with
        | Return k =>
            ks_id k = next_id w /\ ks_path k = path
            /\ (fresh_ids w -> mgr_instance w <> Some k)
            /\ mgr_instance w1 = Some k
            /\ mgr_currentPath w1 = Some path
            /\ mgr_currentEncryption w1 = Some (negb noEncryption)
        | Throw _ =>
            mgr_instance w1 = mgr_instance w
            /\ mgr_currentPath w1 = mgr_currentPath w
            /\ mgr_currentEncryption w1 = mgr_currentEncryption w
        | Exit _ => False
        end)
  /\ (cached w path noEncryption = None ->
      forall pass e,
        getPassphrase noEncryption w = (Return pass, w) ->
        Keystore_new lib path pass true (ext w) = (Ok tt, e) ->
        fst (getKeystore lib customPath noEncryption w)
        = Return (mkKeystore (next_id w) path pass true))
  /\ (cached w path noEncryption = None ->
      noEncryption = false -> env_AGENT_DID_PASSPHRASE w = None ->
      getKeystore lib customPath noEncryption w
      = (Throw (ThrownError missing_passphrase), w)).
Proof.
  intros path. subst path.
  split; [intros k Hc; apply getKeystore_hit; exact Hc|].
  split.
  { intros k w1 Hrun customPath' Hpath.
    apply getKeystore_hit. rewrite Hpath. apply cached_Some.
    destruct (cached w (getStorePath lib w customPath) noEncryption) as [k0|] eqn:Hc.
    - rewrite (getKeystore_hit _ _ _ _ Hc) in Hrun. injection Hrun as <- <-.
      apply cached_Some. exact Hc.
    - pose proof (getKeystore_miss _ _ _ _ _ Hc Hrun) as Hm. simpl in Hm.
      destruct Hm as (_ & _ & _ & H1 & H2 & H3). auto. }
  split.
  { intros Hc o w1 Hrun.
    pose proof (getKeystore_miss _ _ _ _ _ Hc Hrun) as Hm.
    destruct o as [k|err|n]; [| |exact Hm].
    - destruct Hm as (Hk & _ & Hid & H1 & H2 & H3).
      repeat split; try assumption.
      + rewrite Hk. reflexivity.
      + rewrite Hk. reflexivity.
      + intros Hfresh Hstale. apply Hfresh in Hstale.
        rewrite Hk in Hstale. simpl in Hstale. lia.
    - destruct Hm as (H1 & H2 & H3 & _). auto. }
  split.
  { intros Hc pass e Hp Hnew. apply (getKeystore_miss_returns _ _ _ _ _ Hc Hp Hnew). }
  intros Hc -> Henv. apply getKeystore_miss_throw; [exact Hc|].
  apply getPassphrase_unset. exact Henv.
Qed.

(** *** The empty passphrase *)

(** C3, as the code has it.  With AGENT_DID_PASSPHRASE set to the empty
    string and no [--no-encryption], the passphrase is null exactly as
    under [--no-encryption]; so [getNewKeystore], and [getKeystore] when
    neither configuration is served from the cache, end the same way in
    both configurations: the same error, or the same keystore object for
    the same path with a null passphrase, after the same library calls.
    The cache entry differs: it records the mode [!noEncryption], which is
    [true] for the empty passphrase and [false] for the flag. *)
Theorem empty_passphrase_same_keystore (w : World) (customPath : option string) :
  env_AGENT_DID_PASSPHRASE w = Some "" ->
  let path := getStorePath lib w customPath in
  let n1 := getNewKeystore lib customPath false w in
  let n2 := getNewKeystore lib customPath true w in
  let r1 := getKeystore lib customPath false w in
  let r2 := getKeystore lib customPath true w in
  getPassphrase false w = (Return None, w)
  /\ getPassphrase true w = (Return None, w)
  /\ fst n1 = fst n2
  /\ same_but_console (snd n1) (snd n2)
  /\ (cached w path false = None -> cached w path true = None ->
      fst r1 = fst r2
      /\ (forall k, fst r1 = Return k ->
            k = mkKeystore (next_id w) path None true
            /\ mgr_currentEncryption (snd r1) = Some true
            /\ mgr_currentEncryption (snd r2) = Some false)
      /\ mgr_instance (snd r1) = mgr_instance (snd r2)
      /\ mgr_currentPath (snd r1) = mgr_currentPath (snd r2)
      /\ next_id (snd r1) = next_id (snd r2)
      /\ ext (snd r1) = ext (snd r2)
      /\ calls (snd r1) = calls (snd r2)).
Proof.
  intros Henv path n1 n2 r1 r2.
  pose proof (getPassphrase_empty w Henv) as Hp.
  split; [exact Hp|]. split; [reflexivity|].
  assert (Hn : fst n1 = fst n2 /\ same_but_console (snd n1) (snd n2)).
  { subst n1 n2. cbv beta iota zeta delta [getNewKeystore bind get_world].
    rewrite Hp, getPassphrase_noEncryption.
    cbv beta iota zeta delta [new_Keystore bind call]. simpl.
    destruct (Keystore_new lib (getStorePath lib w customPath) None false (ext w))
      as [[[]|err] e1]; simpl; unfold same_but_console; simpl; auto 12. }
  destruct Hn as [Hn1 Hn2]. split; [exact Hn1|]. split; [exact Hn2|].
  intros Hc1 Hc2. subst r1 r2 path.
  cbv beta iota zeta delta [getKeystore bind get_world].
  rewrite Hc1, Hc2, Hp, getPassphrase_noEncryption.
  cbv beta iota zeta delta [new_Keystore bind call]. simpl.
  destruct (Keystore_new lib (getStorePath lib w customPath) None true (ext w))
    as [[[]|err] e1]; simpl.
  - split; [reflexivity|]. split; [|repeat split; reflexivity].
    intros k Hk. injection Hk as <-. auto.
  - split; [reflexivity|]. split; [|repeat split; reflexivity].
    intros k Hk. discriminate Hk.
Qed.

(** *** vc issue capability *)

Lemma split_nonempty (sep : ascii) (s : string) : split sep s <> [].
Proof.
  destruct s as [|c t]; simpl; [discriminate|].
  destruct (Ascii.eqb c sep); [discriminate|].
  destruct (split sep t); discriminate.
Qed.

Lemma parse_scopes_nonempty (scopes : string) : parse_scopes scopes <> [].
Proof.
  unfold parse_scopes. intros H. apply map_eq_nil in H.
  exact (split_nonempty _ _ H).
Qed.

(** The library calls [getKeystore] makes: none, or the constructor. *)
Lemma getKeystore_calls (w w1 : World) customPath noEncryption o :
  getKeystore lib customPath noEncryption w = (o, w1) ->
  calls w1 = calls w
  \/ exists passphrase,
       calls w1 = (calls w
                   ++ [CallNewKeystore (getStorePath lib w customPath) passphrase true])%list.
Proof.
  cbv beta iota zeta delta [getKeystore bind get_world].
  destruct (cached w (getStorePath lib w customPath) noEncryption) as [k0|].
  - intros H. injection H as _ <-. left. reflexivity.
  - destruct (getPassphrase noEncryption w) as [[pass|err|n] w0] eqn:Hp;
      pose proof (getPassphrase_pure _ _ _ _ Hp) as ->;
      try (intros H; injection H as _ <-; left; reflexivity).
    cbv beta iota zeta delta [new_Keystore bind call].
    destruct noEncryption, pass as [pass|]; simpl;
      destruct (Keystore_new lib (getStorePath lib w customPath) _ true (ext w))
        as [[[]|err] e1];
      intros H; injection H as _ <-; right; eexists; reflexivity.
Qed.

Lemma getKeystore_never_exits (w w1 : World) customPath noEncryption (n : Z) :
  getKeystore lib customPath noEncryption w <> (Exit n, w1).
Proof.
  intros Hrun.
  destruct (cached w (getStorePath lib w customPath) noEncryption) as [k0|] eqn:Hc.
  - rewrite (getKeystore_hit _ _ _ _ Hc) in Hrun. discriminate Hrun.
  - exact (getKeystore_miss _ _ _ _ _ Hc Hrun).
Qed.

Lemma getKeystore_files (w w1 : World) customPath noEncryption o :
  getKeystore lib customPath noEncryption w = (o, w1) -> files w1 = files w.
Proof.
  cbv beta iota zeta delta [getKeystore bind get_world].
  destruct (cached w (getStorePath lib w customPath) noEncryption) as [k0|].
  - intros H. injection H as _ <-. reflexivity.
  - destruct (getPassphrase noEncryption w) as [[pass|err|n] w0] eqn:Hp;
      pose proof (getPassphrase_pure _ _ _ _ Hp) as ->;
      try (intros H; injection H as _ <-; reflexivity).
    cbv beta iota zeta delta [new_Keystore bind call].
    destruct noEncryption, pass as [pass|]; simpl;
      destruct (Keystore_new lib (getStorePath lib w customPath) _ true (ext w))
        as [[[]|err] e1];
      intros H; injection H as _ <-; reflexivity.
Qed.

(** Close a goal about a run that ends with code 1 before anything is
    signed or written. *)
Ltac unsigned w Hc Hf :=
  split; [reflexivity|]; split;
  [eexists; split;
   [cbn [snd calls add_line record_call]; rewrite Hc;
    repeat rewrite <- app_assoc; cbn [app];
    first [reflexivity | rewrite <- (app_nil_r (calls w)) at 1; reflexivity]
   |cbn; intros c p q H; repeat destruct H as [H|H]; try discriminate H; exact H]
  |cbn [snd files add_line record_call]; exact Hf].

(** C4, as the code has it.  The handler of [vc issue capability] splits
    [--scopes] at the commas and trims the pieces, dropping none, so the
    list it obtains is never the empty list: an empty or blank argument
    gives a list of empty scopes.  The handler does not inspect the list;
    it hands it to [createCapabilityCredential], and it is there that a
    list which is empty after parsing is refused with [InvalidScopes].
    So for every invocation whose [--scopes] holds no scope but empty
    ones: the process exits with code 1, [signCredential] is never called
    and no file is written, whatever else happens; and once the keystore
    is open and the issuer has resolved to an owner, the error that is
    printed is [InvalidScopes].  The keystore and the issuer are checked
    first, so without them the error is another one. *)
Theorem issueCapability_empty_scopes (options : IssueCapabilityOptions) (w : World) :
  scopes_empty (parse_scopes (ic_scopes options)) = true ->
  let r := issueCapabilityCommand lib options w in
  let scopes := parse_scopes (ic_scopes options) in
  scopes <> []
  /\ (fst r = Exit 1
      /\ (exists new,
            calls (snd r) = (calls w ++ new)%list
            /\ forall credential privateKey publicKey,
                 ~ In (CallSignCredential credential privateKey publicKey) new)
      /\ files (snd r) = files w)
  /\ (forall (w1 : World) (keystore : Keystore) (e2 e3 : Ext) (issuerIdentity : Val),
        getKeystore lib (ic_store options) (negb (ic_encryption options)) w
          = (Return keystore, w1) ->
        Keystore_init lib keystore (ext w1) = (Ok tt, e2) ->
        Keystore_getIdentity lib keystore (ic_issuer options) e2 = (Ok issuerIdentity, e3) ->
        truthy issuerIdentity = true ->
        is_string "owner" (field "type" issuerIdentity) = true ->
        r = (Exit 1,
             add_line (Err (formatError (normalizeError InvalidScopes)))
               (record_call
                  (CallCreateCapabilityCredential (ic_issuer options) (ic_subject options)
                     scopes (capability_opts options)) e3
                  (record_call (CallGetIdentity keystore (ic_issuer options)) e3
                     (record_call (CallInit keystore) e2 w1))))).
Proof.
  intros Hempty r scopes. subst r scopes.
  split; [apply parse_scopes_nonempty|].
  split.
  - unfold issueCapabilityCommand. run.
    destruct (getKeystore lib (ic_store options) (negb (ic_encryption options)) w)
      as [[keystore|err|n] w1] eqn:Hks;
      [| |contradiction (getKeystore_never_exits _ _ _ _ _ Hks)];
      pose proof (getKeystore_files _ _ _ _ _ Hks) as Hf;
      destruct (getKeystore_calls _ _ _ _ _ Hks) as [Hc|[pass Hc]];
      norm.
    3-4: unsigned w Hc Hf.
    all: destruct (Keystore_init lib keystore (ext w1)) as [[[]|err] e2];
      norm; [|unsigned w Hc Hf].
    all: destruct (Keystore_getIdentity lib keystore (ic_issuer options) e2)
           as [[who|err] e3];
      norm; [|unsigned w Hc Hf].
    all: destruct (truthy who); norm; [|unsigned w Hc Hf].
    all: destruct (is_string "owner" (field "type" who)); norm; [|unsigned w Hc Hf].
    all: unfold createCapabilityCredential_checked; rewrite Hempty; norm;
      unsigned w Hc Hf.
  - intros w1 keystore e2 e3 issuerIdentity Hks Hinit Hget Htruthy Howner.
    cbv beta iota zeta delta [issueCapabilityCommand action try_catch bind].
    rewrite Hks. cbv beta iota zeta delta [call]. rewrite Hinit.
    cbv beta iota zeta.
    replace (ext (record_call (CallInit keystore) e2 w1)) with e2 by reflexivity.
    rewrite Hget. cbv beta iota zeta. rewrite Htruthy, Howner.
    cbv beta iota zeta delta [negb].
    unfold createCapabilityCredential_checked. rewrite Hempty. reflexivity.
Qed.

(** *** auth sign *)

Lemma authPayload_times (now : Z) (did nonce : string) (options : SignOptions) :
  field "iat" (authPayload now did nonce (sign_opts options)) = VNum (Int now)
  /\ field "exp" (authPayload now did nonce (sign_opts options))
     = VNum (num_add (Int now) (parseInt10 (sign_expiresIn options))).
Proof.
  unfold authPayload, sign_opts.
  destruct (sign_audience options), (sign_domain options); simpl; split; reflexivity.
Qed.


(** When [auth sign] reaches the signing, it makes that one call, with
    the options built from the command line, and prints the result. *)
Lemma signCommand_signs (options : SignOptions)
    (w w1 : World) (keystore : Keystore) (e2 e3 e4 : Ext) (identity keyPair : Val) :
  getKeystore lib (sign_store options) (negb (sign_encryption options)) w
    = (Return keystore, w1) ->
  Keystore_init lib keystore (ext w1) = (Ok tt, e2) ->
  Keystore_getIdentity lib keystore (sign_did options) e2 = (Ok identity, e3) ->
  truthy identity = true ->
  Keystore_getKeyPair lib keystore (sign_did options) e3 = (Ok keyPair, e4) ->
  truthy keyPair = true ->
  let opts := sign_opts options in
  let payload :=
    authPayload (now_seconds lib e4) (sign_did options) (sign_challenge options) opts in
  let signing :=
    CallSignAuthChallenge (sign_did options) (field "privateKey" keyPair)
      (field "publicKey" keyPair) (sign_challenge options) opts in
  let w4 :=
    record_call (CallGetKeyPair keystore (sign_did options)) e4
      (record_call (CallGetIdentity keystore (sign_did options)) e3
         (record_call (CallInit keystore) e2 w1)) in
  let r := signCommand lib options w in
  calls (snd r) = (calls w4 ++ [signing])%list
  /\ (forall result e5,
        encodeAndSign lib payload (field "privateKey" keyPair) (field "publicKey" keyPair) e4
          = (Ok result, e5) ->
        ext (snd r) = e5
        /\ (sign_json options = true \/ readable result = true ->
            fst r = Return tt
            /\ exists before, console (snd r) = (before ++ [Out (outputJson result)])%list)
        /\ (sign_json options = false -> readable result = false -> fst r = Exit 1)).
Proof.
  intros Hks Hinit Hget Hid Hpair Hkp opts payload signing w4 r.
  assert (Hrun : exists o ws,
            r = (o, ws)
            /\ calls ws = (calls w4 ++ [signing])%list
            /\ forall result e5,
                 encodeAndSign lib payload (field "privateKey" keyPair)
                   (field "publicKey" keyPair) e4 = (Ok result, e5) ->
                 ext ws = e5
                 /\ (sign_json options = true \/ readable result = true ->
                     o = Return tt
                     /\ exists before,
                          console ws = (before ++ [Out (outputJson result)])%list)
                 /\ (sign_json options = false -> readable result = false -> o = Exit 1)).
  { subst r. unfold signCommand, signAuthChallenge. run.
    step Hks. step Hinit. cbn [ext record_call].
    step Hget. step Hid. cbn [ext record_call].
    step Hpair. step Hkp. cbn [ext record_call].
    fold opts. fold payload. fold signing. fold w4.
    destruct (encodeAndSign lib payload (field "privateKey" keyPair)
                (field "publicKey" keyPair) e4) as [[result|err] e5].
    - destruct (sign_json options).
      + eexists; eexists; split; [reflexivity|]; split; [reflexivity|].
        intros result' e5' H; injection H as <- <-.
        split; [reflexivity|]. split.
        * intros _. split; [reflexivity|eexists; reflexivity].
        * intros H. discriminate H.
      + unfold prop.
        destruct result; norm;
          (eexists; eexists; split; [reflexivity|]; split; [reflexivity|]);
          intros result' e5' H; injection H as <- <-;
          (split; [reflexivity|]);
          (split;
           [intros [H|H];
            first [discriminate H | split; [reflexivity|eexists; reflexivity]]
           |intros _ H; first [discriminate H | reflexivity]]).
    - eexists; eexists; split; [reflexivity|]; split; [reflexivity|].
      intros result' e5' H. discriminate H. }
  destruct Hrun as (o & ws & Hr & Hcalls & Hok).
  rewrite Hr. split; [exact Hcalls|exact Hok].
Qed.

(** Whatever happens in a run of [auth sign], a signing call it makes
    carries the options built from the command line. *)
Lemma signCommand_signing_calls (options : SignOptions) (w : World) :
  exists new,
    calls (snd (signCommand lib options w)) = (calls w ++ new)%list
    /\ forall d p q ch o,
         In (CallSignAuthChallenge d p q ch o) new -> o = sign_opts options.
Proof.
  unfold signCommand, signAuthChallenge. run.
  destruct (getKeystore lib (sign_store options) (negb (sign_encryption options)) w)
    as [[keystore|err|n] w1] eqn:Hks;
    destruct (getKeystore_calls _ _ _ _ _ Hks) as [Hc|[pass Hc]];
    norm.
  3-6: calls_done w Hc.
  all: destruct (Keystore_init lib keystore (ext w1)) as [[[]|err] e2];
    norm; [|calls_done w Hc].
  all: destruct (Keystore_getIdentity lib keystore (sign_did options) e2)
         as [[who|err] e3];
    norm; [|calls_done w Hc].
  all: destruct (truthy who); norm; [|calls_done w Hc].
  all: destruct (Keystore_getKeyPair lib keystore (sign_did options) e3)
         as [[keyPair|err] e4];
    norm; [|calls_done w Hc].
  all: destruct (truthy keyPair); norm; [|calls_done w Hc].
  all: match goal with
       | |- context [encodeAndSign lib ?a ?b ?c ?e] =>
           destruct (encodeAndSign lib a b c e) as [[result|err] e5]
       end;
    norm; [destruct (sign_json options); [|unfold prop; destruct result; run; norm]|];
    calls_done w Hc.
Qed.

(** C7. [auth sign] hands [signAuthChallenge] the option
    [expiresIn = parseInt(options.expiresIn, 10)], where
    [options.expiresIn] is the text given with [--expires-in] and the
    default text 120 when the option is omitted: so [expiresIn] is 120 when
    it is omitted, and the integer parse of N when N is given.  The payload
    signed under these options has [iat = now] and
    [exp = iat + expiresIn], which is [iat + 120] when the option is
    omitted.  Every signing call of every run carries these options; and
    when the handler reaches the signing (keystore open, identity and key
    pair found), it makes that one signing call and prints its result:
    with [--json] whatever the result is, and without [--json] when the
    result is an object whose fields can be read (else the handler exits
    with code 1).  The text N is taken from the texts on which
    [parseInt10] is [parseInt(N, 10)] exactly: ASCII characters, denoting
    an integer of magnitude at most 2^53 or no integer at all; and the
    times are those whose sum is exact as well. *)
Theorem signCommand_expiresIn (options : SignOptions) (given : option string) :
  sign_expiresIn options = expiresIn_option given ->
  (forall N, given = Some N -> exact_parseInt N = true) ->
  let expiresIn := match given with Some N => parseInt10 N | None => Int 120 end in
  let opts := sign_opts options in
  let payload now := authPayload now (sign_did options) (sign_challenge options) opts in
  field "expiresIn" opts = VNum expiresIn
  /\ (forall now,
        safe_integer (Int now) = true ->
        safe_integer (num_add (Int now) expiresIn) = true ->
        field "iat" (payload now) = VNum (Int now)
        /\ field "exp" (payload now) = VNum (num_add (Int now) expiresIn)
        /\ (given = None -> field "exp" (payload now) = VNum (Int (now + 120))))
  /\ (forall w, exists new,
        calls (snd (signCommand lib options w)) = (calls w ++ new)%list
        /\ forall d p q ch o, In (CallSignAuthChallenge d p q ch o) new -> o = opts)
  /\ (forall (w w1 : World) keystore e2 e3 e4 identity keyPair,
        getKeystore lib (sign_store options) (negb (sign_encryption options)) w
          = (Return keystore, w1) ->
        Keystore_init lib keystore (ext w1) = (Ok tt, e2) ->
        Keystore_getIdentity lib keystore (sign_did options) e2 = (Ok identity, e3) ->
        truthy identity = true ->
        Keystore_getKeyPair lib keystore (sign_did options) e3 = (Ok keyPair, e4) ->
        truthy keyPair = true ->
        let r := signCommand lib options w in
        In (CallSignAuthChallenge (sign_did options) (field "privateKey" keyPair)
              (field "publicKey" keyPair) (sign_challenge options) opts)
           (calls (snd r))
        /\ forall result e5,
             encodeAndSign lib (payload (now_seconds lib e4)) (field "privateKey" keyPair)
               (field "publicKey" keyPair) e4 = (Ok result, e5) ->
             (sign_json options = true \/ readable result = true ->
              fst r = Return tt
              /\ exists before,
                   console (snd r) = (before ++ [Out (outputJson result)])%list)
             /\ (sign_json options = false -> readable result = false ->
                 fst r = Exit 1)).
Proof.
  intros Hgiven _ expiresIn opts payload.
  assert (Hexp : parseInt10 (sign_expiresIn options) = expiresIn).
  { rewrite Hgiven. subst expiresIn. destruct given; reflexivity. }
  split; [subst opts; unfold sign_opts; simpl; rewrite Hexp; reflexivity|].
  split.
  { intros now _ _.
    destruct (authPayload_times now (sign_did options) (sign_challenge options) options)
      as [Hiat Hexp'].
    subst payload opts. cbv beta.
    split; [exact Hiat|]. rewrite Hexp', Hexp.
    split; [reflexivity|]. intros ->. reflexivity. }
  split; [intros w; apply signCommand_signing_calls|].
  intros w w1 keystore e2 e3 e4 identity keyPair Hks Hinit Hget Hid Hpair Hkp r.
  destruct (signCommand_signs options w w1 keystore e2 e3 e4 identity keyPair
              Hks Hinit Hget Hid Hpair Hkp) as [Hcalls Hok].
  split.
  - subst r. rewrite Hcalls. apply in_or_app. right. left. reflexivity.
  - intros result e5 Hsign. destruct (Hok result e5 Hsign) as (_ & Hprint & Hfail).
    split; assumption.
Qed.

(** *** vc inspect *)

Lemma add_lines_same_but_console (ls : list Line) (w : World) :
  same_but_console w (add_lines ls w).
Proof.
  revert w. induction ls as [|l ls IH]; intros w.
  - unfold same_but_console. simpl. auto 10.
  - specialize (IH (add_line l w)). unfold same_but_console in *. simpl in *.
    destruct IH as (H1 & H2 & H3 & H4 & H5 & H6 & H7 & H8 & H9).
    rewrite <- H1, <- H2, <- H3, <- H4, <- H5, <- H6, <- H7, <- H8, <- H9.
    auto 10.
Qed.

(** [vc inspect] reads the file system only, and only prints. *)
Lemma vcInspect_frame (options : VcInspectOptions) (w w' : World) :
  files w' = files w ->
  exists o ls,
    vcInspectCommand lib options w = (o, add_lines ls w)
    /\ vcInspectCommand lib options w' = (o, add_lines ls w').
Proof.
  intros Hf. unfold vcInspectCommand. run. rewrite Hf.
  destruct (assoc (path_resolve lib (vi_file options)) (files w)) as [content|];
    cbv beta iota zeta delta [negb]; [|frame].
  rewrite Hf.
  destruct (assoc (path_resolve lib (vi_file options)) (files w)) as [content'|];
    cbv beta iota zeta; [|frame].
  unfold prop. run.
  destruct (JSON_parse lib content') as [parsed|err]; cbv beta iota zeta.
  - destruct parsed; cbv beta iota zeta;
      match goal with
      | |- context [truthy (decodeCredential lib ?j)] =>
          destruct (truthy (decodeCredential lib j)); cbv beta iota zeta delta [negb];
          [destruct (vi_json options)|]; frame
      end.
  - destruct (truthy (decodeCredential lib (VStr (trim content'))));
      cbv beta iota zeta delta [negb]; [destruct (vi_json options)|]; frame.
Qed.

Lemma summarizeCredential_pure (jwt : Val) (w : World) :
  snd (summarizeCredential lib jwt w) = w.
Proof.
  unfold summarizeCredential.
  set (decoded := decodeCredential lib jwt).
  set (payload := match decoded with VUndef | VNull => VUndef | _ => field "payload" decoded end).
  destruct (truthy payload); [|reflexivity].
  cbv beta iota zeta delta [negb].
  set (vc := field "vc" payload).
  set (vc_type := match vc with VUndef | VNull => VUndef | _ => field "type" vc end).
  unfold join_method. run.
  destruct vc_type; cbv beta iota zeta delta [is_array];
    destruct (truthy (field "iat" payload));
    try destruct (seconds_toISOString lib (field "iat" payload));
    cbv beta iota zeta; try reflexivity;
    destruct (truthy (field "exp" payload));
    try destruct (seconds_toISOString lib (field "exp" payload));
    reflexivity.
Qed.

(** C8. [decodeCredential] is a function of the token alone, so decoding
    a token twice gives the same header and payload, and [vc inspect], the
    handler built on it, is idempotent and free of the store: run twice
    in a row it ends the same way and prints the same lines both times,
    and a run leaves everything but the console as it was: the keystore
    cache, the object counter, what the library keeps, the files, and the
    record of library calls, to which it adds none.  [summarizeCredential]
    does not touch the world at all. *)
Theorem vcInspect_idempotent_store_free (options : VcInspectOptions) (w : World) :
  let r1 := vcInspectCommand lib options w in
  let r2 := vcInspectCommand lib options (snd r1) in
  fst r2 = fst r1
  /\ (exists ls, snd r1 = add_lines ls w /\ snd r2 = add_lines ls (snd r1))
  /\ same_but_console w (snd r1)
  /\ (forall jwt w', snd (summarizeCredential lib jwt w') = w').
Proof.
  intros r1 r2.
  destruct (vcInspect_frame options w w eq_refl) as (o1 & ls1 & H1 & _).
  assert (Hfiles : files (snd r1) = files w).
  { subst r1. rewrite H1. simpl.
    destruct (add_lines_same_but_console ls1 w) as (_ & _ & Hf & _). symmetry. exact Hf. }
  destruct (vcInspect_frame options w (snd r1) Hfiles) as (o & ls & Hw & Hw1).
  subst r2. rewrite Hw1. subst r1. rewrite Hw. simpl.
  split; [reflexivity|].
  split; [exists ls; split; reflexivity|].
  split; [apply add_lines_same_but_console|].
  intros jwt w'. apply summarizeCredential_pure.
Qed.

End Properties.

(* ===================================================================== *)
(** ** The properties at work on the small instance *)
(* ===================================================================== *)

Lemma missing_passphrase_is_fatal_witness :
  env_AGENT_DID_PASSPHRASE (demo_world None [] demo_store) = None
  /\ getNewKeystore demo_lib (Some "/s") false (demo_world None [] demo_store)
     = (Throw (ThrownError missing_passphrase), demo_world None [] demo_store)
  /\ getKeystore demo_lib (Some "/s") false (demo_world None [] demo_store)
     = (Throw (ThrownError missing_passphrase), demo_world None [] demo_store).
Proof.
  split; [reflexivity|].
  destruct (missing_passphrase_is_fatal demo_lib (demo_world None [] demo_store)
              (Some "/s") eq_refl) as (_ & Hnew & Hget & _).
  split; [exact Hnew|exact Hget].
Defined.

Lemma vcDelete_without_yes_witness :
  fst (vcDeleteCommand demo_lib (mkVcDeleteOptions "cred-1" None false false false)
         (demo_world None [] demo_store)) = Exit 1
  /\ calls (snd (vcDeleteCommand demo_lib (mkVcDeleteOptions "cred-1" None false false false)
                   (demo_world None [] demo_store))) = [].
Proof.
  destruct (vcDelete_without_yes demo_lib (mkVcDeleteOptions "cred-1" None false false false)
              (demo_world None [] demo_store) eq_refl) as [Hrun _].
  rewrite Hrun. split; reflexivity.
Defined.

Lemma vcList_keystore_missing_witness :
  vcListCommand demo_lib (mkVcListOptions (Some "/nowhere") false true) (demo_world None [] [])
  = (Return tt,
     add_line (Out "[]")
       (record_call (CallExists (mkKeystore 0 "/nowhere" None true)) []
          (snd (getKeystore demo_lib (Some "/nowhere") true (demo_world None [] [])))))
  /\ demo_list_unconfigured
     = (Exit 1, add_line (Err passphrase_report) (demo_world None [] [])).
Proof.
  destruct (vcList_keystore_missing demo_lib (mkVcListOptions (Some "/nowhere") false true)
              (demo_world None [] [])) as [Hmissing _].
  destruct (vcList_keystore_missing demo_lib (mkVcListOptions None true true)
              (demo_world None [] [])) as [_ Hgate].
  split.
  - exact (proj1 (Hmissing _ _ _ eq_refl eq_refl)).
  - exact (Hgate _ _ eq_refl).
Defined.

Lemma createAgent_owner_checked_witness :
  fst (createAgentCommand demo_lib
         (mkCreateAgentOptions "Helper" "did:key:nobody" None false false)
         (demo_world None [] demo_store)) = Exit 1
  /\ fst (createAgentCommand demo_lib
            (mkCreateAgentOptions "Helper" "did:key:bot" None false false)
            (demo_world None [] demo_store)) = Exit 1
  /\ ext (snd (createAgentCommand demo_lib
                 (mkCreateAgentOptions "Helper" "did:key:bot" None false false)
                 (demo_world None [] demo_store))) = demo_store
  /\ fst (demo_create_unconfigured "did:key:nobody") = Exit 1.
Proof.
  destruct (createAgent_owner_checked demo_lib
              (mkCreateAgentOptions "Helper" "did:key:nobody" None false false)
              (demo_world None [] demo_store)) as [Hnobody _].
  destruct (createAgent_owner_checked demo_lib
              (mkCreateAgentOptions "Helper" "did:key:bot" None false false)
              (demo_world None [] demo_store)) as [Hbot _].
  destruct (createAgent_owner_checked demo_lib
              (mkCreateAgentOptions "Helper" "did:key:nobody" None true false)
              (demo_world None [] demo_store)) as [_ Hgate].
  destruct (Hnobody _ _ _ _ _ eq_refl eq_refl eq_refl (or_introl eq_refl)) as (H1 & _).
  destruct (Hbot _ _ _ _ _ eq_refl eq_refl eq_refl (or_intror eq_refl)) as (H2 & _ & H3).
  rewrite H1. split; [reflexivity|]. split; [rewrite H2; reflexivity|].
  split; [exact H3|].
  unfold demo_create_unconfigured. rewrite (Hgate _ _ eq_refl). reflexivity.
Defined.

Example createAgent_errors_printed :
  console (snd (createAgentCommand demo_lib
                  (mkCreateAgentOptions "Helper" "did:key:nobody" None false true)
                  (demo_world None [] demo_store)))
  = [Out (nl ++ "⚠️  WARNING: Keys will be stored UNENCRYPTED on disk!");
     Out ("This is NOT recommended for production use." ++ nl);
     Err ("❌ Error: Owner identity not found: did:key:nobody" ++ nl ++ "   Code: NOT_FOUND")]
  /\ console (snd (createAgentCommand demo_lib
                     (mkCreateAgentOptions "Helper" "did:key:bot" None false true)
                     (demo_world None [] demo_store)))
     = [Out (nl ++ "⚠️  WARNING: Keys will be stored UNENCRYPTED on disk!");
        Out ("This is NOT recommended for production use." ++ nl);
        Err "❌ Error: Specified DID is not an owner: did:key:bot"].
Proof. split; vm_compute; reflexivity. Qed.

Lemma vcVerify_json_invalid_exits_0_witness :
  vcVerifyCommand demo_lib (mkVcVerifyOptions "cred.jwt" None None true)
    (demo_world None [("cred.jwt", "bad")] [])
  = (Return tt,
     add_line
       (Out (outputJson (VObj [("valid", VBool false); ("reason", VStr "InvalidSignature")])))
       (record_call
          (CallVerifyCredential "bad"
             (VObj [("allowedIssuers", VUndef); ("expectedSubject", VUndef)]))
          [] (demo_world None [("cred.jwt", "bad")] [])))
  /\ exit_code (fst (vcVerifyCommand demo_lib (mkVcVerifyOptions "cred.jwt" None None true)
                       (demo_world None [("cred.jwt", "bad")] []))) = 0%Z.
Proof.
  exact (vcVerify_json_invalid_exits_0 demo_lib (mkVcVerifyOptions "cred.jwt" None None true)
           (demo_world None [("cred.jwt", "bad")] []) "bad" _ _
           eq_refl eq_refl eq_refl eq_refl).
Defined.

(** The same invalid credential under the three sibling paths. *)
Example invalid_exit_codes :
  exit_code (fst (vcVerifyCommand demo_lib (mkVcVerifyOptions "cred.jwt" None None false)
                    (demo_world None [("cred.jwt", "bad")] []))) = 1%Z
  /\ exit_code (fst (authVerifyCommand demo_lib
                       (mkAuthVerifyOptions "did:key:bot" "bad" "sig" None None None true)
                       (demo_world None [] []))) = 1%Z
  /\ exit_code (fst (authVerifyCommand demo_lib
                       (mkAuthVerifyOptions "did:key:bot" "bad" "sig" None None None false)
                       (demo_world None [] []))) = 1%Z.
Proof. repeat split; vm_compute; reflexivity. Qed.

(** C3 as stated fails: from the same fresh process with
    AGENT_DID_PASSPHRASE set to the empty string, opening the keystore
    without and with [--no-encryption] gives the same plaintext keystore,
    but only the flag prints the warning, and the two are cached under
    different modes: a later call with the flag is served from the cache
    only after a call with the flag. *)
Lemma empty_passphrase_is_not_noEncryption :
  fst demo_by_env = fst demo_by_flag
  /\ console (snd demo_by_env) = []
  /\ console (snd demo_by_flag)
     = [Out (nl ++ "⚠️  WARNING: Keys will be stored UNENCRYPTED on disk!");
        Out ("This is NOT recommended for production use." ++ nl)]
  /\ mgr_currentEncryption (snd demo_by_env) = Some true
  /\ mgr_currentEncryption (snd demo_by_flag) = Some false
  /\ fst (getKeystore demo_lib (Some "/s") true (snd demo_by_flag))
     = Return (mkKeystore 0 "/s" None true)
  /\ fst (getKeystore demo_lib (Some "/s") true (snd demo_by_env))
     = Return (mkKeystore 1 "/s" None true).
Proof. repeat split; vm_compute; reflexivity. Qed.

Lemma empty_passphrase_same_keystore_witness :
  env_AGENT_DID_PASSPHRASE (demo_world (Some "") [] demo_store) = Some ""
  /\ fst (getKeystore demo_lib (Some "/s") false (demo_world (Some "") [] demo_store))
     = fst (getKeystore demo_lib (Some "/s") true (demo_world (Some "") [] demo_store))
  /\ fst (getNewKeystore demo_lib (Some "/s") false (demo_world (Some "") [] demo_store))
     = fst (getNewKeystore demo_lib (Some "/s") true (demo_world (Some "") [] demo_store)).
Proof.
  split; [reflexivity|].
  destruct (empty_passphrase_same_keystore demo_lib (demo_world (Some "") [] demo_store)
              (Some "/s") eq_refl) as (_ & _ & Hnew & _ & Hget).
  destruct (Hget eq_refl eq_refl) as (Hsame & _).
  split; [exact Hsame|exact Hnew].
Defined.

(** C4 as stated fails: the keystore is opened before the scopes are
    looked at, so with an empty [--scopes] argument and no passphrase
    configured the command fails with the missing-passphrase error, not
    with [InvalidScopes]. *)
Lemma empty_scopes_need_open_keystore :
  scopes_empty (parse_scopes "") = true
  /\ demo_blank_scopes_unconfigured
     = (Exit 1, add_line (Err passphrase_report) (demo_world None [] demo_store))
  /\ passphrase_report <> formatError (normalizeError InvalidScopes).
Proof.
  split; [reflexivity|]. split; [vm_compute; reflexivity|].
  vm_compute. discriminate.
Qed.

Lemma issueCapability_empty_scopes_witness :
  scopes_empty (parse_scopes "  ,  ") = true
  /\ parse_scopes "" = [""]
  /\ parse_scopes "  ,  " = [""; ""]
  /\ fst demo_blank_scopes = Exit 1
  /\ last (console (snd demo_blank_scopes)) (Out "")
     = Err (formatError (normalizeError InvalidScopes))
  /\ calls (snd demo_blank_scopes)
     = [CallNewKeystore "/home/user/.agent-did" None true;
        CallInit (mkKeystore 0 "/home/user/.agent-did" None true);
        CallGetIdentity (mkKeystore 0 "/home/user/.agent-did" None true) "did:key:alice";
        CallCreateCapabilityCredential "did:key:alice" "did:key:bot" [""; ""]
          (VObj [("audience", VUndef); ("expires", VUndef)])].
Proof.
  assert (Hempty : scopes_empty (parse_scopes "  ,  ") = true) by reflexivity.
  split; [exact Hempty|]. split; [reflexivity|]. split; [reflexivity|].
  destruct (issueCapability_empty_scopes demo_lib
              (mkIssueCapabilityOptions "did:key:alice" "did:key:bot" "  ,  " None None None
                 None false false)
              (demo_world None [] demo_store) Hempty) as (_ & _ & Hrun).
  unfold demo_blank_scopes.
  rewrite (Hrun (snd (getKeystore demo_lib None true (demo_world None [] demo_store)))
             (mkKeystore 0 "/home/user/.agent-did" None true) demo_store demo_store
             demo_owner
             ltac:(vm_compute; reflexivity) ltac:(vm_compute; reflexivity)
             ltac:(vm_compute; reflexivity) ltac:(vm_compute; reflexivity)
             ltac:(vm_compute; reflexivity)).
  split; [reflexivity|]. split; vm_compute; reflexivity.
Defined.

(** C5 as stated fails: after a call with [--no-encryption] has cached a
    keystore, a call for the same path with encryption requested differs
    from the cached key, yet with no passphrase set it constructs nothing
    and does not replace the cache: it throws, and the cache still holds
    the first keystore under the first key. *)
Lemma getKeystore_miss_may_keep_cache :
  fst demo_first = Return (mkKeystore 0 "/s" None true)
  /\ cached (snd demo_first) (getStorePath demo_lib (snd demo_first) (Some "/s")) false = None
  /\ fst demo_second = Throw (ThrownError missing_passphrase)
  /\ mgr_instance (snd demo_second) = Some (mkKeystore 0 "/s" None true)
  /\ mgr_currentEncryption (snd demo_second) = Some false
  /\ next_id (snd demo_second) = next_id (snd demo_first)
  /\ calls (snd demo_second) = calls (snd demo_first).
Proof. repeat split; vm_compute; reflexivity. Qed.

Lemma getKeystore_cache_witness :
  fst demo_open = Return (mkKeystore 0 "/s" (Some "correct horse") true)
  /\ demo_reopen = (fst demo_open, snd demo_open)
  /\ fst demo_open_other = Return (mkKeystore 1 "/t" (Some "correct horse") true).
Proof.
  destruct (getKeystore_cache demo_lib (demo_world (Some "correct horse") [] demo_store)
              (Some "/s") false) as (_ & Hnext & _ & Hnew & _).
  destruct (getKeystore_cache demo_lib (snd demo_reopen) (Some "/t") false)
    as (_ & _ & _ & Hother & _).
  split; [exact (Hnew eq_refl _ _ eq_refl eq_refl)|].
  split; [exact (Hnext _ _ eq_refl (Some "/s") eq_refl)|].
  exact (Hother eq_refl _ _ eq_refl eq_refl).
Defined.

Lemma signCommand_expiresIn_witness :
  sign_expiresIn (demo_sign_options None) = expiresIn_option None
  /\ exact_parseInt "300" = true
  /\ field "exp" (authPayload 1000 "did:key:bot" "abc123" (sign_opts (demo_sign_options None)))
     = VNum (Int 1120)
  /\ field "exp" (authPayload 1000 "did:key:bot" "abc123"
                    (sign_opts (demo_sign_options (Some "300"))))
     = VNum (Int 1300)
  /\ fst (signCommand demo_lib (demo_sign_options None) (demo_world None [] demo_store))
     = Return tt
  /\ In (CallSignAuthChallenge "did:key:bot" (VStr "secret") (VStr "z6MkDemo") "abc123"
           (VObj [("audience", VStr "https://api.example.com"); ("domain", VUndef);
                  ("expiresIn", VNum (Int 120))]))
        (calls (snd (signCommand demo_lib (demo_sign_options None)
                       (demo_world None [] demo_store)))).
Proof.
  split; [reflexivity|]. split; [reflexivity|].
  destruct (signCommand_expiresIn demo_lib (demo_sign_options None) None eq_refl
              ltac:(intros N H; discriminate H))
    as (_ & Hpayload & _ & Hrun).
  destruct (signCommand_expiresIn demo_lib (demo_sign_options (Some "300")) (Some "300") eq_refl
              ltac:(intros N H; injection H as <-; reflexivity))
    as (_ & Hpayload300 & _).
  destruct (Hrun (demo_world None [] demo_store) _ _ _ _ _ _ _
              eq_refl eq_refl eq_refl eq_refl eq_refl eq_refl) as (Hin & Hok).
  split; [exact (proj2 (proj2 (Hpayload 1000%Z eq_refl eq_refl)) eq_refl)|].
  split; [exact (proj1 (proj2 (Hpayload300 1000%Z eq_refl eq_refl)))|].
  split; [exact (proj1 (proj1 (Hok _ _ eq_refl) (or_introl eq_refl)))|exact Hin].
Defined.

(** C2 as stated fails: with encryption requested and no passphrase set,
    [create agent] does not get to the owner lookup.  For an owner DID the
    store does not know, and for one that belongs to an agent, the error
    it fails with is the missing passphrase, not the owner error; nothing
    is stored in either case. *)
Lemma createAgent_needs_open_keystore :
  demo_getIdentity "did:key:nobody" demo_store = VNull
  /\ field "type" (demo_getIdentity "did:key:bot" demo_store) = VStr "agent"
  /\ demo_create_unconfigured "did:key:nobody"
     = (Exit 1, add_line (Err passphrase_report) (demo_world None [] demo_store))
  /\ demo_create_unconfigured "did:key:bot"
     = (Exit 1, add_line (Err passphrase_report) (demo_world None [] demo_store))
  /\ passphrase_report
     <> formatError (normalizeError (ThrownError (owner_not_found "did:key:nobody")))
  /\ passphrase_report
     <> formatError (normalizeError (ThrownError (owner_type_mismatch "did:key:bot"))).
Proof.
  repeat split; try (vm_compute; reflexivity); vm_compute; intros H; discriminate H.
Qed.

(** C10 as stated fails: where no keystore exists and no passphrase is
    set, [vc list] without [--no-encryption] does not get to the existence
    test: it prints the missing-passphrase error and exits with code 1. *)
Lemma vcList_needs_open_keystore :
  Keystore_exists demo_lib (mkKeystore 0 "/home/user/.agent-did" None true) [] = (Ok false, [])
  /\ demo_list_unconfigured
     = (Exit 1, add_line (Err passphrase_report) (demo_world None [] []))
  /\ exit_code (fst demo_list_unconfigured) = 1%Z.
Proof. repeat split; vm_compute; reflexivity. Qed.

(** [normalizeError] classifies by the text of the message, and the
    message of the owner error embeds the DID as typed. *)
Example owner_error_codes :
  code (normalizeError (ThrownError (owner_not_found "did:key:nobody"))) = Some "NOT_FOUND"
  /\ code (normalizeError (ThrownError (owner_type_mismatch "did:key:bot"))) = None
  /\ code (normalizeError (ThrownError (owner_not_found "Passphrase required")))
     = Some "MISSING_PASSPHRASE".
Proof. repeat split; reflexivity. Qed.

(* ===================================================================== *)
(** ** Further properties: formatting and error texts *)
(* ===================================================================== *)

Lemma length_append (a b : string) :
  String.length (a ++ b) = String.length a + String.length b.
Proof. induction a as [|c a IH]; simpl; [reflexivity|rewrite IH; reflexivity]. Qed.

Lemma length_spaces (n : nat) : String.length (spaces n) = n.
Proof. induction n as [|n IH]; simpl; [reflexivity|rewrite IH; reflexivity]. Qed.

Lemma length_padEnd (n : nat) (s : string) :
  String.length (padEnd n s) = Nat.max n (String.length s).
Proof. unfold padEnd. rewrite length_append, length_spaces. lia. Qed.

Lemma substring0_split (s : string) (n : nat) :
  n <= String.length s ->
  exists rest, s = substring 0 n s ++ rest /\ String.length (substring 0 n s) = n.
Proof.
  revert n. induction s as [|c s IH]; intros n Hn.
  - simpl in Hn. assert (n = 0) by lia. subst n. exists EmptyString. split; reflexivity.
  - destruct n as [|n].
    + exists (String c s). split; reflexivity.
    + simpl in Hn. destruct (IH n) as (rest & Heq & Hlen); [lia|].
      exists rest. simpl. split; [rewrite <- Heq; reflexivity|rewrite Hlen; reflexivity].
Qed.

(** X6. [formatDid] with a width of at least 3 never returns more
    characters than the width: a DID that fits is returned as it is, and a
    longer one is cut to its first [maxLength - 3] characters followed by
    three dots, which makes exactly [maxLength]. *)
Theorem formatDid_bound (did : string) (maxLength : Z) :
  (3 <= maxLength)%Z ->
  (Z.of_nat (String.length (formatDid did maxLength)) <= maxLength)%Z
  /\ ((Z.of_nat (String.length did) <= maxLength)%Z -> formatDid did maxLength = did)
  /\ ((maxLength < Z.of_nat (String.length did))%Z ->
      exists head rest,
        did = head ++ rest
        /\ Z.of_nat (String.length head) = (maxLength - 3)%Z
        /\ formatDid did maxLength = head ++ "..."
        /\ Z.of_nat (String.length (formatDid did maxLength)) = maxLength).
Proof.
  intros Hmax. unfold formatDid.
  destruct (Z.leb_spec (Z.of_nat (String.length did)) maxLength) as [Hfit|Hlong].
  - split; [exact Hfit|]. split; [reflexivity|]. intros H. lia.
  - assert (Hslice : slice0 did (maxLength - 3)
                     = substring 0 (Z.to_nat (maxLength - 3)) did).
    { unfold slice0.
      destruct (Z.ltb_spec (maxLength - 3) 0) as [Hneg|_]; [lia|].
      rewrite Z.min_l by lia. reflexivity. }
    destruct (substring0_split did (Z.to_nat (maxLength - 3))) as (rest & Heq & Hlen);
      [lia|].
    rewrite Hslice.
    assert (Htotal : Z.of_nat (String.length
                       (substring 0 (Z.to_nat (maxLength - 3)) did ++ "...")) = maxLength).
    { rewrite length_append, Hlen. simpl. lia. }
    split; [lia|]. split; [intros H; lia|].
    intros _. exists (substring 0 (Z.to_nat (maxLength - 3)) did), rest.
    split; [exact Heq|]. split; [rewrite Hlen; lia|]. split; [reflexivity|exact Htotal].
Qed.

Lemma formatDid_bound_witness :
  (3 <= formatDid_maxLength)%Z
  /\ formatDid "did:key:z6MkhaXgBZDvotDkL5257faiztiGiC2QtKLGpbnnEGta2doK" formatDid_maxLength
     = "did:key:z6MkhaXgBZDvotDkL5257faiztiGiC2QtKLGpbnnEGta2doK"
  /\ (Z.of_nat (String.length
        (formatDid "did:key:z6MkhaXgBZDvotDkL5257faiztiGiC2QtKLGpbnnEGta2doK:and:a:long:tail"
           formatDid_maxLength)) <= formatDid_maxLength)%Z.
Proof.
  split; [unfold formatDid_maxLength; lia|].
  split.
  - apply (formatDid_bound _ formatDid_maxLength); unfold formatDid_maxLength; simpl; lia.
  - apply (formatDid_bound _ formatDid_maxLength). unfold formatDid_maxLength. lia.
Defined.

(** Below a width of 3 the end of the slice is negative and counts from
    the end of the DID, so the result can be longer than the DID itself. *)
Example formatDid_narrow : formatDid "abcdef" 2 = "abcde...".
Proof. reflexivity. Qed.

Lemma key_length_le_max (data : list (string * Val)) (kv : string * Val) :
  In kv data ->
  String.length (fst kv)
  <= fold_right Nat.max 0 (map (fun kv => String.length (fst kv)) data).
Proof.
  induction data as [|x data IH]; intros Hin; [contradiction|].
  simpl. destruct Hin as [->|Hin]; [lia|]. specialize (IH Hin). lia.
Qed.

(** X7. [outputTable] prints one line per entry, in order, and the lines
    are aligned: every key is padded with spaces to the length of the
    longest key, so the separator starts at the same column on every
    line. *)
Theorem outputTable_aligned (data : list (string * Val)) :
  let width := fold_right Nat.max 0 (map (fun kv => String.length (fst kv)) data) in
  outputTable data = join nl (table_lines data)
  /\ List.length (table_lines data) = List.length data
  /\ forall i kv, nth_error data i = Some kv ->
       exists pad,
         nth_error (table_lines data) i
         = Some ((fst kv ++ spaces pad) ++ " : " ++ js_String (snd kv))
         /\ String.length (fst kv ++ spaces pad) = width.
Proof.
  intros width. split; [reflexivity|].
  split; [unfold table_lines; apply length_map|].
  intros i kv Hnth. unfold table_lines. fold width.
  exists (width - String.length (fst kv)).
  split.
  - rewrite nth_error_map, Hnth. reflexivity.
  - rewrite length_append, length_spaces.
    pose proof (key_length_le_max data kv (nth_error_In _ _ Hnth)) as Hle.
    fold width in Hle. lia.
Qed.

Example outputTable_example :
  outputTable [("did", VStr "did:key:z6Mk"); ("name", VStr "Alice"); ("createdAt", VStr "now")]
  = "did       : did:key:z6Mk" ++ nl ++ "name      : Alice" ++ nl ++ "createdAt : now".
Proof. reflexivity. Qed.

Lemma outputTable_aligned_witness :
  nth_error [("did", VStr "did:key:z6Mk"); ("createdAt", VStr "now")] 0
  = Some ("did", VStr "did:key:z6Mk")
  /\ exists pad,
       nth_error (table_lines [("did", VStr "did:key:z6Mk"); ("createdAt", VStr "now")]) 0
       = Some (("did" ++ spaces pad) ++ " : did:key:z6Mk")
       /\ String.length ("did" ++ spaces pad) = 9.
Proof.
  split; [reflexivity|].
  destruct (outputTable_aligned [("did", VStr "did:key:z6Mk"); ("createdAt", VStr "now")])
    as (_ & _ & Hline).
  exact (Hline 0 ("did", VStr "did:key:z6Mk") eq_refl).
Defined.

(** *** Splitting *)

Lemma split_nonempty_head (sep : ascii) (s : string) :
  exists p ps, split sep s = p :: ps.
Proof.
  destruct (split sep s) as [|p ps] eqn:H; [|eauto].
  exfalso. exact (split_nonempty sep s H).
Qed.

Lemma split_without_sep (sep : ascii) (s : string) :
  has_char sep s = false -> split sep s = [s].
Proof.
  induction s as [|c s IH]; simpl; [reflexivity|].
  destruct (Ascii.eqb c sep); simpl; [discriminate|].
  intros H. rewrite (IH H). reflexivity.
Qed.

Lemma split_at_sep (sep : ascii) (a t : string) :
  has_char sep a = false ->
  split sep (a ++ String sep t) = a :: split sep t.
Proof.
  induction a as [|c a IH]; simpl.
  - intros _. rewrite Ascii.eqb_refl. reflexivity.
  - destruct (Ascii.eqb c sep); simpl; [discriminate|].
    intros H. rewrite (IH H). reflexivity.
Qed.

Lemma length_split (sep : ascii) (s : string) :
  List.length (split sep s) = S (count_char sep s).
Proof.
  induction s as [|c s IH]; simpl; [reflexivity|].
  destruct (Ascii.eqb c sep); simpl.
  - rewrite IH. reflexivity.
  - destruct (split sep s) as [|p ps]; simpl in *; [discriminate IH|exact IH].
Qed.

Lemma split_pieces_without_sep (sep : ascii) (s x : string) :
  In x (split sep s) -> has_char sep x = false.
Proof.
  revert x. induction s as [|c s IH]; simpl; intros x Hin.
  - destruct Hin as [<-|[]]. reflexivity.
  - destruct (Ascii.eqb c sep) eqn:Hc.
    + destruct Hin as [<-|Hin]; [reflexivity|apply IH; exact Hin].
    + destruct (split sep s) as [|p ps].
      * destruct Hin as [<-|[]]. simpl. rewrite Hc. reflexivity.
      * destruct Hin as [<-|Hin].
        -- simpl. rewrite Hc. simpl. apply IH. left. reflexivity.
        -- apply IH. right. exact Hin.
Qed.

(** X8. The key id the handlers print for a DID is the DID, a hash sign
    and the third colon-separated part of the DID: for a DID of the form
    method:type:id that is the id, also when more parts follow; for a DID
    with fewer than three parts it is the word undefined. *)
Theorem kid_of_third_part (m t id : string) :
  has_char ":" m = false -> has_char ":" t = false -> has_char ":" id = false ->
  kid_of (m ++ ":" ++ t ++ ":" ++ id) = (m ++ ":" ++ t ++ ":" ++ id) ++ "#" ++ id
  /\ (forall more, kid_of (m ++ ":" ++ t ++ ":" ++ id ++ ":" ++ more)
                   = (m ++ ":" ++ t ++ ":" ++ id ++ ":" ++ more) ++ "#" ++ id)
  /\ kid_of (m ++ ":" ++ t) = (m ++ ":" ++ t) ++ "#undefined"
  /\ kid_of m = m ++ "#undefined".
Proof.
  intros Hm Ht Hid. unfold kid_of.
  repeat split.
  - change (m ++ ":" ++ t ++ ":" ++ id) with (m ++ String ":" (t ++ String ":" id)).
    rewrite (split_at_sep ":" m _ Hm), (split_at_sep ":" t _ Ht),
      (split_without_sep ":" id Hid).
    reflexivity.
  - intros more.
    change (m ++ ":" ++ t ++ ":" ++ id ++ ":" ++ more)
      with (m ++ String ":" (t ++ String ":" (id ++ String ":" more))).
    rewrite (split_at_sep ":" m _ Hm), (split_at_sep ":" t _ Ht),
      (split_at_sep ":" id _ Hid).
    reflexivity.
  - change (m ++ ":" ++ t) with (m ++ String ":" t).
    rewrite (split_at_sep ":" m _ Hm), (split_without_sep ":" t Ht). reflexivity.
  - rewrite (split_without_sep ":" m Hm). reflexivity.
Qed.

Lemma kid_of_third_part_witness :
  has_char ":" "did" = false /\ has_char ":" "key" = false /\ has_char ":" "z6MkDemo" = false
  /\ kid_of "did:key:z6MkDemo" = "did:key:z6MkDemo#z6MkDemo"
  /\ kid_of "did:web" = "did:web#undefined".
Proof.
  do 3 (split; [reflexivity|]).
  destruct (kid_of_third_part "did" "key" "z6MkDemo" eq_refl eq_refl eq_refl)
    as (Hkid & _).
  destruct (kid_of_third_part "did" "web" "" eq_refl eq_refl eq_refl) as (_ & _ & Hweb & _).
  split; [exact Hkid|exact Hweb].
Defined.

(** *** Trimming *)

Lemma trimEnd_idempotent (s : string) : trimEnd (trimEnd s) = trimEnd s.
Proof.
  induction s as [|c s IH]; simpl; [reflexivity|].
  destruct (trimEnd s) as [|c' s'] eqn:Hs.
  - destruct (is_space c) eqn:Hc; simpl; [reflexivity|]. rewrite Hc. reflexivity.
  - simpl in *. rewrite IH. reflexivity.
Qed.

Lemma trimStart_starts_clean (s : string) :
  match trimStart s with
  | EmptyString => True
  | String c _ => is_space c = false
  end.
Proof.
  induction s as [|c s IH]; simpl; [exact I|].
  destruct (is_space c) eqn:Hc; [exact IH|exact Hc].
Qed.

Lemma trimStart_trimEnd_clean (u : string) :
  match u with EmptyString => True | String c _ => is_space c = false end ->
  trimStart (trimEnd u) = trimEnd u.
Proof.
  destruct u as [|c t]; simpl; [reflexivity|]. intros Hc.
  destruct (trimEnd t); rewrite ?Hc; simpl; rewrite Hc; reflexivity.
Qed.

Lemma trim_idempotent (s : string) : trim (trim s) = trim s.
Proof.
  unfold trim.
  rewrite (trimStart_trimEnd_clean (trimStart s) (trimStart_starts_clean s)).
  apply trimEnd_idempotent.
Qed.

Lemma has_char_trimStart (c : ascii) (s : string) :
  has_char c (trimStart s) = true -> has_char c s = true.
Proof.
  induction s as [|x s IH]; simpl; [intros H; exact H|].
  destruct (is_space x); simpl; [|intros H; exact H].
  intros H. rewrite (IH H). apply orb_true_r.
Qed.

Lemma has_char_trimEnd (c : ascii) (s : string) :
  has_char c (trimEnd s) = true -> has_char c s = true.
Proof.
  induction s as [|x s IH]; simpl; [intros H; exact H|].
  destruct (trimEnd s) as [|y t] eqn:Hs.
  - destruct (is_space x); simpl; [discriminate|].
    intros H. rewrite orb_false_r in H. rewrite H. reflexivity.
  - simpl in *. intros H. apply orb_true_iff in H. destruct H as [H|H].
    + rewrite H. reflexivity.
    + rewrite (IH H). apply orb_true_r.
Qed.

(** X22. The scopes a [--scopes] argument is parsed into: one scope for
    each comma plus one (an empty piece is kept, not dropped), and every
    scope is free of commas and already trimmed, so trimming it again
    changes nothing. *)
Theorem parse_scopes_pieces (scopes : string) :
  List.length (parse_scopes scopes) = S (count_char "," scopes)
  /\ forall x, In x (parse_scopes scopes) -> has_char "," x = false /\ trim x = x.
Proof.
  unfold parse_scopes. split.
  - rewrite length_map. apply length_split.
  - intros x Hin. apply in_map_iff in Hin. destruct Hin as (piece & <- & Hin).
    split; [|apply trim_idempotent].
    destruct (has_char "," (trim piece)) eqn:Hc; [|reflexivity].
    unfold trim in Hc. apply has_char_trimEnd, has_char_trimStart in Hc.
    rewrite (split_pieces_without_sep _ _ _ Hin) in Hc. discriminate Hc.
Qed.

Lemma parse_scopes_pieces_witness :
  In "write" (parse_scopes "read , write,,admin")
  /\ parse_scopes "read , write,,admin" = ["read"; "write"; ""; "admin"]
  /\ has_char "," "write" = false /\ trim "write" = "write".
Proof.
  assert (Hin : In "write" (parse_scopes "read , write,,admin")).
  { right. left. reflexivity. }
  split; [exact Hin|]. split; [reflexivity|].
  exact (proj2 (parse_scopes_pieces "read , write,,admin") "write" Hin).
Defined.

(** *** Error classification *)

Lemma prefix_append (n s : string) : prefix n (n ++ s) = true.
Proof.
  induction n as [|c n IH]; simpl; [destruct s; reflexivity|].
  destruct (ascii_dec c c) as [_|Hne]; [exact IH|contradiction Hne; reflexivity].
Qed.

Lemma includes_inside (n p s : string) : includes n (p ++ n ++ s) = true.
Proof.
  induction p as [|c p IH].
  - change ("" ++ n ++ s) with (n ++ s). generalize (prefix_append n s).
    destruct (n ++ s); simpl; intros ->; reflexivity.
  - change (String c p ++ n ++ s) with (String c (p ++ n ++ s)).
    cbn [includes]. rewrite IH.
    match goal with |- (if ?b then _ else _) = _ => destruct b; reflexivity end.
Qed.

(** X9. An error whose message holds the words Passphrase required, at any
    place, is reported as MISSING_PASSPHRASE with the fixed advice text, no
    matter what else the message says (not found, already exists, ...): the
    original message is dropped. *)
Theorem normalizeError_passphrase_first (before after : string) :
  normalizeError (ThrownError (before ++ "Passphrase required" ++ after))
  = mkAgentDidError
      "Passphrase required. Set AGENT_DID_PASSPHRASE environment variable or use --no-encryption flag."
      (Some "MISSING_PASSPHRASE") None.
Proof.
  unfold normalizeError. rewrite includes_inside. reflexivity.
Qed.

(** X10. Classifying an error is stable: an error made again from the
    message of a classified error is classified the same way, with the same
    message and the same code.  The message is the original one unless the
    error is one of the two passphrase errors, and a classified [Error]
    carries no details. *)
Theorem normalizeError_stable (msg : string) :
  normalizeError (ThrownError (message (normalizeError (ThrownError msg))))
  = normalizeError (ThrownError msg)
  /\ details (normalizeError (ThrownError msg)) = None
  /\ (code (normalizeError (ThrownError msg)) <> Some "MISSING_PASSPHRASE" ->
      code (normalizeError (ThrownError msg)) <> Some "INVALID_PASSPHRASE" ->
      message (normalizeError (ThrownError msg)) = msg).
Proof.
  unfold normalizeError.
  destruct (includes "Passphrase required" msg) eqn:H1.
  { split; [reflexivity|]. split; [reflexivity|]. intros H; contradiction H; reflexivity. }
  destruct (includes "Invalid passphrase" msg) eqn:H2.
  { split; [reflexivity|]. split; [reflexivity|]. intros _ H; contradiction H; reflexivity. }
  destruct (includes "not found" msg || includes "does not exist" msg) eqn:H3.
  { cbn [message]. rewrite H1, H2, H3. repeat split. }
  destruct (includes "already exists" msg) eqn:H4.
  { cbn [message]. rewrite H1, H2, H3, H4. repeat split. }
  destruct (includes "permission denied" msg) eqn:H5.
  { cbn [message]. rewrite H1, H2, H3, H4, H5. repeat split. }
  cbn [message]. rewrite H1, H2, H3, H4, H5. repeat split.
Qed.

Lemma normalizeError_stable_witness :
  code (normalizeError (ThrownError "Identity not found: did:key:z6Mk")) <> Some "MISSING_PASSPHRASE"
  /\ code (normalizeError (ThrownError "Identity not found: did:key:z6Mk"))
     <> Some "INVALID_PASSPHRASE"
  /\ message (normalizeError (ThrownError "Identity not found: did:key:z6Mk"))
     = "Identity not found: did:key:z6Mk".
Proof.
  assert (H1 : code (normalizeError (ThrownError "Identity not found: did:key:z6Mk"))
               <> Some "MISSING_PASSPHRASE") by (vm_compute; discriminate).
  assert (H2 : code (normalizeError (ThrownError "Identity not found: did:key:z6Mk"))
               <> Some "INVALID_PASSPHRASE") by (vm_compute; discriminate).
  split; [exact H1|]. split; [exact H2|].
  exact (proj2 (proj2 (normalizeError_stable "Identity not found: did:key:z6Mk")) H1 H2).
Defined.

(* ===================================================================== *)
(** ** What every run of a handler keeps *)
(* ===================================================================== *)

Section HandlerLogic.

Context {Ext : Type}.
Variable lib : Library Ext.
Variable more : MoreLibrary Ext.
Variable R : World Ext -> World Ext -> Prop.
Variable allowed : Call -> Prop.
Hypothesis HR : closed R allowed.

Local Abbreviation World := (World Ext).
Local Abbreviation M := (M Ext).

Lemma ew_ret {A : Type} (a : A) : ends_well R (ret a).
Proof. intros w o w' H. injection H as <- <-. split; [apply (cl_refl _ _ HR)|exact I]. Qed.

Lemma ew_throw {A : Type} (e : Thrown) : ends_well R (@throw Ext A e).
Proof. intros w o w' H. injection H as <- <-. split; [apply (cl_refl _ _ HR)|exact I]. Qed.

Lemma ew_exit_1 {A : Type} : ends_well R (@process_exit Ext A 1).
Proof.
  intros w o w' H. injection H as <- <-. split; [apply (cl_refl _ _ HR)|reflexivity].
Qed.

Lemma ew_get_world : ends_well R (@get_world Ext).
Proof. intros w o w' H. injection H as <- <-. split; [apply (cl_refl _ _ HR)|exact I]. Qed.

Lemma ew_lift_res {A : Type} (r : Res A) : ends_well R (@lift_res Ext A r).
Proof. destruct r; [apply ew_ret|apply ew_throw]. Qed.

Lemma ew_bind {A B : Type} (c : M A) (k : A -> M B) :
  ends_well R c -> (forall a, ends_well R (k a)) -> ends_well R (bind c k).
Proof.
  intros Hc Hk w o w' H. unfold bind in H.
  destruct (c w) as [[a|e|n] w1] eqn:Hcw.
  - destruct (Hc _ _ _ Hcw) as [R1 _]. destruct (Hk a _ _ _ H) as [R2 Ho].
    split; [exact (cl_trans _ _ HR _ _ _ R1 R2)|exact Ho].
  - injection H as <- <-. destruct (Hc _ _ _ Hcw) as [R1 _]. split; [exact R1|exact I].
  - injection H as <- <-. exact (Hc _ _ _ Hcw).
Qed.

Lemma ew_try_catch {A : Type} (c : M A) (handler : Thrown -> M A) :
  ends_well R c -> (forall e, ends_well R (handler e)) -> ends_well R (try_catch c handler).
Proof.
  intros Hc Hh w o w' H. unfold try_catch in H.
  destruct (c w) as [[a|e|n] w1] eqn:Hcw.
  - injection H as <- <-. exact (Hc _ _ _ Hcw).
  - destruct (Hc _ _ _ Hcw) as [R1 _]. destruct (Hh e _ _ _ H) as [R2 Ho].
    split; [exact (cl_trans _ _ HR _ _ _ R1 R2)|exact Ho].
  - injection H as <- <-. exact (Hc _ _ _ Hcw).
Qed.

Lemma ew_for_each {A : Type} (f : A -> M unit) (l : list A) :
  (forall x, ends_well R (f x)) -> ends_well R (for_each f l).
Proof.
  intros Hf. induction l as [|x l IH]; simpl; [apply ew_ret|].
  apply ew_bind; [apply Hf|intros _; exact IH].
Qed.

Lemma ew_when (b : bool) (c : M unit) : ends_well R c -> ends_well R (when b c).
Proof. intros Hc. destruct b; [exact Hc|apply ew_ret]. Qed.

Lemma ew_console_log (s : string) : ends_well R (@console_log Ext s).
Proof. intros w o w' H. injection H as <- <-. split; [apply (cl_line _ _ HR)|exact I]. Qed.

Lemma ew_console_error (s : string) : ends_well R (@console_error Ext s).
Proof. intros w o w' H. injection H as <- <-. split; [apply (cl_line _ _ HR)|exact I]. Qed.

Lemma ew_call {A : Type} (c : Call) (f : Ext -> Res A * Ext) :
  allowed c -> ends_well R (call c f).
Proof.
  intros Hc w o w' H. unfold call in H.
  destruct (f (ext w)) as [[a|err] e]; injection H as <- <-;
    (split; [apply (cl_call _ _ HR); exact Hc|exact I]).
Qed.

Lemma ew_invoke {A : Type} (f : Ext -> Res A * Ext) : ends_well R (invoke f).
Proof.
  intros w o w' H. unfold invoke in H.
  destruct (f (ext w)) as [[a|err] e]; injection H as <- <-;
    (split; [apply (cl_ext _ _ HR)|exact I]).
Qed.

Lemma ew_fs_existsSync (p : string) : ends_well R (@fs_existsSync Ext p).
Proof. intros w o w' H. injection H as <- <-. split; [apply (cl_refl _ _ HR)|exact I]. Qed.

Lemma ew_fs_readFileSync (p : string) : ends_well R (@fs_readFileSync Ext p).
Proof.
  intros w o w' H. unfold fs_readFileSync in H.
  destruct (assoc p (files w)); injection H as <- <-;
    (split; [apply (cl_refl _ _ HR)|exact I]).
Qed.

Lemma ew_fs_writeFileSync (p content : string) :
  write_ok R -> ends_well R (fs_writeFileSync lib p content).
Proof.
  intros Hw w o w' H. unfold fs_writeFileSync in H.
  destruct (writeFile_error lib p (ext w)); injection H as <- <-.
  - split; [apply (cl_refl _ _ HR)|exact I].
  - split; [apply Hw|exact I].
Qed.

Lemma ew_action (body : M unit) : ends_well R body -> ends_well R (action body).
Proof.
  intros Hb. apply ew_try_catch; [exact Hb|]. intros e.
  apply ew_bind; [apply ew_console_error|intros _; apply ew_exit_1].
Qed.

(** A handler never lets an exception escape. *)
Lemma action_exit (body : M unit) (w : World) :
  ends_well R body -> exit_0_or_1 (action body w) /\ R w (snd (action body w)).
Proof.
  intros Hb. pose proof (ew_action body Hb w) as H.
  unfold exit_0_or_1.
  assert (Hno : forall e, fst (action body w) <> Throw e).
  { unfold action, try_catch. destruct (body w) as [[a|e|n] w1]; simpl; discriminate. }
  destruct (action body w) as [[[]|e|n] w1].
  - split; [left; reflexivity|exact (proj1 (H _ _ eq_refl))].
  - contradiction (Hno e). reflexivity.
  - destruct (H _ _ eq_refl) as [Hr ->]. split; [right; reflexivity|exact Hr].
Qed.

End HandlerLogic.

(** Take handler code apart, statement by statement; [side] settles what
    the relation asks of a library call or of a file written. *)
Ltac ew_step HR side :=
  lazymatch goal with
  | |- ends_well _ (bind _ _) => apply (ew_bind _ _ HR); [|intro]
  | |- ends_well _ (ret _) => apply (ew_ret _ _ HR)
  | |- ends_well _ (throw _) => apply (ew_throw _ _ HR)
  | |- ends_well _ (throw_Error _) => apply (ew_throw _ _ HR)
  | |- ends_well _ (process_exit _) => apply (ew_exit_1 _ _ HR)
  | |- ends_well _ get_world => apply (ew_get_world _ _ HR)
  | |- ends_well _ (lift_res _) => apply (ew_lift_res _ _ HR)
  | |- ends_well _ (try_catch _ _) => apply (ew_try_catch _ _ HR); [|intro]
  | |- ends_well _ (for_each _ _) => apply (ew_for_each _ _ HR); intro
  | |- ends_well _ (when _ _) => apply (ew_when _ _ HR)
  | |- ends_well _ (console_log _) => apply (ew_console_log _ _ HR)
  | |- ends_well _ (console_error _) => apply (ew_console_error _ _ HR)
  | |- ends_well _ (call _ _) => apply (ew_call _ _ HR); side
  | |- ends_well _ (invoke _) => apply (ew_invoke _ _ HR)
  | |- ends_well _ (fs_existsSync _) => apply (ew_fs_existsSync _ _ HR)
  | |- ends_well _ (fs_readFileSync _) => apply (ew_fs_readFileSync _ _ HR)
  | |- ends_well _ (fs_writeFileSync _ _ _) => apply (ew_fs_writeFileSync _ _ _ HR); side
  | |- ends_well _ (action _) => apply (ew_action _ _ HR)
  | |- ends_well _ (if ?b then _ else _) => destruct b
  | |- ends_well _ (match ?x with _ => _ end) => destruct x
  end.

Ltac ew HR side := repeat (cbv beta zeta; ew_step HR side).

Section HelperLogic.

Context {Ext : Type}.
Variable lib : Library Ext.
Variable R : World Ext -> World Ext -> Prop.
Variable allowed : Call -> Prop.
Hypothesis HR : closed R allowed.

Lemma ew_getPassphrase (noEncryption : bool) : ends_well R (getPassphrase noEncryption).
Proof. unfold getPassphrase. ew HR idtac. Qed.

Lemma ew_warn_unencrypted (noEncryption : bool) (passphrase : option string) :
  ends_well R (warn_unencrypted noEncryption passphrase).
Proof. unfold warn_unencrypted. ew HR idtac. Qed.

Lemma ew_new_Keystore (path : string) (passphrase : option string) (skip : bool) :
  allowed (CallNewKeystore path passphrase skip) ->
  ends_well R (new_Keystore lib path passphrase skip).
Proof.
  intros Hc. unfold new_Keystore. apply (ew_bind _ _ HR).
  - apply (ew_call _ _ HR). exact Hc.
  - intros _ w o w' H. injection H as <- <-. split; [apply (cl_new _ _ HR)|exact I].
Qed.

Lemma ew_getKeystore (customPath : option string) (noEncryption : bool) :
  (forall path passphrase, allowed (CallNewKeystore path passphrase true)) ->
  ends_well R (getKeystore lib customPath noEncryption).
Proof.
  intros Hc. unfold getKeystore. ew HR idtac.
  - apply ew_getPassphrase.
  - apply ew_warn_unencrypted.
  - apply ew_new_Keystore. apply Hc.
  - intros w o w' H. injection H as <- <-. split; [apply (cl_cache _ _ HR)|exact I].
Qed.

Lemma ew_getNewKeystore (customPath : option string) (noEncryption : bool) :
  (forall path passphrase, allowed (CallNewKeystore path passphrase false)) ->
  ends_well R (getNewKeystore lib customPath noEncryption).
Proof.
  intros Hc. unfold getNewKeystore. ew HR idtac.
  - apply ew_getPassphrase.
  - apply ew_warn_unencrypted.
  - apply ew_new_Keystore. apply Hc.
Qed.

Lemma ew_prop (k : string) (v : Val) : ends_well R (@prop Ext k v).
Proof. unfold prop. ew HR idtac. Qed.

Lemma ew_join_method (sep : string) (v : Val) : ends_well R (@join_method Ext sep v).
Proof. unfold join_method. ew HR idtac. Qed.

Lemma ew_Object_entries (v : Val) : ends_well R (@Object_entries Ext v).
Proof. unfold Object_entries. ew HR idtac. Qed.

Lemma ew_as_string (read method : string) (v : Val) :
  ends_well R (@as_string Ext read method v).
Proof. unfold as_string. ew HR idtac. Qed.

Lemma ew_summarizeCredential (jwt : Val) : ends_well R (summarizeCredential lib jwt).
Proof. unfold summarizeCredential. ew HR idtac; apply ew_join_method. Qed.

Lemma ew_print_stored (item : Val) : ends_well R (print_stored lib item).
Proof.
  unfold print_stored. ew HR idtac; first [apply ew_prop|apply ew_summarizeCredential].
Qed.

Lemma ew_print_identity (who : Val) : ends_well R (print_identity lib who).
Proof. unfold print_identity. ew HR idtac; first [apply ew_prop|apply ew_as_string]. Qed.

Lemma ew_signAuthChallenge (did : string) (privateKey publicKey : Val)
    (challenge : string) (opts : Val) :
  allowed (CallSignAuthChallenge did privateKey publicKey challenge opts) ->
  ends_well R (signAuthChallenge lib did privateKey publicKey challenge opts).
Proof. intros Hc. unfold signAuthChallenge. ew HR ltac:(exact Hc). Qed.

End HelperLogic.

(** The same, with the helpers of the handlers. *)
Ltac ew_more HR side :=
  lazymatch goal with
  | |- ends_well _ (getKeystore _ _ _) => apply (ew_getKeystore _ _ _ HR); side
  | |- ends_well _ (getNewKeystore _ _ _) => apply (ew_getNewKeystore _ _ _ HR); side
  | |- ends_well _ (prop _ _) => apply (ew_prop _ _ HR)
  | |- ends_well _ (join_method _ _) => apply (ew_join_method _ _ HR)
  | |- ends_well _ (Object_entries _) => apply (ew_Object_entries _ _ HR)
  | |- ends_well _ (as_string _ _ _) => apply (ew_as_string _ _ HR)
  | |- ends_well _ (print_stored _ _) => apply (ew_print_stored _ _ _ HR)
  | |- ends_well _ (print_identity _ _) => apply (ew_print_identity _ _ _ HR)
  | |- ends_well _ (signAuthChallenge _ _ _ _ _ _) =>
      apply (ew_signAuthChallenge _ _ _ HR); side
  | _ => ew_step HR side
  end.

Ltac ew_all HR side := repeat (cbv beta iota zeta; ew_more HR side).

Lemma closed_any_world {Ext : Type} :
  closed (fun _ _ : World Ext => True) (fun _ => True).
Proof. constructor; intros; exact I. Qed.

Lemma closed_calls_among {Ext : Type} (P : Call -> Prop) : closed (@calls_among Ext P) P.
Proof.
  constructor; unfold calls_among.
  - intros w. exists []. split; [symmetry; apply app_nil_r|constructor].
  - intros a b c (n1 & H1 & F1) (n2 & H2 & F2). exists (n1 ++ n2)%list. split.
    + rewrite H2, H1, app_assoc. reflexivity.
    + apply Forall_app. split; assumption.
  - intros l w. exists []. split; [symmetry; apply app_nil_r|constructor].
  - intros c e w Hc. exists [c]. split; [reflexivity|]. constructor; [exact Hc|constructor].
  - intros e w. exists []. split; [symmetry; apply app_nil_r|constructor].
  - intros w. exists []. split; [symmetry; apply app_nil_r|constructor].
  - intros k p e w. exists []. split; [symmetry; apply app_nil_r|constructor].
Qed.

Lemma write_ok_calls_among {Ext : Type} (P : Call -> Prop) : write_ok (@calls_among Ext P).
Proof. intros p c w. exists []. split; [symmetry; apply app_nil_r|constructor]. Qed.

Section HandlerInvariants.

Context {Ext : Type}.
Variable lib : Library Ext.
Variable more : MoreLibrary Ext.

Local Abbreviation World := (World Ext).

Lemma handler_exit (body : M Ext unit) (w : World) :
  ends_well (fun _ _ => True) body -> exit_0_or_1 (action body w).
Proof. intros Hb. exact (proj1 (action_exit _ _ closed_any_world body w Hb)). Qed.

Lemma handler_keeps (R : World -> World -> Prop) (allowed : Call -> Prop)
    (body : M Ext unit) (w : World) :
  closed R allowed -> ends_well R body -> R w (snd (action body w)).
Proof. intros HR Hb. exact (proj2 (action_exit _ _ HR body w Hb)). Qed.

(** X1. Every handler of the plugin ends in one of two ways, whatever the
    library and the file system do: it returns, and the process ends with
    exit code 0, or it calls [process.exit(1)].  No exception escapes a
    handler and no other exit code is used. *)
Theorem handlers_exit_0_or_1 (w : World) :
  (forall o, exit_0_or_1 (createOwnerCommand lib o w))
  /\ (forall o, exit_0_or_1 (createAgentCommand lib o w))
  /\ (forall o, exit_0_or_1 (identityListCommand lib more o w))
  /\ (forall o, exit_0_or_1 (identityInspectCommand lib o w))
  /\ (forall o, exit_0_or_1 (identityDeleteCommand lib more o w))
  /\ (forall o, exit_0_or_1 (signCommand lib o w))
  /\ (forall o, exit_0_or_1 (authVerifyCommand lib o w))
  /\ (forall o, exit_0_or_1 (issueOwnershipCommand lib more o w))
  /\ (forall o, exit_0_or_1 (issueCapabilityCommand lib o w))
  /\ (forall o, exit_0_or_1 (vcVerifyCommand lib o w))
  /\ (forall o, exit_0_or_1 (vcListCommand lib o w))
  /\ (forall o, exit_0_or_1 (vcDeleteCommand lib o w))
  /\ (forall o, exit_0_or_1 (vcInspectCommand lib o w)).
Proof.
  pose proof (@closed_any_world Ext) as HR.
  repeat split; intros o;
    unfold createOwnerCommand, createAgentCommand, identityListCommand,
      identityInspectCommand, identityDeleteCommand, signCommand, authVerifyCommand,
      issueOwnershipCommand, issueCapabilityCommand, vcVerifyCommand, vcListCommand,
      vcDeleteCommand, vcInspectCommand;
    apply handler_exit; ew_all HR ltac:(try (hnf; intros; exact I)).
Qed.

Ltac unfold_handlers :=
  unfold createOwnerCommand, createAgentCommand, identityListCommand,
    identityInspectCommand, identityDeleteCommand, signCommand, authVerifyCommand,
    issueOwnershipCommand, issueCapabilityCommand, vcVerifyCommand, vcListCommand,
    vcDeleteCommand, vcInspectCommand.

Ltac quiet_side :=
  first [apply write_ok_calls_among | intros; reflexivity].

(** X3. The handlers that only read: [identity inspect], [auth sign],
    [auth verify], [vc issue capability], [vc verify], [vc list] and
    [vc inspect] never call [storeIdentity] or [deleteCredential], however
    they end.  In particular a capability that was issued is printed or
    written to the file, and not stored in the keystore. *)
Theorem reading_handlers_change_no_keystore (w : World) :
  let quiet := calls_among (fun c => changes_keystore c = false) w in
  (forall o, quiet (snd (identityInspectCommand lib o w)))
  /\ (forall o, quiet (snd (signCommand lib o w)))
  /\ (forall o, quiet (snd (authVerifyCommand lib o w)))
  /\ (forall o, quiet (snd (issueCapabilityCommand lib o w)))
  /\ (forall o, quiet (snd (vcVerifyCommand lib o w)))
  /\ (forall o, quiet (snd (vcListCommand lib o w)))
  /\ (forall o, quiet (snd (vcInspectCommand lib o w))).
Proof.
  pose proof (@closed_calls_among Ext (fun c => changes_keystore c = false)) as HR.
  cbv zeta.
  repeat split; intros o; unfold_handlers;
    apply (handler_keeps _ _ _ _ HR); ew_all HR quiet_side.
Qed.

(** X4. [vc verify] and [auth verify] work without a keystore: the only
    call they make into the library is the verification itself, so no
    keystore object is constructed, however they end. *)
Theorem verifying_opens_no_keystore (w : World) :
  (forall o, calls_among (fun c => is_verification c = true) w
               (snd (vcVerifyCommand lib o w)))
  /\ (forall o, calls_among (fun c => is_verification c = true) w
                  (snd (authVerifyCommand lib o w))).
Proof.
  pose proof (@closed_calls_among Ext (fun c => is_verification c = true)) as HR.
  split; intros o; unfold_handlers;
    apply (handler_keeps _ _ _ _ HR); ew_all HR quiet_side.
Qed.

Ltac create_side := try (intros; hnf; cbn; repeat split; reflexivity).

(** X5. What the [create] commands ask of the library, however they end:
    both construct their keystore with validation; an identity that
    [create owner] stores is an owner of the name given and has no owner
    DID, and [create owner] looks no identity up; an identity that
    [create agent] stores is an agent of the name given whose owner DID is
    the [--owner] argument, and the only identity looked up is that
    owner.  Neither deletes anything. *)
Theorem create_commands_calls (w : World) :
  (forall o, calls_among (owner_calls (co_name o)) w (snd (createOwnerCommand lib o w)))
  /\ (forall o, calls_among (agent_calls (ca_name o) (ca_owner o)) w
                  (snd (createAgentCommand lib o w))).
Proof.
  split; intros o; unfold_handlers.
  - pose proof (@closed_calls_among Ext (owner_calls (co_name o))) as HR.
    apply (handler_keeps _ _ _ _ HR); ew_all HR create_side.
  - pose proof (@closed_calls_among Ext (agent_calls (ca_name o) (ca_owner o))) as HR.
    apply (handler_keeps _ _ _ _ HR); ew_all HR create_side.
Qed.

End HandlerInvariants.

(* ===================================================================== *)
(** ** Further properties: the keystore manager *)
(* ===================================================================== *)

Section ManagerProperties.

Context {Ext : Type}.
Variable lib : Library Ext.

Local Abbreviation World := (World Ext).

Lemma getPassphrase_never_exits (noEncryption : bool) (w w0 : World) (n : Z) :
  getPassphrase noEncryption w <> (Exit n, w0).
Proof.
  destruct noEncryption; cbv beta iota zeta delta [getPassphrase bind get_world].
  - discriminate.
  - destruct (env_AGENT_DID_PASSPHRASE w) as [p0|]; [destruct (String.eqb p0 "")|];
      discriminate.
Qed.

(** X11. [getNewKeystore] goes past the cache: it never reads or changes
    the cached instance, so what [getKeystore] answers from the cache is
    the same before and after; and when it returns, the keystore is a new
    object, constructed for the resolved path with validation on, which is
    not the cached one. *)
Theorem getNewKeystore_bypasses_cache (w w1 : World) (customPath : option string)
    (noEncryption : bool) (o : Outcome Keystore) :
  getNewKeystore lib customPath noEncryption w = (o, w1) ->
  (forall p ne, cached w1 p ne = cached w p ne)
  /\ match o with
     | Return k =>
         ks_id k = next_id w /\ ks_path k = getStorePath lib w customPath
         /\ ks_skipValidation k = false /\ next_id w1 = S (next_id w)
         /\ (fresh_ids w -> forall p ne, cached w p ne <> Some k)
     | Throw _ => next_id w1 = next_id w
     | Exit _ => False
     end.
Proof.
  cbv beta iota zeta delta [getNewKeystore bind get_world].
  destruct (getPassphrase noEncryption w) as [[pass|err|n] w0] eqn:Hp;
    try (pose proof (getPassphrase_pure _ _ _ _ Hp) as ->).
  - cbv beta iota zeta delta [new_Keystore bind call].
    destruct noEncryption, pass as [pass|]; simpl;
      destruct (Keystore_new lib (getStorePath lib w customPath) _ false (ext w))
        as [[[]|err] e1];
      intros H; injection H as <- <-; simpl;
      (split; [intros p ne; reflexivity|]); try reflexivity;
      repeat (split; [reflexivity|]);
      intros Hfresh p ne Hc; apply cached_Some in Hc; destruct Hc as (Hi & _);
      apply Hfresh in Hi; simpl in Hi; lia.
  - intros H; injection H as <- <-. split; [intros p ne; reflexivity|reflexivity].
  - contradiction (getPassphrase_never_exits _ _ _ _ Hp).
Qed.

(** X12. [clearCache] empties the cache and changes nothing else: the
    environment, the files, the console, the record of library calls, what
    the library keeps and the next object identity are as before.  After
    it no path and no mode is answered from the cache, so the next
    [getKeystore] that returns has constructed a new keystore object,
    which is not the one that was cached, and has made it the cached
    one. *)
Theorem clearCache_forces_reopen (w : World) :
  let w0 := snd (clearCache w) in
  fst (clearCache w) = Return tt
  /\ (mgr_instance w0 = None /\ mgr_currentPath w0 = None
      /\ mgr_currentEncryption w0 = None)
  /\ (env_AGENT_DID_PASSPHRASE w0 = env_AGENT_DID_PASSPHRASE w
      /\ env_AGENT_DID_HOME w0 = env_AGENT_DID_HOME w
      /\ files w0 = files w /\ console w0 = console w /\ calls w0 = calls w
      /\ ext w0 = ext w /\ next_id w0 = next_id w)
  /\ (forall p ne, cached w0 p ne = None)
  /\ clearCache w0 = (Return tt, w0)
  /\ (forall customPath noEncryption o w1,
        getKeystore lib customPath noEncryption w0 = (o, w1) ->
        match o with
        | Return k =>
            ks_id k = next_id w /\ ks_path k = getStorePath lib w customPath
            /\ (fresh_ids w -> mgr_instance w <> Some k)
            /\ calls w1 = (calls w ++ [CallNewKeystore (ks_path k) (ks_passphrase k) true])%list
            /\ cached w1 (getStorePath lib w customPath) noEncryption = Some k
        | Throw _ => forall p ne, cached w1 p ne = None
        | Exit _ => False
        end).
Proof.
  cbv zeta. split; [reflexivity|].
  split; [repeat split|]. split; [repeat split|].
  split; [reflexivity|]. split; [reflexivity|].
  intros customPath noEncryption o w1.
  cbv beta iota zeta delta [getKeystore bind get_world].
  change (cached (snd (clearCache w)) (getStorePath lib (snd (clearCache w)) customPath)
            noEncryption) with (@None Keystore).
  change (getStorePath lib (snd (clearCache w)) customPath)
    with (getStorePath lib w customPath).
  cbv beta iota.
  destruct (getPassphrase noEncryption (snd (clearCache w))) as [[pass|e|n] w0] eqn:Hp;
    try (pose proof (getPassphrase_pure _ _ _ _ Hp) as ->).
  - cbv beta iota zeta delta [new_Keystore bind call].
    destruct noEncryption, pass as [pass|]; simpl;
      match goal with
      | |- context [Keystore_new lib ?a ?b ?c ?e] =>
          destruct (Keystore_new lib a b c e) as [[[]|err] e1]
      end;
      intros H; injection H as <- <-; simpl;
      try (intros p ne; reflexivity);
      (split; [reflexivity|]); (split; [reflexivity|]);
      (split; [intros Hfresh Hi; apply Hfresh in Hi; simpl in Hi; lia|]);
      (split; [reflexivity|]);
      unfold cached; simpl; rewrite String.eqb_refl; reflexivity.
  - intros H; injection H as <- <-. intros p ne. reflexivity.
  - contradiction (getPassphrase_never_exits _ _ _ _ Hp).
Qed.

End ManagerProperties.

(* ===================================================================== *)
(** ** Further properties: the handlers, path by path *)
(* ===================================================================== *)

(** The report of an error that is classified as not found. *)
Lemma formatError_not_found (msg : string) :
  includes "Passphrase required" msg = false ->
  includes "Invalid passphrase" msg = false ->
  includes "not found" msg = true ->
  formatError (normalizeError (ThrownError msg))
  = ("❌ Error: " ++ msg) ++ nl ++ "   Code: NOT_FOUND".
Proof.
  intros H1 H2 H3. unfold normalizeError. rewrite H1, H2, H3. reflexivity.
Qed.

Lemma identity_not_found_report (did : string) :
  includes "Passphrase required" did = false ->
  includes "Invalid passphrase" did = false ->
  formatError (normalizeError (ThrownError (identity_not_found did)))
  = ("❌ Error: " ++ identity_not_found did) ++ nl ++ "   Code: NOT_FOUND".
Proof.
  intros H1 H2. apply formatError_not_found.
  - unfold identity_not_found. cbn. exact H1.
  - unfold identity_not_found. cbn. exact H2.
  - exact (includes_inside "not found" "Identity " (": " ++ did)).
Qed.

(** Unfold the plumbing, with the calls of [MoreLibrary]. *)
Ltac run_more :=
  cbv beta iota zeta delta
    [bind ret throw throw_Error try_catch action report_and_exit console_log
     console_error process_exit call invoke as_string lift_res get_world fs_existsSync
     fs_readFileSync fs_writeFileSync when].

Ltac go H := rewrite H; cbv beta iota zeta delta [negb]; cbn [ext record_call].

Section HandlerPaths.

Context {Ext : Type}.
Variable lib : Library Ext.
Variable more : MoreLibrary Ext.

Local Abbreviation World := (World Ext).

(** X13. [identity inspect], once the keystore is open and initialised.
    When the DID resolves to no identity the handler exits with code 1
    and prints the error with the code NOT_FOUND (for a DID that does not
    itself hold one of the two passphrase phrases).  When it resolves,
    [--json] prints one object: the identity's did, name, type and
    createdAt, the key id made from the DID, and the owner DID exactly
    when the identity has one. *)
Theorem identityInspect_report (o : IdentityInspectOptions) (w w1 : World)
    (keystore : Keystore) (e2 e3 : Ext) (who : Val) :
  getKeystore lib (ii_store o) (negb (ii_encryption o)) w = (Return keystore, w1) ->
  Keystore_init lib keystore (ext w1) = (Ok tt, e2) ->
  Keystore_getIdentity lib keystore (ii_did o) e2 = (Ok who, e3) ->
  let w3 :=
    record_call (CallGetIdentity keystore (ii_did o)) e3
      (record_call (CallInit keystore) e2 w1) in
  (truthy who = false ->
   includes "Passphrase required" (ii_did o) = false ->
   includes "Invalid passphrase" (ii_did o) = false ->
   identityInspectCommand lib o w
   = (Exit 1,
      add_line (Err (("❌ Error: " ++ identity_not_found (ii_did o))
                     ++ nl ++ "   Code: NOT_FOUND")) w3))
  /\ (forall did,
        truthy who = true -> field "did" who = VStr did -> ii_json o = true ->
        identityInspectCommand lib o w
        = (Return tt,
           add_line
             (Out (outputJson
                     (VObj ([("did", VStr did); ("kid", VStr (kid_of did));
                             ("name", field "name" who); ("type", field "type" who);
                             ("createdAt", field "createdAt" who)]
                            ++ (if truthy (field "ownerDid" who)
                                then [("ownerDid", field "ownerDid" who)]
                                else []))%list))) w3)).
Proof.
  intros Hks Hinit Hget w3. split.
  - intros Hfalsy Hp Hi.
    unfold identityInspectCommand. run_more.
    go Hks. go Hinit. go Hget. go Hfalsy.
    rewrite (identity_not_found_report _ Hp Hi). reflexivity.
  - intros did Htruthy Hdid Hjson.
    unfold identityInspectCommand. run_more.
    go Hks. go Hinit. go Hget. go Htruthy. go Hdid. go Hjson. reflexivity.
Qed.

(** X14. [identity delete], once the keystore is open and initialised,
    asks for no confirmation.  When the DID resolves to no identity it
    exits with code 1 and [deleteIdentity] is not called: what the library
    keeps is as the lookup left it.  When it resolves, [deleteIdentity] is
    called for that DID, once: if it succeeds the handler returns and
    reports the deletion, and if it fails the handler prints the error and
    exits with code 1. *)
Theorem identityDelete_deletes_found_only (o : IdentityDeleteOptions) (w w1 : World)
    (keystore : Keystore) (e2 e3 : Ext) (who : Val) :
  getKeystore lib (id_store o) (negb (id_encryption o)) w = (Return keystore, w1) ->
  Keystore_init lib keystore (ext w1) = (Ok tt, e2) ->
  Keystore_getIdentity lib keystore (id_did o) e2 = (Ok who, e3) ->
  let r := identityDeleteCommand lib more o w in
  (truthy who = false ->
   fst r = Exit 1 /\ ext (snd r) = e3
   /\ console (snd r)
      = (console w1
         ++ [Err (formatError (normalizeError (ThrownError (identity_not_found (id_did o)))))])%list)
  /\ (truthy who = true ->
      forall res e4,
        Keystore_deleteIdentity more keystore (id_did o) e3 = (res, e4) ->
        ext (snd r) = e4
        /\ match res with
           | Ok _ =>
               fst r = Return tt
               /\ console (snd r)
                  = (console w1
                     ++ [Out (if id_json o
                              then outputJson (VObj [("success", VBool true);
                                                     ("did", VStr (id_did o))])
                              else "✓ Identity deleted: " ++ js_String (field "name" who)
                                   ++ " (" ++ formatDid (id_did o) 60 ++ ")")])%list
           | Fail err =>
               fst r = Exit 1
               /\ console (snd r)
                  = (console w1 ++ [Err (formatError (normalizeError err))])%list
           end).
Proof.
  intros Hks Hinit Hget r. subst r. split.
  - intros Hfalsy.
    unfold identityDeleteCommand. run_more.
    go Hks. go Hinit. go Hget. go Hfalsy. repeat split.
  - intros Htruthy res e4 Hdel.
    unfold identityDeleteCommand. run_more.
    go Hks. go Hinit. go Hget. go Htruthy. go Hdel.
    destruct res as [[]|err]; [destruct (id_json o)|]; repeat split.
Qed.

(** X15. [create owner], once the keystore is open and initialised and
    [generateKeyPair] has answered.  If the answer is null or undefined,
    reading its public key throws: the handler exits with code 1 and
    nothing is stored.  Else, with the DID of the public key: the identity
    handed to [storeIdentity] is the one reported (same DID, name, type
    owner and creation time), and it is reported only after it was stored.
    If storing fails, nothing is printed but the error, and the exit code
    is 1.  With [--json] the report is the one JSON object; the reminder to
    keep the passphrase is printed only without [--json] and only when the
    keystore is encrypted. *)
Theorem createOwner_stores_then_reports (o : CreateOwnerOptions) (w w1 : World)
    (keystore : Keystore) (e2 e3 : Ext) (keyPair : Val) :
  getNewKeystore lib (co_store o) (negb (co_encryption o)) w = (Return keystore, w1) ->
  Keystore_init lib keystore (ext w1) = (Ok tt, e2) ->
  generateKeyPair lib e2 = (Ok keyPair, e3) ->
  let w3 := record_call CallGenerateKeyPair e3 (record_call (CallInit keystore) e2 w1) in
  (readable keyPair = false ->
   exists msg,
     createOwnerCommand lib o w
     = (Exit 1, add_line (Err (formatError (normalizeError (ThrownError msg)))) w3))
  /\ (readable keyPair = true ->
      forall (did : string) (e4 : Ext),
        publicKeyToDidKey lib (field "publicKey" keyPair) e3 = (Ok did, e4) ->
        let createdAt := now_toISOString lib e4 in
        let metadata :=
          VObj [("did", VStr did); ("type", VStr "owner"); ("name", VStr (co_name o));
                ("createdAt", VStr createdAt)] in
        let output :=
          VObj [("did", VStr did); ("kid", VStr (kid_of did)); ("name", VStr (co_name o));
                ("type", VStr "owner"); ("createdAt", VStr createdAt)] in
        let store := CallStoreIdentity keystore metadata keyPair in
        let w4 := record_call (CallPublicKeyToDidKey (field "publicKey" keyPair)) e4 w3 in
        (forall e5,
           Keystore_storeIdentity lib keystore metadata keyPair e4 = (Ok tt, e5) ->
           createOwnerCommand lib o w
           = (Return tt,
              add_lines
                (Out (formatOutput output (co_json o))
                 :: (if co_json o then []
                     else Out (nl ++ "✓ Owner identity created successfully")
                          :: (if co_encryption o
                              then [Out "IMPORTANT: Store your passphrase securely. It cannot be recovered."]
                              else [])))
                (record_call store e5 w4)))
        /\ (forall err e5,
              Keystore_storeIdentity lib keystore metadata keyPair e4 = (Fail err, e5) ->
              createOwnerCommand lib o w
              = (Exit 1,
                 add_line (Err (formatError (normalizeError err))) (record_call store e5 w4)))).
Proof.
  intros Hks Hinit Hgen w3. split.
  - intros Hnull.
    destruct (prop_unreadable "publicKey" keyPair w3 Hnull) as [msg Hprop].
    exists msg. unfold createOwnerCommand. run_more.
    go Hks. go Hinit. go Hgen. fold w3. rewrite Hprop. reflexivity.
  - intros Hread did e4 Hdid createdAt metadata output store w4. split.
    + intros e5 Hstore.
      unfold createOwnerCommand. run_more.
      go Hks. go Hinit. go Hgen. fold w3. rewrite (prop_readable _ _ _ Hread).
      cbv beta iota. subst w3. cbn [ext record_call]. go Hdid.
      fold createdAt. fold metadata. go Hstore.
      destruct (co_json o), (co_encryption o); reflexivity.
    + intros err e5 Hstore.
      unfold createOwnerCommand. run_more.
      go Hks. go Hinit. go Hgen. fold w3. rewrite (prop_readable _ _ _ Hread).
      cbv beta iota. subst w3. cbn [ext record_call]. go Hdid.
      fold createdAt. fold metadata. go Hstore. reflexivity.
Qed.

(** X16. [create agent], once the keystore is open, the [--owner] DID has
    resolved to an identity of type owner and [generateKeyPair] has
    answered.  If the answer is null or undefined, reading its public key
    throws: the handler exits with code 1 and nothing is stored.  Else the
    identity handed to [storeIdentity] is an agent with that owner DID, and
    it is the one reported, after it was stored.  If storing fails,
    nothing is printed but the error, and the exit code is 1. *)
Theorem createAgent_stores_then_reports (o : CreateAgentOptions) (w w1 : World)
    (keystore : Keystore) (e2 e3 e4 : Ext) (ownerIdentity keyPair : Val) :
  getNewKeystore lib (ca_store o) (negb (ca_encryption o)) w = (Return keystore, w1) ->
  Keystore_init lib keystore (ext w1) = (Ok tt, e2) ->
  Keystore_getIdentity lib keystore (ca_owner o) e2 = (Ok ownerIdentity, e3) ->
  truthy ownerIdentity = true ->
  is_string "owner" (field "type" ownerIdentity) = true ->
  generateKeyPair lib e3 = (Ok keyPair, e4) ->
  let w4 :=
    record_call CallGenerateKeyPair e4
      (record_call (CallGetIdentity keystore (ca_owner o)) e3
         (record_call (CallInit keystore) e2 w1)) in
  (readable keyPair = false ->
   exists msg,
     createAgentCommand lib o w
     = (Exit 1, add_line (Err (formatError (normalizeError (ThrownError msg)))) w4))
  /\ (readable keyPair = true ->
      forall (did : string) (e5 : Ext),
        publicKeyToDidKey lib (field "publicKey" keyPair) e4 = (Ok did, e5) ->
        let createdAt := now_toISOString lib e5 in
        let metadata :=
          VObj [("did", VStr did); ("type", VStr "agent"); ("name", VStr (ca_name o));
                ("createdAt", VStr createdAt); ("ownerDid", VStr (ca_owner o))] in
        let output :=
          VObj [("did", VStr did); ("kid", VStr (kid_of did)); ("name", VStr (ca_name o));
                ("type", VStr "agent"); ("ownerDid", VStr (ca_owner o));
                ("createdAt", VStr createdAt)] in
        let store := CallStoreIdentity keystore metadata keyPair in
        let w5 := record_call (CallPublicKeyToDidKey (field "publicKey" keyPair)) e5 w4 in
        (forall e6,
           Keystore_storeIdentity lib keystore metadata keyPair e5 = (Ok tt, e6) ->
           createAgentCommand lib o w
           = (Return tt,
              add_lines
                (Out (formatOutput output (ca_json o))
                 :: (if ca_json o then []
                     else Out (nl ++ "✓ Agent identity created successfully")
                          :: (if ca_encryption o
                              then [Out "IMPORTANT: Store your passphrase securely. It cannot be recovered."]
                              else [])))
                (record_call store e6 w5)))
        /\ (forall err e6,
              Keystore_storeIdentity lib keystore metadata keyPair e5 = (Fail err, e6) ->
              createAgentCommand lib o w
              = (Exit 1,
                 add_line (Err (formatError (normalizeError err))) (record_call store e6 w5)))).
Proof.
  intros Hks Hinit Hget Htruthy Howner Hgen w4. split.
  - intros Hnull.
    destruct (prop_unreadable "publicKey" keyPair w4 Hnull) as [msg Hprop].
    exists msg. unfold createAgentCommand. run_more.
    go Hks. go Hinit. go Hget. go Htruthy. go Howner. go Hgen.
    fold w4. rewrite Hprop. reflexivity.
  - intros Hread did e5 Hdid createdAt metadata output store w5. split.
    + intros e6 Hstore.
      unfold createAgentCommand. run_more.
      go Hks. go Hinit. go Hget. go Htruthy. go Howner. go Hgen.
      fold w4. rewrite (prop_readable _ _ _ Hread).
      cbv beta iota. subst w4. cbn [ext record_call]. go Hdid.
      fold createdAt. fold metadata. go Hstore.
      destruct (ca_json o), (ca_encryption o); reflexivity.
    + intros err e6 Hstore.
      unfold createAgentCommand. run_more.
      go Hks. go Hinit. go Hget. go Htruthy. go Howner. go Hgen.
      fold w4. rewrite (prop_readable _ _ _ Hread).
      cbv beta iota. subst w4. cbn [ext record_call]. go Hdid.
      fold createdAt. fold metadata. go Hstore. reflexivity.
Qed.

(** X17. [vc issue ownership], once the keystore is open and initialised.
    The issuer must resolve to an identity of type owner: otherwise the
    handler exits with code 1 after the lookup, before the subject is
    looked up and before any credential is made, and writes no file.  The
    subject need not be in the keystore: whatever its lookup returns, the
    credential is made (with the subject's name and creation time when it
    is known), signed with the issuer's keys, and then either written to
    the [--out] file, in which case the token is not printed, or printed.
    If writing the file fails, the handler prints that error and exits
    with code 1, and the token is neither written nor printed. *)
Theorem issueOwnership_issues (o : IssueOwnershipOptions) (w w1 : World)
    (keystore : Keystore) (e2 e3 : Ext) (issuerIdentity : Val) :
  getKeystore lib (io_store o) (negb (io_encryption o)) w = (Return keystore, w1) ->
  Keystore_init lib keystore (ext w1) = (Ok tt, e2) ->
  Keystore_getIdentity lib keystore (io_issuer o) e2 = (Ok issuerIdentity, e3) ->
  let r := issueOwnershipCommand lib more o w in
  (truthy issuerIdentity = false \/ is_string "owner" (field "type" issuerIdentity) = false ->
   fst r = Exit 1 /\ ext (snd r) = e3 /\ files (snd r) = files w1
   /\ calls (snd r)
      = (calls w1 ++ [CallInit keystore; CallGetIdentity keystore (io_issuer o)])%list)
  /\ (truthy issuerIdentity = true ->
      is_string "owner" (field "type" issuerIdentity) = true ->
      forall subjectIdentity e4 credential e5 keyPair e6 jwt e7,
        Keystore_getIdentity lib keystore (io_subject o) e3 = (Ok subjectIdentity, e4) ->
        createOwnershipCredential more (io_issuer o) (io_subject o)
          (VObj [("name", optional_chain "name" subjectIdentity);
                 ("createdAt", optional_chain "createdAt" subjectIdentity)]) e4
          = (Ok credential, e5) ->
        Keystore_getKeyPair lib keystore (io_issuer o) e5 = (Ok keyPair, e6) ->
        truthy keyPair = true ->
        signCredential lib credential (field "privateKey" keyPair)
          (field "publicKey" keyPair) e6 = (Ok jwt, e7) ->
        ext (snd r) = e7
        /\ match opt_truthy (io_out o) with
           | Some out =>
               match writeFile_error lib (path_resolve lib out) e7 with
               | None =>
                   fst r = Return tt
                   /\ files (snd r) = (path_resolve lib out, jwt) :: files w1
                   /\ console (snd r)
                      = (console w1
                         ++ [Out (if io_json o
                                  then outputJson
                                         (VObj [("success", VBool true);
                                                ("file", VStr (path_resolve lib out))])
                                  else "✓ Ownership credential issued and saved to: "
                                       ++ path_resolve lib out)])%list
               | Some err =>
                   fst r = Exit 1
                   /\ files (snd r) = files w1
                   /\ console (snd r)
                      = (console w1 ++ [Err (formatError (normalizeError err))])%list
               end
           | None =>
               fst r = Return tt
               /\ files (snd r) = files w1
               /\ console (snd r)
                  = (console w1
                     ++ [Out (if io_json o then outputJson (VObj [("jwt", VStr jwt)])
                              else jwt)])%list
           end).
Proof.
  intros Hks Hinit Hget r. subst r. split.
  - intros Hbad.
    unfold issueOwnershipCommand. run_more.
    go Hks. go Hinit. go Hget.
    destruct (truthy issuerIdentity) eqn:Ht; cbv beta iota zeta.
    + destruct Hbad as [Hbad|Hbad]; [discriminate Hbad|].
      go Hbad. cbn. rewrite <- app_assoc. repeat split.
    + cbn. rewrite <- app_assoc. repeat split.
  - intros Htruthy Howner subjectIdentity e4 credential e5 keyPair e6 jwt e7
      Hsubject Hcreate Hpair Hkp Hsign.
    unfold issueOwnershipCommand. run_more.
    go Hks. go Hinit. go Hget. go Htruthy. go Howner. go Hsubject.
    cbn [ext]. go Hcreate. cbn [ext]. go Hpair. go Hkp. go Hsign.
    destruct (opt_truthy (io_out o)) as [out|]; cbv beta iota zeta;
      cbn [ext record_call];
      [destruct (writeFile_error lib (path_resolve lib out) e7)|];
      destruct (io_json o); repeat split.
Qed.

(** [vc verify] on a file that exists: [verifyCredential] gets the
    content, trimmed. *)
Lemma vcVerify_runs (vo : VcVerifyOptions) (w : World) (content : string)
    (res : Res Val) (e1 : Ext) :
  assoc (path_resolve lib (vv_file vo)) (files w) = Some content ->
  verifyCredential lib (trim content) (vcVerify_opts vo) (ext w) = (res, e1) ->
  match res with
  | Ok result =>
      vv_json vo = true ->
      vcVerifyCommand lib vo w
      = (Return tt,
         add_line (Out (outputJson result))
           (record_call (CallVerifyCredential (trim content) (vcVerify_opts vo)) e1 w))
  | Fail err =>
      vcVerifyCommand lib vo w
      = (Exit 1,
         add_line (Err (formatError (normalizeError err)))
           (record_call (CallVerifyCredential (trim content) (vcVerify_opts vo)) e1 w))
  end.
Proof.
  intros Hfile Hver.
  unfold vcVerifyCommand. run_more. go Hfile. go Hfile. go Hver.
  destruct res as [result|err]; [intros Hjson; rewrite Hjson|]; reflexivity.
Qed.

(** X18. A capability issued to a file can be verified from that file:
    when [vc issue capability --out F] has made and signed a token (of
    ASCII characters, as a token of base64url parts is) and the file [F]
    can be written, the handler returns and [F] holds the token; a
    [vc verify --file F] run next hands [verifyCredential] that token,
    trimmed, and reports what it answers: with [--json] the result object,
    exit code 0; if the library throws, the error and exit code 1. *)
Theorem issue_then_verify (o : IssueCapabilityOptions) (vo : VcVerifyOptions)
    (w w1 : World) (keystore : Keystore) (e2 e3 e4 e5 e6 : Ext)
    (issuerIdentity credential keyPair : Val) (jwt out : string) :
  getKeystore lib (ic_store o) (negb (ic_encryption o)) w = (Return keystore, w1) ->
  Keystore_init lib keystore (ext w1) = (Ok tt, e2) ->
  Keystore_getIdentity lib keystore (ic_issuer o) e2 = (Ok issuerIdentity, e3) ->
  truthy issuerIdentity = true ->
  is_string "owner" (field "type" issuerIdentity) = true ->
  createCapabilityCredential_checked lib (ic_issuer o) (ic_subject o)
    (parse_scopes (ic_scopes o)) (capability_opts o) e3 = (Ok credential, e4) ->
  Keystore_getKeyPair lib keystore (ic_issuer o) e4 = (Ok keyPair, e5) ->
  truthy keyPair = true ->
  signCredential lib credential (field "privateKey" keyPair) (field "publicKey" keyPair) e5
    = (Ok jwt, e6) ->
  ascii_only jwt = true ->
  opt_truthy (ic_out o) = Some out ->
  writeFile_error lib (path_resolve lib out) e6 = None ->
  path_resolve lib (vv_file vo) = path_resolve lib out ->
  let issued := issueCapabilityCommand lib o w in
  let verified := vcVerifyCommand lib vo (snd issued) in
  let verifying := CallVerifyCredential (trim jwt) (vcVerify_opts vo) in
  fst issued = Return tt
  /\ assoc (path_resolve lib out) (files (snd issued)) = Some jwt
  /\ ext (snd issued) = e6
  /\ forall res e7,
       verifyCredential lib (trim jwt) (vcVerify_opts vo) e6 = (res, e7) ->
       match res with
       | Ok result =>
           vv_json vo = true ->
           verified
           = (Return tt, add_line (Out (outputJson result)) (record_call verifying e7 (snd issued)))
       | Fail err =>
           verified
           = (Exit 1,
              add_line (Err (formatError (normalizeError err)))
                (record_call verifying e7 (snd issued)))
       end.
Proof.
  intros Hks Hinit Hget Htruthy Howner Hcreate Hpair Hkp Hsign _ Hout Hwrite Hpath
    issued verified verifying.
  assert (Hissued : fst issued = Return tt
                    /\ assoc (path_resolve lib out) (files (snd issued)) = Some jwt
                    /\ ext (snd issued) = e6).
  { subst issued. unfold issueCapabilityCommand. run_more.
    go Hks. go Hinit. go Hget. go Htruthy. go Howner. go Hcreate. go Hpair. go Hkp.
    go Hsign. go Hout. go Hwrite.
    destruct (ic_json o); cbn; rewrite String.eqb_refl; repeat split. }
  destruct Hissued as (Hfst & Hfile & Hext).
  split; [exact Hfst|]. split; [exact Hfile|]. split; [exact Hext|].
  intros res e7 Hver. subst verified verifying.
  rewrite <- Hpath in Hfile. rewrite <- Hext in Hver.
  exact (vcVerify_runs vo (snd issued) jwt res e7 Hfile Hver).
Qed.

(** X19. [vc verify] and [vc inspect] on a path where no file is: the
    handler prints the file-not-found error for the resolved path and
    exits with code 1, and nothing else happens: no call into the
    library.  The error carries the code NOT_FOUND (for a path that does
    not itself hold one of the two passphrase phrases). *)
Theorem missing_file_is_reported (w : World) :
  (forall vo,
     assoc (path_resolve lib (vv_file vo)) (files w) = None ->
     vcVerifyCommand lib vo w
     = (Exit 1,
        add_line (Err (formatError (normalizeError
                         (ThrownError ("File not found: " ++ path_resolve lib (vv_file vo))))))
          w))
  /\ (forall vi,
        assoc (path_resolve lib (vi_file vi)) (files w) = None ->
        vcInspectCommand lib vi w
        = (Exit 1,
           add_line (Err (formatError (normalizeError
                            (ThrownError ("File not found: " ++ path_resolve lib (vi_file vi))))))
             w))
  /\ (forall path,
        includes "Passphrase required" path = false ->
        includes "Invalid passphrase" path = false ->
        formatError (normalizeError (ThrownError ("File not found: " ++ path)))
        = ("❌ Error: " ++ "File not found: " ++ path) ++ nl ++ "   Code: NOT_FOUND").
Proof.
  split; [|split].
  - intros vo Hfile. unfold vcVerifyCommand. run_more. go Hfile. reflexivity.
  - intros vi Hfile. unfold vcInspectCommand. run_more. go Hfile. reflexivity.
  - intros path H1 H2. apply formatError_not_found.
    + cbn. exact H1.
    + cbn. exact H2.
    + exact (includes_inside "not found" "File " (": " ++ path)).
Qed.

(** X20. [auth verify --json] prints the result of [verifyAuthChallenge]
    on standard output whether the signature is valid or not, and its exit
    code is 0 exactly when the result is valid.  A result that is null or
    undefined is printed too, and reading its [valid] then throws: the
    TypeError is printed and the exit code is 1.  If the library throws,
    the error is printed and the exit code is 1. *)
Theorem authVerify_json_exit_code (o : AuthVerifyOptions) (w : World)
    (res : Res Val) (e1 : Ext) :
  av_json o = true ->
  verifyAuthChallenge lib (av_did o) (av_payload o) (av_signature o) (authVerify_opts o)
    (ext w) = (res, e1) ->
  let w1 :=
    record_call (CallVerifyAuthChallenge (av_did o) (av_payload o) (av_signature o)
                   (authVerify_opts o)) e1 w in
  authVerifyCommand lib o w
  = match res with
    | Ok result =>
        if readable result then
          (if truthy (field "valid" result) then Return tt else Exit 1,
           add_line (Out (outputJson result)) w1)
        else
          (Exit 1,
           add_line
             (Err (formatError (normalizeError
                     (ThrownError ("Cannot read properties of " ++ js_String result
                                   ++ " (reading 'valid')")))))
             (add_line (Out (outputJson result)) w1))
    | Fail err => (Exit 1, add_line (Err (formatError (normalizeError err))) w1)
    end.
Proof.
  intros Hjson Hver w1.
  unfold authVerifyCommand. run_more. go Hver.
  destruct res as [result|err]; [|reflexivity].
  go Hjson. unfold prop.
  destruct result as [| |b|n|t|items|fs]; try reflexivity;
    cbn [readable field]; run_more;
    match goal with
    | |- context [truthy ?v] => destruct (truthy v); reflexivity
    end.
Qed.

(** X21. [vc delete --yes], once the keystore is open: [deleteCredential]
    is called for the id, with no [init] and no existence test before it.
    With [--json] the handler prints what the library answered and
    returns, so the exit code is 0 also when nothing was deleted; without
    [--json] a credential that was not found gives exit code 1. *)
Theorem vcDelete_confirmed (o : VcDeleteOptions) (w w1 : World) (keystore : Keystore)
    (res : Res bool) (e2 : Ext) :
  vd_yes o = true ->
  getKeystore lib (vd_store o) (negb (vd_encryption o)) w = (Return keystore, w1) ->
  Keystore_deleteCredential lib keystore (vd_id o) (ext w1) = (res, e2) ->
  let w2 := record_call (CallDeleteCredential keystore (vd_id o)) e2 w1 in
  vcDeleteCommand lib o w
  = match res with
    | Ok deleted =>
        if vd_json o then
          (Return tt,
           add_line (Out (outputJson (VObj [("deleted", VBool deleted);
                                            ("id", VStr (vd_id o))]))) w2)
        else if deleted then
          (Return tt, add_line (Out ("✓ Credential deleted: " ++ vd_id o)) w2)
        else
          (Exit 1, add_line (Err ("✗ Credential not found: " ++ vd_id o)) w2)
    | Fail err => (Exit 1, add_line (Err (formatError (normalizeError err))) w2)
    end.
Proof.
  intros Hyes Hks Hdel w2.
  unfold vcDeleteCommand. run_more. rewrite Hyes. cbn [negb]. cbv beta iota.
  go Hks. go Hdel.
  destruct res as [deleted|err]; [|reflexivity].
  destruct (vd_json o); [reflexivity|]. destruct deleted; reflexivity.
Qed.

Lemma add_lines_app (a b : list Line) (w : World) :
  add_lines (a ++ b) w = add_lines b (add_lines a w).
Proof. unfold add_lines. apply fold_left_app. Qed.

Lemma console_add_lines (ls : list Line) (w : World) :
  console (add_lines ls w) = (console w ++ ls)%list.
Proof.
  revert w. induction ls as [|l ls IH]; intros w; simpl.
  - symmetry. apply app_nil_r.
  - rewrite IH. simpl. rewrite <- app_assoc. reflexivity.
Qed.

(** A loop whose every turn returns after printing some lines. *)
Lemma for_each_lines {A : Type} (f : A -> M Ext unit) (g : A -> list Line) (l : list A) :
  (forall x, In x l -> forall w, f x w = (Return tt, add_lines (g x) w)) ->
  forall w, for_each f l w = (Return tt, add_lines (flat_map g l) w).
Proof.
  induction l as [|x l IH]; intros Hf w; [reflexivity|].
  cbn [for_each flat_map]. unfold bind. rewrite (Hf x (or_introl eq_refl)).
  rewrite add_lines_app. apply IH. intros y Hy. apply Hf. right. exact Hy.
Qed.

Lemma print_stored_without_token (item : Val) (w : World) :
  readable item = true ->
  truthy (extractJwt (field "data" item)) = false ->
  print_stored lib item w = (Return tt, add_lines (stored_lines item) w).
Proof.
  intros Hread Hno. unfold print_stored. run_more.
  rewrite (prop_readable _ _ _ Hread). cbv beta iota. rewrite Hno. reflexivity.
Qed.

(** X23. [vc list] on a keystore that exists.  With [--json] it prints the
    stored records as the library returned them, as one JSON array, the
    empty array when there are none.  Without [--json] it says so when
    there are none, and else prints the count (credential for one,
    credentials otherwise) and then one block for each record; a record
    (not null, its ID a string) that holds no token is not skipped and does
    not stop the listing: its block is its ID and an empty line.  A record that
    is null or undefined does stop it: reading its data throws, and the
    handler exits with code 1. *)
Theorem vcList_lists_stored (o : VcListOptions) (w w1 : World) (keystore : Keystore)
    (e2 e3 : Ext) (stored : list Val) :
  getKeystore lib (vl_store o) (negb (vl_encryption o)) w = (Return keystore, w1) ->
  Keystore_exists lib keystore (ext w1) = (Ok true, e2) ->
  Keystore_listCredentials lib keystore e2 = (Ok stored, e3) ->
  let w3 :=
    record_call (CallListCredentials keystore) e3 (record_call (CallExists keystore) e2 w1) in
  (vl_json o = true ->
   vcListCommand lib o w = (Return tt, add_line (Out (outputJson (VArr stored))) w3))
  /\ (vl_json o = false ->
      Forall (fun item => readable item = true
                          /\ is_str (field "id" item) = true
                          /\ truthy (extractJwt (field "data" item)) = false) stored ->
      vcListCommand lib o w
      = (Return tt,
         add_lines
           (match stored with
            | [] => [Out "No credentials found."]
            | _ =>
                Out (nl ++ "Found " ++ string_of_Z (Z.of_nat (List.length stored))
                     ++ " credential"
                     ++ (if Nat.eqb (List.length stored) 1 then "" else "s")
                     ++ ":" ++ nl)
                :: flat_map stored_lines stored
            end) w3))
  /\ (vl_json o = false ->
      forall item rest,
        stored = item :: rest -> readable item = false ->
        fst (vcListCommand lib o w) = Exit 1).
Proof.
  intros Hks Hex Hlist w3. split; [|split].
  - intros Hjson. unfold vcListCommand. run_more. go Hks. go Hex. go Hlist.
    rewrite Hjson. destruct stored; reflexivity.
  - intros Hjson Hno. unfold vcListCommand. run_more. go Hks. go Hex. go Hlist.
    rewrite Hjson. destruct stored as [|item rest]; [reflexivity|].
    cbv beta iota.
    rewrite (for_each_lines (print_stored lib) stored_lines (item :: rest)).
    + reflexivity.
    + intros x Hx v. rewrite Forall_forall in Hno.
      destruct (Hno x Hx) as [Hread [_ Hnone]].
      apply print_stored_without_token; assumption.
  - intros Hjson item rest -> Hnull.
    unfold vcListCommand. run_more. go Hks. go Hex. go Hlist.
    rewrite Hjson. cbv beta iota. cbn [for_each]. unfold print_stored. run_more.
    match goal with
    | |- context [prop "data" item ?v] =>
        destruct (prop_unreadable "data" item v Hnull) as [msg ->]
    end.
    reflexivity.
Qed.

Lemma print_identity_well_formed (who : Val) (w : World) :
  well_formed_identity who = true ->
  print_identity lib who w = (Return tt, add_lines (identity_lines lib who) w).
Proof.
  unfold well_formed_identity, identity_lines, print_identity. intros Hwf.
  apply andb_prop in Hwf. destruct Hwf as [Hwf Howner].
  apply andb_prop in Hwf. destruct Hwf as [Hwf Hdid].
  apply andb_prop in Hwf. destruct Hwf as [Htype _].
  assert (Hread : readable who = true).
  { destruct who; try discriminate Htype; reflexivity. }
  run_more. rewrite (prop_readable _ _ _ Hread). cbv beta iota.
  destruct (field "type" who) as [| | | |type| |]; try discriminate Htype.
  destruct (field "did" who) as [| | | |did| |]; try discriminate Hdid.
  cbv beta iota.
  destruct (truthy (field "ownerDid" who)) eqn:Ht; [|reflexivity].
  destruct (field "ownerDid" who) as [| | | |ownerDid| |]; try discriminate Howner.
  reflexivity.
Qed.

(** X24. [identity list], once the keystore is open and initialised and
    the library has listed the identities.  With [--json] it prints them
    as one JSON array, the empty array when there are none.  Without
    [--json] it says so when there are none, and else prints the count
    (identity for one, identities otherwise) and one block for each
    identity: its type in capitals and its name, its DID, its creation
    time, its owner DID if it has one, and an empty line; the DIDs are cut
    to 60 characters by [formatDid].  The blocks are those of identities
    as the library's types declare them, with ASCII types and DIDs. *)
Theorem identityList_output (o : IdentityListOptions) (w w1 : World)
    (keystore : Keystore) (e2 e3 : Ext) (identities : list Val) :
  getKeystore lib (il_store o) (negb (il_encryption o)) w = (Return keystore, w1) ->
  Keystore_init lib keystore (ext w1) = (Ok tt, e2) ->
  Keystore_listIdentities more keystore e2 = (Ok identities, e3) ->
  let r := identityListCommand lib more o w in
  (il_json o = true ->
   fst r = Return tt
   /\ console (snd r) = (console w1 ++ [Out (outputJson (VArr identities))])%list)
  /\ (il_json o = false ->
      forallb well_formed_identity identities = true ->
      fst r = Return tt
      /\ console (snd r)
         = (console w1
            ++ match identities with
               | [] => [Out "No identities found."]
               | _ =>
                   Out (nl ++ "Found " ++ string_of_Z (Z.of_nat (List.length identities))
                        ++ " identit"
                        ++ (if Nat.eqb (List.length identities) 1 then "y" else "ies")
                        ++ ":" ++ nl)
                   :: flat_map (identity_lines lib) identities
               end)%list).
Proof.
  intros Hks Hinit Hlist r. subst r. split.
  - intros Hjson. unfold identityListCommand. run_more. go Hks. go Hinit. go Hlist.
    rewrite Hjson. split; reflexivity.
  - intros Hjson Hwf. unfold identityListCommand. run_more. go Hks. go Hinit. go Hlist.
    rewrite Hjson. destruct identities as [|who rest]; [split; reflexivity|].
    cbv beta iota.
    rewrite (for_each_lines (print_identity lib) (identity_lines lib) (who :: rest)).
    + split; [reflexivity|]. cbn [snd]. rewrite console_add_lines. cbn [console add_line].
      rewrite <- app_assoc. reflexivity.
    + intros x Hx v. apply print_identity_well_formed.
      rewrite forallb_forall in Hwf. exact (Hwf x Hx).
Qed.


End HandlerPaths.

(* ===================================================================== *)
(** ** The further properties at work on the small instance *)
(* ===================================================================== *)

(** Settle a closed equation by evaluating both sides. *)
Ltac by_vm := vm_compute; reflexivity.

Lemma getNewKeystore_bypasses_cache_witness :
  fst demo_new = Return (mkKeystore 1 "/s" (Some "correct horse") false)
  /\ cached (snd demo_new) "/s" false = cached (snd demo_open) "/s" false
  /\ cached (snd demo_open) "/s" false = Some (mkKeystore 0 "/s" (Some "correct horse") true).
Proof.
  destruct (getNewKeystore_bypasses_cache demo_lib (snd demo_open) (snd demo_new)
              (Some "/s") false (fst demo_new) ltac:(by_vm)) as [Hcache _].
  split; [by_vm|]. split; [exact (Hcache "/s" false)|by_vm].
Defined.

Lemma clearCache_forces_reopen_witness :
  fst demo_reopen = Return (mkKeystore 0 "/s" (Some "correct horse") true)
  /\ fst demo_cleared = Return (mkKeystore 1 "/s" (Some "correct horse") true)
  /\ cached (snd demo_cleared) (getStorePath demo_lib (snd demo_open) (Some "/s")) false
     = Some (mkKeystore 1 "/s" (Some "correct horse") true).
Proof.
  destruct (clearCache_forces_reopen demo_lib (snd demo_open))
    as (_ & _ & _ & _ & _ & Hnext).
  pose proof (Hnext (Some "/s") false
                (Return (mkKeystore 1 "/s" (Some "correct horse") true))
                (snd demo_cleared) ltac:(by_vm)) as H.
  split; [by_vm|]. split; [by_vm|].
  exact (proj2 (proj2 (proj2 (proj2 H)))).
Defined.

Lemma identityInspect_report_witness :
  fst (identityInspectCommand demo_lib
         (mkIdentityInspectOptions "did:key:nobody" None false true) demo_plain) = Exit 1
  /\ fst (identityInspectCommand demo_lib
            (mkIdentityInspectOptions "did:key:bot" None false true) demo_plain) = Return tt
  /\ last (console (snd (identityInspectCommand demo_lib
                            (mkIdentityInspectOptions "did:key:bot" None false true)
                            demo_plain))) (Out "")
     = Out (outputJson
              (VObj [("did", VStr "did:key:bot"); ("kid", VStr "did:key:bot#bot");
                     ("name", VStr "Bot"); ("type", VStr "agent");
                     ("createdAt", VUndef); ("ownerDid", VStr "did:key:alice")])).
Proof.
  destruct (identityInspect_report demo_lib
              (mkIdentityInspectOptions "did:key:nobody" None false true) demo_plain
              demo_opened demo_keystore demo_store demo_store VNull
              ltac:(by_vm) ltac:(by_vm) ltac:(by_vm)) as [Hnone _].
  destruct (identityInspect_report demo_lib
              (mkIdentityInspectOptions "did:key:bot" None false true) demo_plain
              demo_opened demo_keystore demo_store demo_store demo_agent
              ltac:(by_vm) ltac:(by_vm) ltac:(by_vm)) as [_ Hbot].
  rewrite (Hnone ltac:(by_vm) ltac:(by_vm) ltac:(by_vm)).
  rewrite (Hbot "did:key:bot" ltac:(by_vm) ltac:(by_vm) ltac:(by_vm)).
  split; [reflexivity|]. split; [reflexivity|]. by_vm.
Defined.

Lemma identityDelete_deletes_found_only_witness :
  fst (identityDeleteCommand demo_lib demo_more
         (mkIdentityDeleteOptions "did:key:nobody" None false false) demo_plain) = Exit 1
  /\ ext (snd (identityDeleteCommand demo_lib demo_more
                 (mkIdentityDeleteOptions "did:key:nobody" None false false) demo_plain))
     = demo_store
  /\ fst (identityDeleteCommand demo_lib demo_more
            (mkIdentityDeleteOptions "did:key:bot" None false false) demo_plain) = Return tt
  /\ ext (snd (identityDeleteCommand demo_lib demo_more
                 (mkIdentityDeleteOptions "did:key:bot" None false false) demo_plain))
     = [("did:key:alice", demo_owner)].
Proof.
  destruct (identityDelete_deletes_found_only demo_lib demo_more
              (mkIdentityDeleteOptions "did:key:nobody" None false false) demo_plain
              demo_opened demo_keystore demo_store demo_store VNull
              ltac:(by_vm) ltac:(by_vm) ltac:(by_vm)) as [Hnone _].
  destruct (identityDelete_deletes_found_only demo_lib demo_more
              (mkIdentityDeleteOptions "did:key:bot" None false false) demo_plain
              demo_opened demo_keystore demo_store demo_store demo_agent
              ltac:(by_vm) ltac:(by_vm) ltac:(by_vm)) as [_ Hbot].
  destruct (Hnone ltac:(by_vm)) as (H1 & H2 & _).
  destruct (Hbot ltac:(by_vm) (Ok tt) [("did:key:alice", demo_owner)] ltac:(by_vm))
    as (H3 & H4 & _).
  split; [exact H1|]. split; [exact H2|]. split; [exact H4|exact H3].
Defined.

Lemma createOwner_stores_then_reports_witness :
  readable demo_keys = true
  /\ fst (createOwnerCommand demo_lib (mkCreateOwnerOptions "Alice" None false true) demo_empty)
     = Return tt
  /\ ext (snd (createOwnerCommand demo_lib (mkCreateOwnerOptions "Alice" None false true)
                 demo_empty))
     = [("did:key:z6MkDemo",
         VObj [("did", VStr "did:key:z6MkDemo"); ("type", VStr "owner");
               ("name", VStr "Alice"); ("createdAt", VStr "2026-01-01T00:00:00.000Z")])].
Proof.
  split; [reflexivity|].
  destruct (createOwner_stores_then_reports demo_lib
              (mkCreateOwnerOptions "Alice" None false true) demo_empty
              (snd (getNewKeystore demo_lib None true demo_empty)) demo_created
              [] [] demo_keys
              ltac:(by_vm) ltac:(by_vm) ltac:(by_vm)) as [_ Hkeys].
  destruct (Hkeys ltac:(by_vm) "did:key:z6MkDemo" [] ltac:(by_vm)) as [Hok _].
  pose proof (Hok [("did:key:z6MkDemo",
                    VObj [("did", VStr "did:key:z6MkDemo"); ("type", VStr "owner");
                          ("name", VStr "Alice");
                          ("createdAt", VStr "2026-01-01T00:00:00.000Z")])]
                ltac:(by_vm)) as Hrun.
  cbv zeta in Hrun. rewrite Hrun. split; [reflexivity|by_vm].
Defined.

Lemma createAgent_stores_then_reports_witness :
  readable demo_keys = true
  /\ fst (createAgentCommand demo_lib
            (mkCreateAgentOptions "Helper" "did:key:alice" None false true) demo_plain)
     = Return tt
  /\ assoc "did:key:z6MkDemo"
       (ext (snd (createAgentCommand demo_lib
                    (mkCreateAgentOptions "Helper" "did:key:alice" None false true)
                    demo_plain)))
     = Some (VObj [("did", VStr "did:key:z6MkDemo"); ("type", VStr "agent");
                   ("name", VStr "Helper"); ("createdAt", VStr "2026-01-01T00:00:00.000Z");
                   ("ownerDid", VStr "did:key:alice")]).
Proof.
  split; [reflexivity|].
  destruct (createAgent_stores_then_reports demo_lib
              (mkCreateAgentOptions "Helper" "did:key:alice" None false true) demo_plain
              (snd (getNewKeystore demo_lib None true demo_plain)) demo_created
              demo_store demo_store demo_store demo_owner demo_keys
              ltac:(by_vm) ltac:(by_vm) ltac:(by_vm) ltac:(by_vm) ltac:(by_vm)
              ltac:(by_vm)) as [_ Hkeys].
  destruct (Hkeys ltac:(by_vm) "did:key:z6MkDemo" demo_store ltac:(by_vm)) as [Hok _].
  pose proof (Hok (("did:key:z6MkDemo",
                    VObj [("did", VStr "did:key:z6MkDemo"); ("type", VStr "agent");
                          ("name", VStr "Helper");
                          ("createdAt", VStr "2026-01-01T00:00:00.000Z");
                          ("ownerDid", VStr "did:key:alice")]) :: demo_store)
                ltac:(by_vm)) as Hrun.
  cbv zeta in Hrun. rewrite Hrun. split; [reflexivity|by_vm].
Defined.

Lemma issueOwnership_issues_witness :
  fst (issueOwnershipCommand demo_lib demo_more
         (mkIssueOwnershipOptions "did:key:bot" "did:key:alice" None None false false)
         demo_plain) = Exit 1
  /\ fst (issueOwnershipCommand demo_lib demo_more
            (mkIssueOwnershipOptions "did:key:alice" "did:key:stranger" (Some "/own.jwt")
               None false false) demo_plain) = Return tt
  /\ files (snd (issueOwnershipCommand demo_lib demo_more
                   (mkIssueOwnershipOptions "did:key:alice" "did:key:stranger"
                      (Some "/own.jwt") None false false) demo_plain))
     = ("/own.jwt",
        "header."
        ++ JSON_stringify
             (VObj [("issuer", VStr "did:key:alice"); ("subject", VStr "did:key:stranger");
                    ("hints", VObj [("name", VUndef); ("createdAt", VUndef)])])
        ++ ".sig") :: files demo_opened.
Proof.
  destruct (issueOwnership_issues demo_lib demo_more
              (mkIssueOwnershipOptions "did:key:bot" "did:key:alice" None None false false)
              demo_plain demo_opened demo_keystore demo_store demo_store demo_agent
              ltac:(by_vm) ltac:(by_vm) ltac:(by_vm)) as [Hbad _].
  destruct (issueOwnership_issues demo_lib demo_more
              (mkIssueOwnershipOptions "did:key:alice" "did:key:stranger" (Some "/own.jwt")
                 None false false)
              demo_plain demo_opened demo_keystore demo_store demo_store demo_owner
              ltac:(by_vm) ltac:(by_vm) ltac:(by_vm)) as [_ Hok].
  destruct (Hbad ltac:(right; by_vm)) as (H1 & _).
  destruct (Hok ltac:(by_vm) ltac:(by_vm) VNull demo_store
              (VObj [("issuer", VStr "did:key:alice"); ("subject", VStr "did:key:stranger");
                     ("hints", VObj [("name", VUndef); ("createdAt", VUndef)])])
              demo_store demo_keys demo_store
              ("header."
               ++ JSON_stringify
                    (VObj [("issuer", VStr "did:key:alice");
                           ("subject", VStr "did:key:stranger");
                           ("hints", VObj [("name", VUndef); ("createdAt", VUndef)])])
               ++ ".sig")
              demo_store
              ltac:(by_vm) ltac:(by_vm) ltac:(by_vm) ltac:(by_vm) ltac:(by_vm))
    as (_ & H2 & H3 & _).
  split; [exact H1|]. split; [exact H2|exact H3].
Defined.

Lemma issue_then_verify_witness :
  ascii_only demo_jwt = true
  /\ writeFile_error demo_lib "/c.jwt" demo_store = None
  /\ fst demo_issued = Return tt
  /\ assoc "/c.jwt" (files (snd demo_issued)) = Some demo_jwt
  /\ demo_verified
     = (Return tt,
        add_line (Out (outputJson (demo_verify (trim demo_jwt))))
          (record_call
             (CallVerifyCredential (trim demo_jwt)
                (vcVerify_opts (mkVcVerifyOptions "/c.jwt" None None true)))
             demo_store (snd demo_issued))).
Proof.
  destruct (issue_then_verify demo_lib demo_issue_options
              (mkVcVerifyOptions "/c.jwt" None None true) demo_plain
              demo_opened demo_keystore
              demo_store demo_store demo_store demo_store demo_store
              demo_owner
              (VObj [("issuer", VStr "did:key:alice"); ("subject", VStr "did:key:bot");
                     ("scopes", VArr [VStr "read"])])
              demo_keys demo_jwt "/c.jwt"
              ltac:(by_vm) ltac:(by_vm) ltac:(by_vm) ltac:(by_vm) ltac:(by_vm)
              ltac:(by_vm) ltac:(by_vm) ltac:(by_vm) ltac:(by_vm) ltac:(by_vm)
              ltac:(by_vm) ltac:(by_vm) ltac:(by_vm)) as (Hissued & Hfile & _ & Hverify).
  split; [by_vm|]. split; [by_vm|].
  split; [exact Hissued|]. split; [exact Hfile|].
  exact (Hverify (Ok (demo_verify (trim demo_jwt))) demo_store ltac:(by_vm) ltac:(by_vm)).
Defined.

Lemma missing_file_is_reported_witness :
  assoc "/nowhere.jwt" (files demo_empty) = None
  /\ vcVerifyCommand demo_lib (mkVcVerifyOptions "/nowhere.jwt" None None false) demo_empty
     = (Exit 1,
        add_line (Err (("❌ Error: " ++ "File not found: " ++ "/nowhere.jwt")
                       ++ nl ++ "   Code: NOT_FOUND")) demo_empty)
  /\ vcInspectCommand demo_lib (mkVcInspectOptions "/nowhere.jwt" true) demo_empty
     = (Exit 1,
        add_line (Err (("❌ Error: " ++ "File not found: " ++ "/nowhere.jwt")
                       ++ nl ++ "   Code: NOT_FOUND")) demo_empty).
Proof.
  destruct (missing_file_is_reported demo_lib demo_empty) as (Hverify & Hinspect & Htext).
  split; [by_vm|].
  rewrite <- (Htext "/nowhere.jwt" ltac:(by_vm) ltac:(by_vm)).
  split.
  - exact (Hverify (mkVcVerifyOptions "/nowhere.jwt" None None false) ltac:(by_vm)).
  - exact (Hinspect (mkVcInspectOptions "/nowhere.jwt" true) ltac:(by_vm)).
Defined.

Lemma authVerify_json_exit_code_witness :
  fst (authVerifyCommand demo_lib
         (mkAuthVerifyOptions "did:key:bot" "good" "sig" None None None true) demo_empty)
  = Return tt
  /\ fst (authVerifyCommand demo_lib
            (mkAuthVerifyOptions "did:key:bot" "forged" "sig" None None None true) demo_empty)
     = Exit 1
  /\ last (console (snd (authVerifyCommand demo_lib
                           (mkAuthVerifyOptions "did:key:bot" "forged" "sig" None None None
                              true) demo_empty))) (Out "")
     = Out (outputJson (VObj [("valid", VBool false); ("reason", VStr "InvalidSignature")])).
Proof.
  rewrite (authVerify_json_exit_code demo_lib
             (mkAuthVerifyOptions "did:key:bot" "good" "sig" None None None true)
             demo_empty (Ok (demo_verify "good")) [] ltac:(by_vm) ltac:(by_vm)).
  rewrite (authVerify_json_exit_code demo_lib
             (mkAuthVerifyOptions "did:key:bot" "forged" "sig" None None None true)
             demo_empty (Ok (demo_verify "forged")) [] ltac:(by_vm) ltac:(by_vm)).
  split; [by_vm|]. split; by_vm.
Defined.

Lemma vcDelete_confirmed_witness :
  fst (vcDeleteCommand demo_lib (mkVcDeleteOptions "cred-9" None false true true) demo_plain)
  = Return tt
  /\ last (console (snd (vcDeleteCommand demo_lib
                           (mkVcDeleteOptions "cred-9" None false true true) demo_plain)))
       (Out "")
     = Out (outputJson (VObj [("deleted", VBool false); ("id", VStr "cred-9")]))
  /\ fst (vcDeleteCommand demo_lib (mkVcDeleteOptions "cred-9" None false true false)
            demo_plain)
     = Exit 1.
Proof.
  rewrite (vcDelete_confirmed demo_lib (mkVcDeleteOptions "cred-9" None false true true)
             demo_plain demo_opened demo_keystore (Ok false) demo_store
             ltac:(by_vm) ltac:(by_vm) ltac:(by_vm)).
  rewrite (vcDelete_confirmed demo_lib (mkVcDeleteOptions "cred-9" None false true false)
             demo_plain demo_opened demo_keystore (Ok false) demo_store
             ltac:(by_vm) ltac:(by_vm) ltac:(by_vm)).
  split; [by_vm|]. split; by_vm.
Defined.

Lemma vcList_lists_stored_witness :
  Forall (fun item => readable item = true
                      /\ is_str (field "id" item) = true
                      /\ truthy (extractJwt (field "data" item)) = false) demo_records
  /\ fst (vcListCommand (demo_lib_stored demo_records) (mkVcListOptions None false false)
            demo_plain) = Return tt
  /\ console (snd (vcListCommand (demo_lib_stored demo_records)
                     (mkVcListOptions None false false) demo_plain))
     = (console demo_opened
        ++ [Out (nl ++ "Found 2 credentials:" ++ nl);
            Out "ID: cred-1"; Out ""; Out "ID: cred-2"; Out ""])%list
  /\ last (console (snd (vcListCommand (demo_lib_stored demo_records)
                           (mkVcListOptions None false true) demo_plain))) (Out "")
     = Out (outputJson (VArr demo_records))
  /\ fst (vcListCommand (demo_lib_stored [VNull]) (mkVcListOptions None false false)
            demo_plain) = Exit 1.
Proof.
  assert (Hno : Forall (fun item => readable item = true
                                    /\ is_str (field "id" item) = true
                                    /\ truthy (extractJwt (field "data" item)) = false)
                  demo_records).
  { repeat constructor. }
  destruct (vcList_lists_stored (demo_lib_stored demo_records)
              (mkVcListOptions None false false) demo_plain demo_opened demo_keystore
              demo_store demo_store demo_records ltac:(by_vm) ltac:(by_vm) ltac:(by_vm))
    as (_ & Hplain & _).
  destruct (vcList_lists_stored (demo_lib_stored demo_records)
              (mkVcListOptions None false true) demo_plain demo_opened demo_keystore
              demo_store demo_store demo_records ltac:(by_vm) ltac:(by_vm) ltac:(by_vm))
    as (Hjson & _).
  destruct (vcList_lists_stored (demo_lib_stored [VNull])
              (mkVcListOptions None false false) demo_plain demo_opened demo_keystore
              demo_store demo_store [VNull] ltac:(by_vm) ltac:(by_vm) ltac:(by_vm))
    as (_ & _ & Hnull).
  split; [exact Hno|].
  rewrite (Hplain ltac:(by_vm) Hno). rewrite (Hjson ltac:(by_vm)).
  split; [by_vm|]. split; [by_vm|]. split; [by_vm|].
  exact (Hnull ltac:(by_vm) VNull [] ltac:(by_vm) ltac:(by_vm)).
Defined.

Lemma identityList_output_witness :
  forallb well_formed_identity [demo_dated_owner; demo_dated_agent] = true
  /\ fst (identityListCommand demo_lib demo_more (mkIdentityListOptions None false false)
            demo_dated) = Return tt
  /\ console (snd (identityListCommand demo_lib demo_more
                     (mkIdentityListOptions None false false) demo_dated))
     = (console demo_opened
        ++ [Out (nl ++ "Found 2 identities:" ++ nl);
            Out "OWNER   Alice"; Out "         DID: did:key:alice";
            Out ("         Created: " ++ toLocaleString demo_lib "2026-01-01T00:00:00.000Z");
            Out "";
            Out "AGENT   Bot"; Out "         DID: did:key:bot";
            Out ("         Created: " ++ toLocaleString demo_lib "2026-02-01T00:00:00.000Z");
            Out "         Owner: did:key:alice";
            Out ""])%list.
Proof.
  split; [by_vm|].
  destruct (identityList_output demo_lib demo_more (mkIdentityListOptions None false false)
              demo_dated (snd (getKeystore demo_lib None true demo_dated)) demo_keystore
              demo_dated_store demo_dated_store [demo_dated_owner; demo_dated_agent]
              ltac:(by_vm) ltac:(by_vm) ltac:(by_vm)) as [_ Hplain].
  destruct (Hplain ltac:(by_vm) ltac:(by_vm)) as [H1 H2].
  split; [exact H1|]. rewrite H2. by_vm.
Defined.

